(** * finbot: the Chinese bookkeeping-command interpreter

    A shallow embedding of the deterministic core of the finbot backend:

    - [backend/utils/date_parser.py]   (class [DateParser]),
    - [backend/services/nlp_parser.py] (class [NLPParser]),
    - [backend/routers/chat.py]        (function [_detect_intent]),
    - [backend/models/database.py]     (the default categories),
    - [backend/routers/analytics.py] and [backend/routers/import_export.py]
      (the periods of [get_summary], [get_trend] and [export_pdf]),

    followed by the properties of that code.

    Conventions of the embedding.
    - A Python [str] is the list of its Unicode code points ([list Z]);
      literals are written as UTF-8 string constants and decoded by [utf8].
    - A Python exception is a value: every function that can raise returns
      a [result], and [let*] threads the first exception through.
    - [date.today()] is an explicit argument [today].
    - A Python [float] is represented by the decimal fraction it is
      written as (binary64 rounding is not modelled: the amounts in the
      properties below are integers up to 2^53, which are exact, and every sum
      of confidence weights that [parse] can form is the double nearest to
      the same sum of fractions).
    - [jieba.cut], the external word segmenter, is a parameter [cut]. *)

From Stdlib Require Import String ZArith List Bool Lia QArith Qreduction.
Import ListNotations.
Local Open Scope Z_scope.

(* ================================================================== *)
(** ** Python values: exceptions, strings, floats *)

Inductive exn : Type :=
| ValueError
| OverflowError
| KeyError
| UnboundLocalError.

Inductive result (A : Type) : Type :=
| Ok (a : A)
| Raise (e : exn).
Arguments Ok {A} a.
Arguments Raise {A} e.

Definition bind {A B : Type} (m : result A) (f : A -> result B) : result B :=
  match m with
  | Ok a => f a
  | Raise e => Raise e
  end.

Notation "'let*' x ':=' m 'in' k" := (bind m (fun x => k))
  (at level 10, x name, m at level 100, k at level 200).

(** A code point, and a [str] as the sequence of its code points. *)
Definition char : Type := Z.
Definition str : Type := list char.

(** Decoder for UTF-8 literals (1- to 4-byte sequences). *)
Fixpoint utf8_decode (bs : list Z) : str :=
  match bs with
  | [] => []
  | b0 :: r0 =>
    if b0 <? 128 then b0 :: utf8_decode r0
    else match r0 with
    | [] => []
    | b1 :: r1 =>
      if b0 <? 224 then ((b0 - 192) * 64 + (b1 - 128)) :: utf8_decode r1
      else match r1 with
      | [] => []
      | b2 :: r2 =>
        if b0 <? 240
        then ((b0 - 224) * 4096 + (b1 - 128) * 64 + (b2 - 128)) :: utf8_decode r2
        else match r2 with
        | [] => []
        | b3 :: r3 =>
          ((b0 - 240) * 262144 + (b1 - 128) * 4096 + (b2 - 128) * 64 + (b3 - 128))
            :: utf8_decode r3
        end
      end
    end
  end.

Definition utf8 (s : string) : str :=
  utf8_decode (map (fun b => Z.of_N (Byte.to_N b)) (list_byte_of_string s)).

Fixpoint str_eqb (a b : str) : bool :=
  match a, b with
  | [], [] => true
  | x :: a', y :: b' => (x =? y) && str_eqb a' b'
  | _, _ => false
  end.

Fixpoint startswith (p s : str) : bool :=
  match p, s with
  | [], _ => true
  | x :: p', y :: s' => (x =? y) && startswith p' s'
  | _ :: _, [] => false
  end.

(** [needle in hay] on strings. *)
Fixpoint contains (needle hay : str) : bool :=
  startswith needle hay ||
  match hay with
  | [] => false
  | _ :: hay' => contains needle hay'
  end.

(** Membership of a one-character string in a character set such as
    [[元塊錢]]. *)
Definition in_class (cls : str) (c : char) : bool :=
  existsb (fun x => x =? c) cls.

(** [str.isspace] on one character; also the regex class [\s] and the
    separators of [str.strip()] and [str.split()]. *)
Definition is_space (c : char) : bool :=
  ((9 <=? c) && (c <=? 13)) || ((28 <=? c) && (c <=? 32)) ||
  (c =? 133) || (c =? 160) || (c =? 5760) ||
  ((8192 <=? c) && (c <=? 8202)) || (c =? 8232) || (c =? 8233) ||
  (c =? 8239) || (c =? 8287) || (c =? 12288).

(** The Unicode decimal digits (general category Nd, Unicode 14): they come
    in runs of ten consecutive code points, valued 0 to 9; this is the first
    code point of each run.  The regex class [\d] on a [str] pattern matches
    exactly these, and [int] and [float] read them with these values. *)
Definition DECIMAL_ZEROS : list Z :=
  [ 48; 1632; 1776; 1984; 2406; 2534; 2662; 2790; 2918; 3046; 3174; 3302;
    3430; 3558; 3664; 3792; 3872; 4160; 4240; 6112; 6160; 6470; 6608; 6784;
    6800; 6992; 7088; 7232; 7248; 42528; 43216; 43264; 43472; 43504; 43600;
    44016; 65296; 66720; 68912; 69734; 69872; 69942; 70096; 70384; 70736;
    70864; 71248; 71360; 71472; 71904; 72016; 72784; 73040; 73120; 92768;
    92864; 93008; 120782; 120792; 120802; 120812; 120822; 123200; 123632;
    125264; 130032 ].

Definition digit_value (c : char) : option Z :=
  match find (fun z => (z <=? c) && (c <? z + 10)) DECIMAL_ZEROS with
  | Some z => Some (c - z)
  | None => None
  end.

Definition is_digit (c : char) : bool :=
  match digit_value c with Some _ => true | None => false end.

(** [str.isdigit()].  The two callers apply it to a regex group that is a
    run of [\d] or a run of CJK numerals only; on such strings it holds
    exactly when the string is a run of decimal digits. *)
Definition isdigit (s : str) : bool :=
  match s with
  | [] => false
  | _ => forallb is_digit s
  end.

(** [int(s)] for a run of decimal digits, such as a group that [\d+]
    matched (the bound that recent interpreters put on the length of such
    a string, 4300 digits by default, is not modelled). *)
Definition int_of_digits (s : str) : Z :=
  fold_left (fun acc c =>
    match digit_value c with Some d => acc * 10 + d | None => acc end) s 0.

(** Python floats, as the rationals they denote. *)
Definition float : Type := Q.

(** [float(n)] for an [int]: the conversion raises [OverflowError] from
    [2^1024 - 2^970] on, where rounding would leave the binary64 range. *)
Definition float_of_int (n : Z) : result float :=
  if Z.abs n <? 2 ^ 1024 - 2 ^ 970 then Ok (inject_Z n) else Raise OverflowError.

(** [float(s)] for a string matched by [\d+(?:\.\d+)?]. *)
Fixpoint split_at_dot (s : str) : str * option str :=
  match s with
  | [] => ([], None)
  | c :: s' =>
    if c =? 46 then ([], Some s')
    else let '(a, b) := split_at_dot s' in (c :: a, b)
  end.

Definition float_of_str (s : str) : float :=
  match split_at_dot s with
  | (ip, None) => inject_Z (int_of_digits ip)
  | (ip, Some fp) =>
    Qred (Qmake (int_of_digits ip * 10 ^ Z.of_nat (length fp) + int_of_digits fp)
                (Z.to_pos (10 ^ Z.of_nat (length fp))))
  end.

(** Truth value of a float: [0.0] is false. *)
Definition float_truthy (x : float) : bool := negb (Qeq_bool x 0).

(** [s.strip()]. *)
Fixpoint lstrip (s : str) : str :=
  match s with
  | c :: s' => if is_space c then lstrip s' else s
  | [] => []
  end.

Definition strip (s : str) : str := rev (lstrip (rev (lstrip s))).

(** [s.split()]: the maximal runs of non-space characters. *)
Fixpoint split_ws_aux (cur : str) (s : str) : list str :=
  match s with
  | [] => match cur with [] => [] | _ => [rev cur] end
  | c :: s' =>
    if is_space c
    then match cur with [] => split_ws_aux [] s' | _ => rev cur :: split_ws_aux [] s' end
    else split_ws_aux (c :: cur) s'
  end.

Definition split_ws (s : str) : list str := split_ws_aux [] s.

(** [sep.join(parts)]. *)
Fixpoint join (sep : str) (parts : list str) : str :=
  match parts with
  | [] => []
  | [p] => p
  | p :: rest => p ++ sep ++ join sep rest
  end.

(** [s.replace(kw, '')] for a non-empty [kw]; [fuel] bounds the scan. *)
Fixpoint remove_all (fuel : nat) (kw s : str) : str :=
  match fuel with
  | O => s
  | S f =>
    match s with
    | [] => []
    | c :: s' =>
      if startswith kw s then remove_all f kw (skipn (length kw) s)
      else c :: remove_all f kw s'
    end
  end.

Definition replace_del (kw s : str) : str := remove_all (length s) kw s.

(** [s.split(sep)] for a one-character separator. *)
Fixpoint split_on (sep : char) (s : str) : list str :=
  match s with
  | [] => [[]]
  | c :: s' =>
    match split_on sep s' with
    | p :: ps => if c =? sep then [] :: p :: ps else (c :: p) :: ps
    | [] => [[c]]
    end
  end.

(** A [dict] literal with string keys, in insertion order. *)
Fixpoint dict_get {V : Type} (d : list (str * V)) (k : str) : option V :=
  match d with
  | [] => None
  | (k', v) :: d' => if str_eqb k' k then Some v else dict_get d' k
  end.

(* ================================================================== *)
(** ** Regular expressions: the fragment of [re] the sources use

    A backtracking matcher with Python's priorities: alternatives left to
    right, quantifiers greedy, [re.search] leftmost.  Only character
    classes are repeated in the patterns of the sources, so [Star] and
    [Rep] take a class. *)

Inductive regex : Type :=
| Eps                                      (* empty pattern *)
| Cls (p : char -> bool)                   (* one character of a class *)
| Cat (r1 r2 : regex)                      (* r1 r2 *)
| Alt (r1 r2 : regex)                      (* r1|r2 *)
| Opt (r : regex)                          (* r? *)
| Star (p : char -> bool)                  (* [class]* *)
| Rep (lo hi : nat) (p : char -> bool)     (* [class]{lo,hi} *)
| Grp (i : nat) (r : regex)                (* capturing group number i *)
| Eos.                                     (* $ *)

(** Captured groups, the latest binding first. *)
Definition captures : Type := list (nat * str).

Section Matcher.
Context {A : Type}.

(** Greedy [class]*: take the longest run first, give back on failure. *)
Fixpoint match_star (p : char -> bool) (s : str) (k : str -> option A) : option A :=
  match s with
  | c :: s' =>
    if p c
    then match match_star p s' k with
         | Some a => Some a
         | None => k s
         end
    else k s
  | [] => k s
  end.

(** Exactly [n] characters of the class. *)
Fixpoint match_times (n : nat) (p : char -> bool) (s : str) (k : str -> option A) : option A :=
  match n with
  | O => k s
  | S n' =>
    match s with
    | c :: s' => if p c then match_times n' p s' k else None
    | [] => None
    end
  end.

(** Greedily at most [n] characters of the class. *)
Fixpoint match_upto (n : nat) (p : char -> bool) (s : str) (k : str -> option A) : option A :=
  match n with
  | O => k s
  | S n' =>
    match s with
    | c :: s' =>
      if p c
      then match match_upto n' p s' k with
           | Some a => Some a
           | None => k s
           end
      else k s
    | [] => k s
    end
  end.

Fixpoint rmatch (r : regex) (s : str) (g : captures)
         (k : str -> captures -> option A) : option A :=
  match r with
  | Eps => k s g
  | Cls p =>
    match s with
    | c :: s' => if p c then k s' g else None
    | [] => None
    end
  | Cat r1 r2 => rmatch r1 s g (fun s1 g1 => rmatch r2 s1 g1 k)
  | Alt r1 r2 =>
    match rmatch r1 s g k with
    | Some a => Some a
    | None => rmatch r2 s g k
    end
  | Opt r1 =>
    match rmatch r1 s g k with
    | Some a => Some a
    | None => k s g
    end
  | Star p => match_star p s (fun s' => k s' g)
  | Rep lo hi p =>
    match_times lo p s (fun s1 => match_upto (hi - lo) p s1 (fun s2 => k s2 g))
  | Grp i r1 =>
    rmatch r1 s g
      (fun s1 g1 => k s1 ((i, firstn (length s - length s1) s) :: g1))
  | Eos =>
    (* end of the string, or just before a final newline *)
    match s with
    | [] => k s g
    | [c] => if c =? 10 then k s g else None
    | _ => None
    end
  end.
End Matcher.

(** A match object: where the match starts, group 0, what follows it, and
    the numbered groups. *)
Record rmatch_obj : Type := MatchObj {
  m_start : nat;
  m_text : str;
  m_rest : str;
  m_groups : captures
}.

(** A match of [r] at the very start of [s] ([re.match]). *)
Definition match_here (r : regex) (pos : nat) (s : str) : option rmatch_obj :=
  rmatch r s [] (fun rest g =>
    Some (MatchObj pos (firstn (length s - length rest) s) rest g)).

(** [re.search(r, s)]: the first position with a match. *)
Fixpoint search_from (r : regex) (pos : nat) (s : str) : option rmatch_obj :=
  match match_here r pos s with
  | Some m => Some m
  | None =>
    match s with
    | [] => None
    | _ :: s' => search_from r (S pos) s'
    end
  end.

Definition re_search (r : regex) (s : str) : option rmatch_obj := search_from r 0 s.

(** [m.group(i)]: [None] for a group that took no part in the match. *)
Fixpoint lookup_group (g : captures) (i : nat) : option str :=
  match g with
  | [] => None
  | (j, t) :: g' => if Nat.eqb j i then Some t else lookup_group g' i
  end.

Definition group (m : rmatch_obj) (i : nat) : option str := lookup_group (m_groups m) i.

(** [m.group(i)] where the caller goes on to use the text. *)
Definition group_text (m : rmatch_obj) (i : nat) : str :=
  match group m i with Some t => t | None => [] end.

(** [re.sub(r, '', s)] for a pattern that matches no empty string: the
    matches are cut out left to right; [fuel] bounds the scan. *)
Fixpoint sub_del (fuel : nat) (r : regex) (s : str) : str :=
  match fuel with
  | O => s
  | S f =>
    match match_here r 0 s, s with
    | Some m, c :: s' =>
      match m_text m with
      | [] => c :: sub_del f r s'
      | _ => sub_del f r (m_rest m)
      end
    | Some _, [] => []
    | None, c :: s' => c :: sub_del f r s'
    | None, [] => []
    end
  end.

Definition re_sub_del (r : regex) (s : str) : str := sub_del (length s) r s.

(** Pattern-building shorthands. *)
Definition lit (s : str) : regex :=
  fold_right (fun c r => Cat (Cls (fun x => x =? c)) r) Eps s.
Definition cls (s : str) : regex := Cls (in_class s).
Definition plus (p : char -> bool) : regex := Cat (Cls p) (Star p).
Definition digits : regex := plus is_digit.                     (* \d+ *)
Definition spaces : regex := Star is_space.                     (* \s* *)
(** [\d+(?:\.\d+)?] *)
Definition number : regex := Cat digits (Opt (Cat (lit (utf8 ".")) digits)).
(** A literal letter under [re.IGNORECASE]. *)
Definition letter_i (lower upper : str) : regex := cls (lower ++ upper).

(* ================================================================== *)
(** ** [datetime.date] and [datetime.timedelta]

    The proleptic Gregorian calendar of the [datetime] module, years 1 to
    9999, with the module's own day numbering ([date.toordinal]: 1 is
    0001-01-01). *)

Record date : Type := mkdate { year : Z; month : Z; day : Z }.

Definition MINYEAR : Z := 1.
Definition MAXYEAR : Z := 9999.
(** [date.max.toordinal()], the ordinal of 9999-12-31. *)
Definition MAXORDINAL : Z := 3652059.

Definition is_leap (y : Z) : bool :=
  (y mod 4 =? 0) && (negb (y mod 100 =? 0) || (y mod 400 =? 0)).

Definition days_in_month (y m : Z) : Z :=
  if m =? 2 then (if is_leap y then 29 else 28)
  else if (m =? 4) || (m =? 6) || (m =? 9) || (m =? 11) then 30
  else 31.

(** Days before January 1st of year [y]. *)
Definition days_before_year (y : Z) : Z :=
  let y1 := y - 1 in y1 * 365 + y1 / 4 - y1 / 100 + y1 / 400.

(** Days of a common year before the first of month [m]. *)
Definition DAYS_BEFORE_MONTH (m : Z) : Z :=
  match m with
  | 1 => 0 | 2 => 31 | 3 => 59 | 4 => 90 | 5 => 120 | 6 => 151
  | 7 => 181 | 8 => 212 | 9 => 243 | 10 => 273 | 11 => 304 | 12 => 334
  | _ => 365
  end.

Definition days_before_month (y m : Z) : Z :=
  DAYS_BEFORE_MONTH m + (if (2 <? m) && is_leap y then 1 else 0).

Definition ymd2ord (y m d : Z) : Z :=
  days_before_year y + days_before_month y m + d.

(** [d.toordinal()]. *)
Definition toordinal (d : date) : Z := ymd2ord (year d) (month d) (day d).

(** [date.fromordinal(n)], by 400-, 100-, 4- and 1-year cycles. *)
Definition fromordinal (n : Z) : date :=
  let n := n - 1 in
  let n400 := n / 146097 in
  let n := n mod 146097 in
  let n100 := n / 36524 in
  let n := n mod 36524 in
  let n4 := n / 1461 in
  let n := n mod 1461 in
  let n1 := n / 365 in
  let n := n mod 365 in
  let y := n400 * 400 + 1 + n100 * 100 + n4 * 4 + n1 in
  if (n1 =? 4) || (n100 =? 4) then mkdate (y - 1) 12 31
  else
    let leapyear := (n1 =? 3) && (negb (n4 =? 24) || (n100 =? 3)) in
    let m := (n + 50) / 32 in
    let preceding := DAYS_BEFORE_MONTH m + (if (2 <? m) && leapyear then 1 else 0) in
    if n <? preceding
    then
      let m' := m - 1 in
      let preceding' :=
        preceding - (if (m' =? 2) && leapyear then 29 else days_in_month 1 m') in
      mkdate y m' (n - preceding' + 1)
    else mkdate y m (n - preceding + 1).

(** The dates the constructor accepts. *)
Definition valid_date (d : date) : bool :=
  (MINYEAR <=? year d) && (year d <=? MAXYEAR) &&
  (1 <=? month d) && (month d <=? 12) &&
  (1 <=? day d) && (day d <=? days_in_month (year d) (month d)).

(** [date(y, m, d)]: [ValueError] outside the calendar. *)
Definition date_new (y m d : Z) : result date :=
  if valid_date (mkdate y m d) then Ok (mkdate y m d) else Raise ValueError.

(** An argument that the C implementation of [datetime] reads as a C
    [int]: [OverflowError] outside 32 bits. *)
Definition c_int (n : Z) : result Z :=
  if (-2147483648 <=? n) && (n <=? 2147483647) then Ok n else Raise OverflowError.

(** [date(y, m, d)] on arbitrary integers. *)
Definition date_of_ints (y m d : Z) : result date :=
  let* y := c_int y in
  let* m := c_int m in
  let* d := c_int d in
  date_new y m d.

(** [d.replace(day=n)] and [d.replace(month=m, day=n)]. *)
Definition replace_day (d : date) (n : Z) : result date :=
  let* n := c_int n in
  date_new (year d) (month d) n.
Definition replace_month_day (d : date) (m n : Z) : result date :=
  let* m := c_int m in
  let* n := c_int n in
  date_new (year d) m n.

(** [timedelta(days=n)]: [OverflowError] beyond 999999999 days. *)
Definition timedelta (n : Z) : result Z :=
  if Z.abs n <=? 999999999 then Ok n else Raise OverflowError.

(** [d + delta] and [d - delta]: [OverflowError] outside years 1..9999. *)
Definition date_add (d : date) (delta : Z) : result date :=
  let o := toordinal d + delta in
  if (0 <? o) && (o <=? MAXORDINAL) then Ok (fromordinal o) else Raise OverflowError.
Definition date_sub (d : date) (delta : Z) : result date := date_add d (- delta).

(** [d.weekday()]: Monday is 0. *)
Definition weekday (d : date) : Z := (toordinal d + 6) mod 7.

(** [a <= b] on dates compares (year, month, day). *)
Definition date_leb (a b : date) : bool :=
  (year a <? year b) ||
  ((year a =? year b) &&
   ((month a <? month b) || ((month a =? month b) && (day a <=? day b)))).

(** [today - timedelta(days=n)] and [today + timedelta(days=n)]. *)
Definition minus_days (d : date) (n : Z) : result date :=
  let* delta := timedelta n in date_sub d delta.
Definition plus_days (d : date) (n : Z) : result date :=
  let* delta := timedelta n in date_add d delta.

(** [try: body  except ValueError: handler]. *)
Definition try_ValueError {A : Type} (body handler : result A) : result A :=
  match body with
  | Raise ValueError => handler
  | other => other
  end.

(** [d[k]] on a dict literal. *)
Definition dict_index {V : Type} (d : list (str * V)) (k : str) : result V :=
  match dict_get d k with
  | Some v => Ok v
  | None => Raise KeyError
  end.

(** [d.get(k, default)]. *)
Definition dict_get_default {V : Type} (d : list (str * V)) (k : str) (default : V) : V :=
  match dict_get d k with
  | Some v => v
  | None => default
  end.

(* ================================================================== *)
(** ** [backend/utils/date_parser.py] *)

Module DateParser.

Definition CHINESE_NUMS : list (str * Z) :=
  [ (utf8 "零", 0); (utf8 "一", 1); (utf8 "二", 2); (utf8 "三", 3); (utf8 "四", 4);
    (utf8 "五", 5); (utf8 "六", 6); (utf8 "七", 7); (utf8 "八", 8); (utf8 "九", 9);
    (utf8 "十", 10); (utf8 "兩", 2); (utf8 "两", 2) ].

Definition WEEKDAY_MAP : list (str * Z) :=
  [ (utf8 "一", 0); (utf8 "二", 1); (utf8 "三", 2); (utf8 "四", 3);
    (utf8 "五", 4); (utf8 "六", 5); (utf8 "日", 6); (utf8 "天", 6) ].

Definition WEEK_OFFSET : list (str * Z) :=
  [ (utf8 "上", -1); (utf8 "這", 0); (utf8 "下", 1) ].

(** The numeral characters the "N天前" pattern accepts. *)
Definition NUMERAL_CLASS : str := utf8 "一二三四五六七八九十".

Definition _parse_chinese_number (text : str) : Z :=
  if isdigit text then int_of_digits text
  else if (length text =? 1)%nat then dict_get_default CHINESE_NUMS text 1
  else
    let result :=
      if contains (utf8 "十") text
      then
        let parts := split_on 21313 text in          (* text.split('十') *)
        let part0 := nth 0 parts [] in
        let part1 := nth 1 parts [] in
        let result :=
          match part0 with
          | [] => 10
          | _ => dict_get_default CHINESE_NUMS part0 1 * 10
          end in
        match part1 with
        | [] => result
        | _ => result + dict_get_default CHINESE_NUMS part1 0
        end
      else
        fold_left (fun result c =>
          match dict_get CHINESE_NUMS [c] with
          | Some v => result * 10 + v
          | None => result
          end) text 0
    in
    if 0 <? result then result else 1.

(** [(\d+|[一二三四五六七八九十]+)\s*天前] *)
Definition RE_DAYS_AGO : regex :=
  Cat (Grp 1 (Alt digits (plus (in_class NUMERAL_CLASS))))
      (Cat spaces (lit (utf8 "天前"))).

(** [(上|這|下)週([一二三四五六日天])] *)
Definition RE_WEEKDAY : regex :=
  Cat (Grp 1 (Alt (lit (utf8 "上")) (Alt (lit (utf8 "這")) (lit (utf8 "下")))))
      (Cat (lit (utf8 "週")) (Grp 2 (cls (utf8 "一二三四五六日天")))).

(** [上個月(\d+)[號日]?] *)
Definition RE_LAST_MONTH : regex :=
  Cat (lit (utf8 "上個月")) (Cat (Grp 1 digits) (Opt (cls (utf8 "號日")))).

(** [(這個月)?(\d+)[號日]] *)
Definition RE_THIS_MONTH : regex :=
  Cat (Opt (Grp 1 (lit (utf8 "這個月")))) (Cat (Grp 2 digits) (cls (utf8 "號日"))).

(** [(\d{1,2})[/\-](\d{1,2})] *)
Definition RE_MONTH_DAY : regex :=
  Cat (Grp 1 (Rep 1 2 is_digit)) (Cat (cls (utf8 "/-")) (Grp 2 (Rep 1 2 is_digit))).

(** [(\d{4})[年/\-](\d{1,2})[月/\-](\d{1,2})[日]?] *)
Definition RE_FULL_DATE : regex :=
  Cat (Grp 1 (Rep 4 4 is_digit))
 (Cat (cls (utf8 "年/-"))
 (Cat (Grp 2 (Rep 1 2 is_digit))
 (Cat (cls (utf8 "月/-"))
 (Cat (Grp 3 (Rep 1 2 is_digit))
      (Opt (cls (utf8 "日"))))))).

(** The last rule: a full date, else [None]. *)
Definition parse_full_date (text : str) : result (option date) :=
  match re_search RE_FULL_DATE text with
  | Some m =>
    let y := int_of_digits (group_text m 1) in
    let mo := int_of_digits (group_text m 2) in
    let d := int_of_digits (group_text m 3) in
    try_ValueError (let* r := date_of_ints y mo d in Ok (Some r)) (Ok None)
  | None => Ok None
  end.

(** [DateParser.parse(text)], with [date.today()] as [today]. *)
Definition parse (today : date) (text : str) : result (option date) :=
  let text := strip text in
  if contains (utf8 "今天") text || contains (utf8 "今日") text then
    Ok (Some today)
  else if contains (utf8 "昨天") text || contains (utf8 "昨日") text then
    let* d := minus_days today 1 in Ok (Some d)
  else if contains (utf8 "前天") text then
    let* d := minus_days today 2 in Ok (Some d)
  else if contains (utf8 "大前天") text then
    let* d := minus_days today 3 in Ok (Some d)
  else if contains (utf8 "明天") text || contains (utf8 "明日") text then
    let* d := plus_days today 1 in Ok (Some d)
  else
  match re_search RE_DAYS_AGO text with
  | Some m =>
    let days := _parse_chinese_number (group_text m 1) in
    let* d := minus_days today days in Ok (Some d)
  | None =>
  match re_search RE_WEEKDAY text with
  | Some m =>
    let* week_offset := dict_index WEEK_OFFSET (group_text m 1) in
    let* target_weekday := dict_index WEEKDAY_MAP (group_text m 2) in
    let current_weekday := weekday today in
    let days_diff := target_weekday - current_weekday + week_offset * 7 in
    let* d := plus_days today days_diff in Ok (Some d)
  | None =>
  match re_search RE_LAST_MONTH text with
  | Some m =>
    let day := int_of_digits (group_text m 1) in
    let* first_of_month := replace_day today 1 in
    let* last_month := minus_days first_of_month 1 in
    let* d := try_ValueError (replace_day last_month day) (Ok last_month) in
    Ok (Some d)
  | None =>
  match re_search RE_THIS_MONTH text with
  | Some m =>
    let day := int_of_digits (group_text m 2) in
    let* d := try_ValueError (replace_day today day) (Ok today) in
    Ok (Some d)
  | None =>
  match re_search RE_MONTH_DAY text with
  | Some m =>
    let mo := int_of_digits (group_text m 1) in
    let day := int_of_digits (group_text m 2) in
    try_ValueError
      (let* d := date_of_ints (year today) mo day in Ok (Some d))
      (parse_full_date text)
  | None => parse_full_date text
  end end end end end.

End DateParser.

(* ================================================================== *)
(** ** [backend/services/nlp_parser.py] *)

(** The string-valued fields of the result dictionaries, as enumerations:
    ["income"]/["expense"]; ["summary"], ["trend"], ["category"],
    ["compare"]; ["day"], ["week"], ["month"], ["year"]; ["pie"], ["line"],
    ["bar"]. *)
Inductive txn_type : Type := Income | Expense.
Inductive query_type : Type := QSummary | QTrend | QCategory | QCompare.
Inductive period_type : Type := PDay | PWeek | PMonth | PYear.
Inductive chart_type : Type := ChartPie | ChartLine | ChartBar.

(** The dictionary [NLPParser.parse] returns. *)
Record ParsedRecord : Type := mkRecord {
  r_amount : option float;
  r_type : txn_type;
  r_category : str;
  r_date : date;
  r_description : str;
  r_confidence : float;
  r_raw_text : str
}.

(** The dictionary [NLPParser.parse_query] returns. *)
Record ParsedQuery : Type := mkQuery {
  q_query_type : query_type;
  q_category : option str;
  q_period : period_type;
  q_start_date : date;
  q_end_date : date;
  q_chart_type : option chart_type
}.

(** Reading a local variable of a function body: a name that the body
    binds somewhere is local throughout, and reading it before the binding
    statement has run raises [UnboundLocalError]. *)
Definition load_local {A : Type} (v : option A) : result A :=
  match v with
  | Some x => Ok x
  | None => Raise UnboundLocalError
  end.

Module NLPParser.

Definition CATEGORY_KEYWORDS : list (str * list str) :=
  [ (utf8 "餐飲", map utf8
      [ "吃"; "餐"; "飯"; "午餐"; "晚餐"; "早餐"; "宵夜"; "飲料"; "咖啡"; "奶茶";
        "便當"; "麵"; "火鍋"; "燒烤"; "外食"; "食"; "喝"; "零食"; "點心"; "蛋糕" ]%string);
    (utf8 "交通", map utf8
      [ "車"; "捷運"; "公車"; "uber"; "計程車"; "高鐵"; "火車"; "機票"; "加油";
        "停車"; "通勤"; "騎"; "搭"; "坐車"; "交通" ]%string);
    (utf8 "娛樂", map utf8
      [ "電影"; "遊戲"; "KTV"; "唱歌"; "玩"; "門票"; "旅遊"; "遊"; "看展";
        "演唱會"; "娛樂"; "訂閱"; "Netflix"; "Spotify" ]%string);
    (utf8 "購物", map utf8
      [ "買"; "購"; "衣服"; "鞋"; "包"; "3C"; "電器"; "手機"; "電腦";
        "網購"; "蝦皮"; "淘寶"; "百貨"; "超市"; "便利商店"; "全聯" ]%string);
    (utf8 "醫療", map utf8
      [ "醫"; "藥"; "看診"; "掛號"; "健檢"; "牙"; "眼科"; "診所"; "醫院" ]%string);
    (utf8 "居住", map utf8
      [ "房租"; "水電"; "電費"; "水費"; "瓦斯"; "管理費"; "網路"; "cable";
        "租金"; "房貸"; "維修" ]%string);
    (utf8 "教育", map utf8
      [ "書"; "課"; "學費"; "補習"; "教材"; "文具"; "考試"; "證照"; "線上課程" ]%string);
    (utf8 "薪資", map utf8
      [ "薪"; "薪水"; "工資"; "發薪"; "月薪"; "獎金"; "年終" ]%string);
    (utf8 "投資", map utf8
      [ "股"; "基金"; "利息"; "股利"; "配息"; "投資收益" ]%string);
    (utf8 "其他收入", map utf8
      [ "收入"; "入帳"; "轉帳收入"; "紅包"; "禮金"; "中獎" ]%string) ].

Definition INCOME_CATEGORIES : list str :=
  [ utf8 "薪資"; utf8 "投資"; utf8 "其他收入" ].

(** [category in cls.INCOME_CATEGORIES] *)
Definition is_income_category (c : str) : bool :=
  existsb (str_eqb c) INCOME_CATEGORIES.

Definition CHINESE_NUMS : list (str * Z) :=
  [ (utf8 "零", 0); (utf8 "一", 1); (utf8 "二", 2); (utf8 "三", 3); (utf8 "四", 4);
    (utf8 "五", 5); (utf8 "六", 6); (utf8 "七", 7); (utf8 "八", 8); (utf8 "九", 9);
    (utf8 "十", 10); (utf8 "百", 100); (utf8 "千", 1000); (utf8 "萬", 10000);
    (utf8 "兩", 2); (utf8 "两", 2) ].

(** One turn of the loop of [_chinese_to_number] over the pair
    [(result, temp)]. *)
Definition numeral_step (st : Z * Z) (c : char) : Z * Z :=
  let '(result, temp) := st in
  match dict_get CHINESE_NUMS [c] with
  | Some num =>
    if 10 <=? num then
      let temp := if temp =? 0 then 1 else temp in
      let temp := temp * num in
      if 10000 <=? num then (result + temp, 0) else (result, temp)
    else
      (result, if 10 <=? temp then temp * 10 + num else num)
  | None => (result, temp)
  end.

(** The integer [result + temp] the loop ends with. *)
Definition chinese_to_int (text : str) : Z :=
  let '(result, temp) := fold_left numeral_step text (0, 0) in result + temp.

Definition _chinese_to_number (text : str) : result float :=
  float_of_int (chinese_to_int text).

Definition CURRENCY : str := utf8 "元塊錢".
Definition CHINESE_DIGITS : str := utf8 "零一二三四五六七八九十百千萬兩两".

(** [(\d+(?:\.\d+)?)\s*[元塊錢]] *)
Definition RE_AMOUNT_UNIT : regex :=
  Cat (Grp 1 number) (Cat spaces (cls CURRENCY)).
(** [\$\s*(\d+(?:\.\d+)?)] *)
Definition RE_AMOUNT_DOLLAR : regex :=
  Cat (lit (utf8 "$")) (Cat spaces (Grp 1 number)).
(** [NT\$?\s*(\d+(?:\.\d+)?)], under [re.IGNORECASE] *)
Definition RE_AMOUNT_NT : regex :=
  Cat (letter_i (utf8 "n") (utf8 "N")) (Cat (letter_i (utf8 "t") (utf8 "T"))
    (Cat (Opt (lit (utf8 "$"))) (Cat spaces (Grp 1 number)))).
(** [(\d+(?:\.\d+)?)\s*(?:元|塊|錢|$)] *)
Definition RE_AMOUNT_END : regex :=
  Cat (Grp 1 number)
      (Cat spaces (Alt (lit (utf8 "元")) (Alt (lit (utf8 "塊")) (Alt (lit (utf8 "錢")) Eos)))).
(** [([零一二三四五六七八九十百千萬兩两]+)\s*[元塊錢]] *)
Definition RE_CHINESE_AMOUNT : regex :=
  Cat (Grp 1 (plus (in_class CHINESE_DIGITS))) (Cat spaces (cls CURRENCY)).
(** [(\d+(?:\.\d+)?)] *)
Definition RE_ANY_NUMBER : regex := Grp 1 number.

Definition AMOUNT_PATTERNS : list regex :=
  [ RE_AMOUNT_UNIT; RE_AMOUNT_DOLLAR; RE_AMOUNT_NT; RE_AMOUNT_END ].

(** The [for pattern in patterns] loop: the first pattern that matches
    decides. *)
Fixpoint first_pattern_amount (patterns : list regex) (text : str) : option float :=
  match patterns with
  | [] => None
  | pattern :: rest =>
    match re_search pattern text with
    | Some m => Some (float_of_str (group_text m 1))
    | None => first_pattern_amount rest text
    end
  end.

Definition _extract_chinese_amount (text : str) : result (option float) :=
  match re_search RE_CHINESE_AMOUNT text with
  | None => Ok None
  | Some m =>
    let chinese_num := group_text m 1 in
    let* v := _chinese_to_number chinese_num in Ok (Some v)
  end.

(** [if x:] on an [Optional[float]]: neither [None] nor [0.0]. *)
Definition truthy (x : option float) : bool :=
  match x with
  | Some v => float_truthy v
  | None => false
  end.

Definition _extract_amount (text : str) : result (option float) :=
  match first_pattern_amount AMOUNT_PATTERNS text with
  | Some v => Ok (Some v)
  | None =>
    let* chinese_amount := _extract_chinese_amount text in
    if truthy chinese_amount then Ok chinese_amount
    else
      match re_search RE_ANY_NUMBER text with
      | Some m => Ok (Some (float_of_str (group_text m 1)))
      | None => Ok None
      end
  end.

(** The score of one category: one point for every pair of a word and a
    keyword of which one contains the other. *)
Definition category_score (words keywords : list str) : Z :=
  fold_left (fun score word =>
    fold_left (fun score keyword =>
      if contains keyword word || contains word keyword then score + 1 else score)
      keywords score)
    words 0.

(** The [scores] dictionary: the categories with a positive score, in
    the order of [CATEGORY_KEYWORDS]. *)
Definition category_scores (words : list str) : list (str * Z) :=
  filter (fun e => 0 <? snd e)
    (map (fun e => (fst e, category_score words (snd e))) CATEGORY_KEYWORDS).

(** [max(scores, key=scores.get)]: the first key with the largest value. *)
Fixpoint max_by_score (best : str * Z) (rest : list (str * Z)) : str :=
  match rest with
  | [] => fst best
  | e :: rest' => max_by_score (if snd best <? snd e then e else best) rest'
  end.

Definition best_category (words : list str) : option str :=
  match category_scores words with
  | [] => None
  | e :: rest => Some (max_by_score e rest)
  end.

(** [text.replace(kw, '')] for each of the date keywords in turn. *)
Definition DATE_KEYWORDS : list str :=
  map utf8 [ "今天"; "昨天"; "前天"; "今日"; "昨日"; "上週"; "這週"; "下週";
             "上個月"; "這個月" ]%string.

(** The amount patterns without their groups, for [re.sub]. *)
Definition _clean_description (text : str) : str :=
  let text := re_sub_del (Cat number (Cat spaces (cls CURRENCY))) text in
  let text := re_sub_del (Cat (lit (utf8 "$")) (Cat spaces number)) text in
  let text := re_sub_del
    (Cat (letter_i (utf8 "n") (utf8 "N")) (Cat (letter_i (utf8 "t") (utf8 "T"))
      (Cat (Opt (lit (utf8 "$"))) (Cat spaces number)))) text in
  let text := fold_left (fun text kw => replace_del kw text) DATE_KEYWORDS text in
  let text := join (utf8 " ") (split_ws text) in
  strip text.

(** The other [_parse_chinese_number], of [NLPParser]. *)
Definition MONTH_NUMS : list (str * Z) :=
  [ (utf8 "一", 1); (utf8 "二", 2); (utf8 "三", 3); (utf8 "四", 4); (utf8 "五", 5);
    (utf8 "六", 6); (utf8 "七", 7); (utf8 "八", 8); (utf8 "九", 9); (utf8 "十", 10) ].

Definition _parse_chinese_number (text : str) : Z :=
  if isdigit text then int_of_digits text
  else if (length text =? 1)%nat then dict_get_default MONTH_NUMS text 1
  else 3.

Section WithSegmenter.
(** [jieba.cut]: the word segmenter, an external library. *)
Variable cut : str -> list str.

Definition _extract_category (text : str) : option str :=
  best_category (cut text).

(** [NLPParser.parse(text)], with [date.today()] as [today].  The fields of
    the [result] dictionary start as [amount = None], [type = "expense"],
    [date = today] and [confidence = 0.0]; each step below overwrites the
    fields it names.  The confidence is kept as a fraction in lowest
    terms. *)
Definition parse (today : date) (text : str) : result ParsedRecord :=
  let amount0 : option float := None in
  let type0 := Expense in
  let date0 := today in
  let confidence := 0%Q in
  (* 1. the amount *)
  let* amount := _extract_amount text in
  let '(amount1, confidence) :=
    if truthy amount then (amount, confidence + 0.4)%Q else (amount0, confidence) in
  (* 2. the date *)
  let* parsed_date := DateParser.parse today text in
  let '(date1, confidence) :=
    match parsed_date with
    | Some d => (d, confidence + 0.1)%Q
    | None => (date0, confidence)
    end in
  (* 3. the category *)
  let '(category1, type1, confidence) :=
    match _extract_category text with
    | Some category =>
      (category, (if is_income_category category then Income else Expense),
       confidence + 0.4)%Q
    | None =>
      ((if contains (utf8 "收入") text then utf8 "其他收入" else utf8 "其他"),
       type0, confidence + 0.1)%Q
    end in
  (* 4. the description *)
  Ok (mkRecord amount1 type1 category1 date1 (_clean_description text)
               (Qred confidence) text).
End WithSegmenter.

(** ["近N個月"]: [近?(\d+|[一二三四五六七八九十]+)\s*個?月] *)
Definition RE_MONTHS : regex :=
  Cat (Opt (lit (utf8 "近")))
 (Cat (Grp 1 (Alt digits (plus (in_class (utf8 "一二三四五六七八九十")))))
 (Cat spaces (Cat (Opt (lit (utf8 "個"))) (lit (utf8 "月"))))).

(** The body of [for _ in range(n)]: one month back, to its first day. *)
Fixpoint months_back (n : nat) (td : Z -> result Z) (start_date : date) : result date :=
  match n with
  | O => Ok start_date
  | S n' =>
    let* delta := td 1 in
    let* d := date_sub start_date delta in
    let* d := replace_day d 1 in
    months_back n' td d
  end.

(** [for category in CATEGORY_KEYWORDS.keys(): if category in text: ... break] *)
Definition first_category_in (text : str) : option str :=
  find (fun category => contains category text) (map fst CATEGORY_KEYWORDS).

(** [NLPParser.parse_query(text)], with [date.today()] as [today].

    The name [timedelta] is a local variable of this function: the
    statement [from datetime import timedelta] inside the "N個月" block
    binds it, so the module-level import at the end of the file is not
    what the body reads.  [timedelta_local] is that local variable. *)
Definition parse_query (today : date) (text : str) : result ParsedQuery :=
  let timedelta_local : option (Z -> result Z) := None in
  let* first := replace_day today 1 in
  let result := mkQuery QSummary None PMonth first today None in
  (* the time range *)
  let* result :=
    if contains (utf8 "今天") text || contains (utf8 "今日") text then
      Ok (mkQuery (q_query_type result) (q_category result) PDay
                  today (q_end_date result) (q_chart_type result))
    else if contains (utf8 "這週") text || contains (utf8 "本週") text then
      let* td := load_local timedelta_local in
      let* delta := td (weekday today) in
      let* start := date_sub today delta in
      Ok (mkQuery (q_query_type result) (q_category result) PWeek
                  start (q_end_date result) (q_chart_type result))
    else if contains (utf8 "上個月") text || contains (utf8 "上月") text then
      let* first_of_month := replace_day today 1 in
      let* td := load_local timedelta_local in
      let* delta := td 1 in
      let* last_month_end := date_sub first_of_month delta in
      let* start := replace_day last_month_end 1 in
      Ok (mkQuery (q_query_type result) (q_category result) PMonth
                  start last_month_end (q_chart_type result))
    else if contains (utf8 "這個月") text || contains (utf8 "本月") text then
      let* start := replace_day today 1 in
      Ok (mkQuery (q_query_type result) (q_category result) PMonth
                  start (q_end_date result) (q_chart_type result))
    else if contains (utf8 "今年") text then
      let* start := replace_month_day today 1 1 in
      Ok (mkQuery (q_query_type result) (q_category result) PYear
                  start (q_end_date result) (q_chart_type result))
    else Ok result in
  (* N months *)
  let* result :=
    match re_search RE_MONTHS text with
    | Some m =>
      let timedelta_local := Some timedelta in   (* from datetime import timedelta *)
      let months := _parse_chinese_number (group_text m 1) in
      let* start := replace_day today 1 in
      let* td := load_local timedelta_local in
      let* start := months_back (Z.to_nat (months - 1)) td start in
      Ok (mkQuery (q_query_type result) (q_category result) (q_period result)
                  start (q_end_date result) (q_chart_type result))
    | None => Ok result
    end in
  (* the category *)
  let result :=
    match first_category_in text with
    | Some category =>
      mkQuery QCategory (Some category) (q_period result)
              (q_start_date result) (q_end_date result) (q_chart_type result)
    | None => result
    end in
  (* the chart *)
  let chart :=
    if contains (utf8 "圓餅圖") text || contains (utf8 "比例") text then Some ChartPie
    else if contains (utf8 "折線圖") text || contains (utf8 "趨勢") text then Some ChartLine
    else if contains (utf8 "長條圖") text || contains (utf8 "柱狀圖") text then Some ChartBar
    else q_chart_type result in
  (* the kind of query *)
  let kind :=
    if contains (utf8 "趨勢") text || contains (utf8 "變化") text then QTrend
    else if contains (utf8 "比較") text || contains (utf8 "對比") text then QCompare
    else q_query_type result in
  Ok (mkQuery kind (q_category result) (q_period result)
              (q_start_date result) (q_end_date result) chart).

End NLPParser.

(* ================================================================== *)
(** ** [backend/routers/chat.py] *)

(** The intents ["record"], ["query"] and ["analysis"]. *)
Inductive intent : Type := IntentRecord | IntentQuery | IntentAnalysis.

Definition query_keywords : list str :=
  map utf8 [ "花了多少"; "多少錢"; "查詢"; "統計"; "報告"; "報表"; "趨勢"; "分析圖" ]%string.

Definition analysis_keywords : list str :=
  map utf8 [ "是不是"; "應該"; "建議"; "幫我"; "為什麼"; "怎麼"; "如何" ]%string.

(** [for kw in keywords: if kw in text: return ...] *)
Definition any_keyword_in (keywords : list str) (text : str) : bool :=
  existsb (fun kw => contains kw text) keywords.

Definition _detect_intent (text : str) : intent :=
  if any_keyword_in query_keywords text then IntentQuery
  else if any_keyword_in analysis_keywords text then IntentAnalysis
  else
    match re_search digits text with       (* re.search(r'\d+', text) *)
    | Some _ => IntentRecord
    | None => IntentAnalysis
    end.

(* ================================================================== *)
(** ** [backend/models/database.py] *)

Module Database.

(** The rows (name, icon, type) that [_init_default_categories] adds to
    an empty table. *)
Definition expense_categories : list (str * str * txn_type) :=
  [ (utf8 "餐飲", utf8 "🍔", Expense);
    (utf8 "交通", utf8 "🚗", Expense);
    (utf8 "娛樂", utf8 "🎮", Expense);
    (utf8 "購物", utf8 "🛒", Expense);
    (utf8 "醫療", utf8 "💊", Expense);
    (utf8 "居住", utf8 "🏠", Expense);
    (utf8 "教育", utf8 "📚", Expense);
    (utf8 "其他", utf8 "📦", Expense) ].

Definition income_categories : list (str * str * txn_type) :=
  [ (utf8 "薪資", utf8 "💰", Income);
    (utf8 "投資", utf8 "📈", Income);
    (utf8 "其他收入", utf8 "💵", Income) ].

Definition default_categories : list (str * str * txn_type) :=
  expense_categories ++ income_categories.

End Database.

(* ================================================================== *)
(** ** [backend/routers/analytics.py] and [backend/routers/import_export.py]

    The date arithmetic of the routes; the database queries and the
    responses are not modelled. *)

(** [d.replace(month=m)] and [d.replace(year=y, month=m)]. *)
Definition replace_month (d : date) (m : Z) : result date :=
  let* m := c_int m in
  date_new (year d) m (day d).
Definition replace_year_month (d : date) (y m : Z) : result date :=
  let* y := c_int y in
  let* m := c_int m in
  date_new y m (day d).

Module Analytics.

(** [get_summary]: the first day [start] of the period; the route accepts
    the periods day, week, month and year only. *)
Definition get_summary_start (period : period_type) (today : date) : result date :=
  match period with
  | PDay => Ok today
  | PWeek => minus_days today (weekday today)
  | PMonth => replace_day today 1
  | PYear => replace_month_day today 1 1
  end.

(** [get_trend]: the first day [start] of the first month of the trend. *)
Definition get_trend_start (months : Z) (today : date) : result date :=
  let* start := replace_day today 1 in
  NLPParser.months_back (Z.to_nat (months - 1)) timedelta start.

(** [get_trend]: the loop [while current <= today], which adds one row for
    the month of [current] and moves to the first day of the next month.
    The rows are given by their dates; [None] when the [fuel] is used up
    before the loop ends. *)
Fixpoint get_trend_rows (fuel : nat) (current today : date) : option (result (list date)) :=
  match fuel with
  | O => None
  | S fuel' =>
    if date_leb current today then
      match (if month current <? 12
             then replace_month current (month current + 1)
             else replace_year_month current (year current + 1) 1) with
      | Ok next =>
        match get_trend_rows fuel' next today with
        | Some (Ok rows) => Some (Ok (current :: rows))
        | other => other
        end
      | Raise e => Some (Raise e)
      end
    else Some (Ok [])
  end.

End Analytics.

Module ImportExport.

(** [export_pdf]: the dates [start_date] and [end_date] between which the
    transactions of the report are taken
    ([start_date <= date < end_date]). *)
Definition export_pdf_period (year month : Z) : result (date * date) :=
  let* start_date := date_of_ints year month 1 in
  let* end_date :=
    if month =? 12 then date_of_ints (year + 1) 1 1
    else date_of_ints year (month + 1) 1 in
  Ok (start_date, end_date).

End ImportExport.

(* ================================================================== *)
(** ** Auxiliary definitions for the properties *)

(** Every integer of [lo, lo + n) passes the test [f]. *)
Fixpoint forall_range (n : positive) (lo : Z) (f : Z -> bool) : bool :=
  match n with
  | xH => f lo
  | xO n' => forall_range n' lo f && forall_range n' (lo + Zpos n') f
  | xI n' => f lo && forall_range n' (lo + 1) f && forall_range n' (lo + 1 + Zpos n') f
  end.

(** The month and day that [fromordinal] computes from the day [n] of a
    year (from 0) are right: the test of one case. *)
Definition month_day_check (leap : bool) (n : Z) : bool :=
  let m := (n + 50) / 32 in
  let preceding := DAYS_BEFORE_MONTH m + (if (2 <? m) && leap then 1 else 0) in
  let d :=
    if n <? preceding
    then
      let m' := m - 1 in
      let preceding' :=
        preceding - (if (m' =? 2) && leap then 29 else days_in_month 1 m') in
      mkdate 0 m' (n - preceding' + 1)
    else mkdate 0 m (n - preceding + 1) in
  (1 <=? month d) && (month d <=? 12) && (1 <=? day d) &&
  (day d <=? (if (month d =? 2) && leap then 29 else days_in_month 1 (month d))) &&
  (DAYS_BEFORE_MONTH (month d) + (if (2 <? month d) && leap then 1 else 0) + day d
     =? n + 1).

(** [a < b] on dates: the order of (year, month, day). *)
Definition date_lt (a b : date) : Prop :=
  year a < year b \/
  (year a = year b /\ (month a < month b \/ (month a = month b /\ day a < day b))).

(** [str(n)] for a natural number: its decimal digits. *)
Fixpoint decimal_aux (fuel : nat) (n : Z) (acc : str) : str :=
  match fuel with
  | O => acc
  | S f =>
    let acc' := (48 + n mod 10) :: acc in
    if n <? 10 then acc' else decimal_aux f (n / 10) acc'
  end.

Definition arabic_numeral (n : Z) : str := decimal_aux (S (Z.to_nat n)) n [].

(** The usual Chinese numeral of a number from 1 to 99: 七, 十, 十一, 二十,
    三十一. *)
Definition chinese_digit (d : Z) : char :=
  nth (Z.to_nat d) (utf8 "零一二三四五六七八九") 0.

Definition chinese_numeral (n : Z) : str :=
  if n <? 10 then [chinese_digit n]
  else
    (if n / 10 =? 1 then [] else [chinese_digit (n / 10)]) ++ utf8 "十" ++
    (if n mod 10 =? 0 then [] else [chinese_digit (n mod 10)]).

(** None of the literal markers of the first rule of [DateParser.parse]
    (今天, 昨天, 前天, ...) occurs. *)
Definition no_literal_marker (text : str) : bool :=
  negb (contains (utf8 "今天") text || contains (utf8 "今日") text) &&
  negb (contains (utf8 "昨天") text || contains (utf8 "昨日") text) &&
  negb (contains (utf8 "前天") text) &&
  negb (contains (utf8 "大前天") text) &&
  negb (contains (utf8 "明天") text || contains (utf8 "明日") text).

(** The text is decided by the "N天前" rule, with [n] days. *)
Definition days_ago_rule (text : str) (n : Z) : bool :=
  no_literal_marker (strip text) &&
  match re_search DateParser.RE_DAYS_AGO (strip text) with
  | Some m => DateParser._parse_chinese_number (group_text m 1) =? n
  | None => false
  end.

(** The text is decided by the "N號" rule of the current month, with day [n]. *)
Definition this_month_rule (text : str) (n : Z) : bool :=
  no_literal_marker (strip text) &&
  match re_search DateParser.RE_DAYS_AGO (strip text),
        re_search DateParser.RE_WEEKDAY (strip text),
        re_search DateParser.RE_LAST_MONTH (strip text),
        re_search DateParser.RE_THIS_MONTH (strip text) with
  | None, None, None, Some m => int_of_digits (group_text m 2) =? n
  | _, _, _, _ => false
  end.

(** All the ways of cutting a string into non-empty consecutive words. *)
Fixpoint segmentations (t : str) : list (list str) :=
  match t with
  | [] => [[]]
  | c :: t' =>
    flat_map (fun ws =>
      match ws with
      | [] => [[[c]]]
      | w :: ws' => [[c] :: ws; (c :: w) :: ws']
      end) (segmentations t')
  end.

(** A segmenter cuts [text] into non-empty consecutive words, as
    [jieba.cut] does. *)
Definition segments (cut : str -> list str) (text : str) : Prop :=
  concat (cut text) = text /\ Forall (fun w => w <> []) (cut text).

(** A segmenter given by a table of texts and their words; a text outside
    the table is cut into single characters. *)
Definition table_cut (table : list (str * list str)) (text : str) : list str :=
  match dict_get table text with
  | Some ws => ws
  | None => map (fun c => [c]) text
  end.

(** The text contains one of the keywords. *)
Definition mentions (keywords : list str) (text : str) : Prop :=
  exists kw, In kw keywords /\ contains kw text = true.

(** The text contains a digit: a character that [\d] matches. *)
Definition has_digit (text : str) : Prop :=
  exists c, In c text /\ is_digit c = true.

(** No rule of [DateParser.parse] applies to the text. *)
Definition no_date_rule (text : str) : bool :=
  no_literal_marker (strip text) &&
  match re_search DateParser.RE_DAYS_AGO (strip text),
        re_search DateParser.RE_WEEKDAY (strip text),
        re_search DateParser.RE_LAST_MONTH (strip text),
        re_search DateParser.RE_THIS_MONTH (strip text),
        re_search DateParser.RE_MONTH_DAY (strip text),
        re_search DateParser.RE_FULL_DATE (strip text) with
  | None, None, None, None, None, None => true
  | _, _, _, _, _, _ => false
  end.

(** The words make [category] the best category. *)
Definition best_category_is (category : str) (words : list str) : bool :=
  match NLPParser.best_category words with
  | Some c => str_eqb c category
  | None => false
  end.

(** The words of two texts as [jieba] cuts them, for the examples. *)
Definition EXAMPLE_WORDS : list (str * list str) :=
  [ (utf8 "午餐 120 元", map utf8 [ "午餐"; " "; "120"; " "; "元" ]%string);
    (utf8 "没收入场券 500元", map utf8 [ "没收"; "入场券"; " "; "500"; "元" ]%string) ].

(** The shape of the Chinese-amount pattern: [([class]+)\s*[units]]. *)
Definition run_before_unit (p q : char -> bool) : regex :=
  Cat (Grp 1 (Cat (Cls p) (Star p))) (Cat (Star is_space) (Cls q)).

(** The text is decided by the "上個月N號" rule, with day [n]. *)
Definition last_month_rule (text : str) (n : Z) : bool :=
  no_literal_marker (strip text) &&
  match re_search DateParser.RE_DAYS_AGO (strip text),
        re_search DateParser.RE_WEEKDAY (strip text),
        re_search DateParser.RE_LAST_MONTH (strip text) with
  | None, None, Some m => int_of_digits (group_text m 1) =? n
  | _, _, _ => false
  end.

(** The last day of the month before the month of [d]. *)
Definition previous_month_end (d : date) : date :=
  let y := if month d =? 1 then year d - 1 else year d in
  let m := if month d =? 1 then 12 else month d - 1 in
  mkdate y m (days_in_month y m).

(** No character of the text is in the class. *)
Definition lacks (p : char -> bool) (s : str) : Prop :=
  forall c, In c s -> p c = false.

(** Every match of the pattern consumes a character of the class [p]. *)
Fixpoint needs (p : char -> bool) (r : regex) : Prop :=
  match r with
  | Cls q => forall c, q c = true -> p c = true
  | Cat r1 r2 => needs p r1 \/ needs p r2
  | Alt r1 r2 => needs p r1 /\ needs p r2
  | Grp _ r1 => needs p r1
  | Rep lo _ q => (1 <= lo)%nat /\ forall c, q c = true -> p c = true
  | Eps | Opt _ | Star _ | Eos => False
  end.

(** The call raises no exception other than [OverflowError]. *)
Definition raises_only_overflow {A : Type} (m : result A) : Prop :=
  forall e, m = Raise e -> e = OverflowError.

(** The text sends [parse_query] into one of the two branches that read
    [timedelta]: it names this week or last month, and not today. *)
Definition reads_timedelta (text : str) : bool :=
  negb (contains (utf8 "今天") text || contains (utf8 "今日") text) &&
  ((contains (utf8 "這週") text || contains (utf8 "本週") text) ||
   (contains (utf8 "上個月") text || contains (utf8 "上月") text)).

(** Months counted from year 0: the index of the month of a date, and the
    first day of the month with a given index. *)
Definition month_index (d : date) : Z := year d * 12 + (month d - 1).
Definition month_start (i : Z) : date := mkdate (i / 12) (i mod 12 + 1) 1.

(** The text is a plain "N months" query for [parse_query]: no period
    keyword, no category name, no chart or kind keyword, and the "N個月"
    pattern reads [n] months. *)
Definition months_rule (text : str) (n : Z) : bool :=
  negb (contains (utf8 "今天") text || contains (utf8 "今日") text) &&
  negb (contains (utf8 "這週") text || contains (utf8 "本週") text) &&
  negb (contains (utf8 "上個月") text || contains (utf8 "上月") text) &&
  negb (contains (utf8 "這個月") text || contains (utf8 "本月") text) &&
  negb (contains (utf8 "今年") text) &&
  match NLPParser.first_category_in text with None => true | Some _ => false end &&
  negb (contains (utf8 "圓餅圖") text || contains (utf8 "比例") text) &&
  negb (contains (utf8 "折線圖") text || contains (utf8 "趨勢") text) &&
  negb (contains (utf8 "長條圖") text || contains (utf8 "柱狀圖") text) &&
  negb (contains (utf8 "趨勢") text || contains (utf8 "變化") text) &&
  negb (contains (utf8 "比較") text || contains (utf8 "對比") text) &&
  match re_search NLPParser.RE_MONTHS text with
  | Some m => NLPParser._parse_chinese_number (group_text m 1) =? n
  | None => false
  end.

(** The number of months that "近N個月" stands for when N is written as a
    Chinese numeral: a numeral of one character is read, a longer one
    counts as 3. *)
Definition months_of_chinese (n : Z) : Z := if n <=? 10 then n else 3.

(** The text is decided by the weekday rule, with week offset [off] and
    weekday [target]. *)
Definition weekday_rule (text : str) (off target : Z) : bool :=
  no_literal_marker (strip text) &&
  match re_search DateParser.RE_DAYS_AGO (strip text),
        re_search DateParser.RE_WEEKDAY (strip text) with
  | None, Some m =>
    match dict_get DateParser.WEEK_OFFSET (group_text m 1),
          dict_get DateParser.WEEKDAY_MAP (group_text m 2) with
    | Some o, Some t => (o =? off) && (t =? target)
    | _, _ => false
    end
  | _, _ => false
  end.

(** The dates of the first days of the [n] months from month index [i]
    on. *)
Definition month_starts (i : Z) (n : nat) : list date :=
  map (fun k => month_start (i + Z.of_nat k)) (seq 0 n).

(** The score of every category, in the order of [CATEGORY_KEYWORDS]. *)
Definition all_scores (words : list str) : list (str * Z) :=
  map (fun e => (fst e, NLPParser.category_score words (snd e)))
      NLPParser.CATEGORY_KEYWORDS.

(** The names, and the names with their types, of the default categories. *)
Definition catalog_names : list str :=
  map (fun e => fst (fst e)) Database.default_categories.
Definition catalog_kinds : list (str * txn_type) :=
  map (fun e => (fst (fst e), snd e)) Database.default_categories.

(** The characters of the date words that the rules of [DateParser.parse]
    before the "N日" rule look for, and the two units of that rule. *)
Definition DATE_WORD_CHARS : str := utf8 "今昨明天週上這".
Definition DAY_UNITS : str := utf8 "號日".

(** The last character of the text, if any, is no digit. *)
Fixpoint ends_nondigit (s : str) : bool :=
  match s with
  | [] => true
  | [c] => negb (is_digit c)
  | _ :: s' => ends_nondigit s'
  end.

(** A prefix that leaves "N日" to the "N日" rule: it holds no character of
    a date word and no day unit, begins with no white space and ends with
    no digit. *)
Definition plain_prefix (pre : str) : bool :=
  forallb (fun c => negb (in_class (DATE_WORD_CHARS ++ DAY_UNITS) c)) pre &&
  match pre with c :: _ => negb (is_space c) | [] => true end &&
  ends_nondigit pre.

(** The text is decided by the "M/D" rule, with month [mo] and day [d],
    and is no full date. *)
Definition month_day_rule (text : str) (mo d : Z) : bool :=
  no_literal_marker (strip text) &&
  match re_search DateParser.RE_DAYS_AGO (strip text),
        re_search DateParser.RE_WEEKDAY (strip text),
        re_search DateParser.RE_LAST_MONTH (strip text),
        re_search DateParser.RE_THIS_MONTH (strip text),
        re_search DateParser.RE_MONTH_DAY (strip text),
        re_search DateParser.RE_FULL_DATE (strip text) with
  | None, None, None, None, Some m, None =>
    (int_of_digits (group_text m 1) =? mo) && (int_of_digits (group_text m 2) =? d)
  | _, _, _, _, _, _ => false
  end.

(** A word: a non-empty string without white space. *)
Definition is_word (w : str) : Prop := w <> [] /\ lacks is_space w.

(** No captured group is longer than [n] characters. *)
Definition caps_bounded (n : nat) (g : captures) : Prop :=
  Forall (fun e => (length (snd e) <= n)%nat) g.

(** A character that some rule of [DateParser.parse] needs: a digit, or a
    character of 今, 昨, 明, 天, 週. *)
Definition date_char (c : char) : bool :=
  is_digit c || in_class (utf8 "今昨明天週") c.

(** A unit of the class [q] follows, after optional white space. *)
Definition unit_follows (q : char -> bool) (s : str) : bool :=
  match lstrip s with
  | u :: _ => q u
  | [] => false
  end.

(** The first contiguous run of characters of the class [p] that a unit
    of the class [q] follows, after optional white space; [cur] is the
    run being read, latest character first. *)
Fixpoint first_run_before_unit_aux (p q : char -> bool) (cur s : str) : option str :=
  match s with
  | [] => None
  | c :: s' =>
    if p c then first_run_before_unit_aux p q (c :: cur) s'
    else
      match cur with
      | [] => first_run_before_unit_aux p q [] s'
      | _ :: _ =>
        if unit_follows q s then Some (rev cur)
        else first_run_before_unit_aux p q [] s'
      end
  end.

(** In the words of C5: the first contiguous run of Chinese numeral
    characters of the text that is followed, after optional white space,
    by a currency unit (元, 塊 or 錢), if there is one. *)
Definition first_numeral_run_before_unit (text : str) : option str :=
  first_run_before_unit_aux
    (in_class NLPParser.CHINESE_DIGITS) (in_class NLPParser.CURRENCY) [] text.

(* ================================================================== *)
(** * Properties *)

(** ** The calendar *)

Lemma forall_range_spec (n : positive) :
  forall lo f, forall_range n lo f = true ->
  forall x, lo <= x < lo + Zpos n -> f x = true.
Proof.
  induction n as [n IH | n IH | ]; intros lo f H x Hx; cbn [forall_range] in H.
  - apply andb_true_iff in H as [H H2]. apply andb_true_iff in H as [H0 H1].
    destruct (Z.eq_dec x lo) as [-> | Hne]; [exact H0 |].
    destruct (Z_lt_ge_dec x (lo + 1 + Zpos n)).
    + apply (IH _ _ H1). lia.
    + apply (IH _ _ H2). lia.
  - apply andb_true_iff in H as [H1 H2].
    destruct (Z_lt_ge_dec x (lo + Zpos n)).
    + apply (IH _ _ H1). lia.
    + apply (IH _ _ H2). lia.
  - assert (x = lo) by lia. subst. exact H.
Qed.

Lemma valid_date_iff (d : date) :
  valid_date d = true <->
  1 <= year d <= 9999 /\ 1 <= month d <= 12 /\
  1 <= day d <= days_in_month (year d) (month d).
Proof.
  unfold valid_date, MINYEAR, MAXYEAR.
  rewrite !andb_true_iff, !Z.leb_le. tauto.
Qed.

Lemma days_in_month_bounds (y m : Z) : 28 <= days_in_month y m <= 31.
Proof.
  unfold days_in_month.
  destruct (m =? 2); [destruct (is_leap y); lia |].
  destruct ((m =? 4) || (m =? 6) || (m =? 9) || (m =? 11)); lia.
Qed.

Lemma days_in_month_leap (y m : Z) :
  days_in_month y m = if (m =? 2) && is_leap y then 29 else days_in_month 1 m.
Proof.
  unfold days_in_month. destruct (m =? 2); cbn [andb]; [| reflexivity].
  destruct (is_leap y); reflexivity.
Qed.

Lemma days_before_year_succ (y : Z) :
  days_before_year (y + 1) = days_before_year y + 365 + (if is_leap y then 1 else 0).
Proof.
  unfold days_before_year, is_leap.
  destruct (y mod 4 =? 0) eqn:E4; destruct (y mod 100 =? 0) eqn:E100;
    destruct (y mod 400 =? 0) eqn:E400; cbn [andb orb negb];
    rewrite ?Z.eqb_eq, ?Z.eqb_neq in *; Z.div_mod_to_equations; lia.
Qed.

Lemma days_before_year_mono (y1 y2 : Z) :
  y1 <= y2 -> days_before_year y1 <= days_before_year y2.
Proof. unfold days_before_year. intros. Z.div_mod_to_equations. lia. Qed.

Lemma month_cases (m : Z) :
  1 <= m <= 12 ->
  m = 1 \/ m = 2 \/ m = 3 \/ m = 4 \/ m = 5 \/ m = 6 \/
  m = 7 \/ m = 8 \/ m = 9 \/ m = 10 \/ m = 11 \/ m = 12.
Proof. lia. Qed.

Ltac each_month H :=
  apply month_cases in H;
  repeat (destruct H as [H | H]); subst.

(** The days of the months before [m] and of [m] itself lie within the
    year, and end where the next month begins. *)
Lemma days_before_month_next (y m : Z) :
  1 <= m <= 12 ->
  0 <= days_before_month y m /\
  days_before_month y m + days_in_month y m = days_before_month y (m + 1).
Proof.
  intros H. unfold days_before_month, days_in_month.
  each_month H; destruct (is_leap y); cbn; lia.
Qed.

Lemma days_before_month_13 (y : Z) :
  days_before_month y 13 = 365 + (if is_leap y then 1 else 0).
Proof. unfold days_before_month. destruct (is_leap y); reflexivity. Qed.

Lemma days_before_month_mono (y m1 m2 : Z) :
  1 <= m1 -> m1 <= m2 -> m2 <= 13 ->
  days_before_month y m1 <= days_before_month y m2.
Proof.
  intros H1 H2 H3. unfold days_before_month.
  assert (A : 1 <= m1 <= 12 \/ m1 = 13) by lia.
  assert (B : 1 <= m2 <= 12 \/ m2 = 13) by lia.
  destruct A as [A | ->]; [each_month A |];
    (destruct B as [B | ->]; [each_month B |]);
    try lia; destruct (is_leap y); cbn; lia.
Qed.

Lemma month_day_check_all (leap : bool) (n : Z) :
  0 <= n <= 364 -> month_day_check leap n = true.
Proof.
  intros H.
  assert (A : forall_range 365 0 (month_day_check true) &&
              forall_range 365 0 (month_day_check false) = true)
    by (vm_compute; reflexivity).
  apply andb_true_iff in A as [A1 A2].
  destruct leap;
    [apply (forall_range_spec _ _ _ A1) | apply (forall_range_spec _ _ _ A2)]; lia.
Qed.

(** [fromordinal] yields a date of the calendar, and [toordinal] takes it
    back to the ordinal. *)
Lemma fromordinal_spec (n : Z) :
  1 <= n <= MAXORDINAL ->
  valid_date (fromordinal n) = true /\ toordinal (fromordinal n) = n.
Proof.
  intros Hn. unfold MAXORDINAL in Hn. unfold fromordinal.
  set (n0 := n - 1).
  set (n400 := n0 / 146097). set (r400 := n0 mod 146097).
  set (n100 := r400 / 36524). set (r100 := r400 mod 36524).
  set (n4 := r100 / 1461). set (r4 := r100 mod 1461).
  set (n1 := r4 / 365). set (r1 := r4 mod 365).
  set (y := n400 * 400 + 1 + n100 * 100 + n4 * 4 + n1).
  cbv zeta.
  destruct ((n1 =? 4) || (n100 =? 4)) eqn:Ex.
  - (* the last day of a leap year *)
    apply orb_true_iff in Ex. rewrite !Z.eqb_eq in Ex.
    assert (L : is_leap (y - 1) = true).
    { unfold is_leap.
      apply andb_true_iff. rewrite orb_true_iff, negb_true_iff, Z.eqb_neq, !Z.eqb_eq.
      subst y n1 r1 n4 r4 n100 r100 n400 r400 n0.
      Z.div_mod_to_equations. lia. }
    assert (D : days_before_year (y - 1) + 366 = n).
    { subst y n1 r1 n4 r4 n100 r100 n400 r400 n0. unfold days_before_year.
      Z.div_mod_to_equations. lia. }
    assert (Y : 1 <= y - 1 <= 9999).
    { subst y n1 r1 n4 r4 n100 r100 n400 r400 n0.
      Z.div_mod_to_equations. lia. }
    split.
    + apply valid_date_iff. cbn [year month day].
      unfold days_in_month. cbn. lia.
    + unfold toordinal, ymd2ord, days_before_month. cbn [year month day].
      rewrite L. cbn. lia.
  - apply orb_false_iff in Ex as [E1 E2]. rewrite Z.eqb_neq in E1, E2.
    assert (L : (n1 =? 3) && (negb (n4 =? 24) || (n100 =? 3)) = is_leap y).
    { unfold is_leap.
      destruct (n1 =? 3) eqn:A1; destruct (n4 =? 24) eqn:A2;
        destruct (n100 =? 3) eqn:A3; destruct (y mod 4 =? 0) eqn:B1;
        destruct (y mod 100 =? 0) eqn:B2; destruct (y mod 400 =? 0) eqn:B3;
        cbn [andb orb negb]; try reflexivity; exfalso;
        rewrite ?Z.eqb_eq, ?Z.eqb_neq in *;
        subst y n1 r1 n4 r4 n100 r100 n400 r400 n0;
        Z.div_mod_to_equations; lia. }
    rewrite L.
    assert (D : days_before_year y + r1 + 1 = n).
    { subst y n1 r1 n4 r4 n100 r100 n400 r400 n0. unfold days_before_year.
      Z.div_mod_to_equations. lia. }
    assert (Y : 1 <= y <= 9999).
    { subst y n1 r1 n4 r4 n100 r100 n400 r400 n0.
      Z.div_mod_to_equations. lia. }
    assert (R : 0 <= r1 <= 364) by (subst r1; Z.div_mod_to_equations; lia).
    pose proof (month_day_check_all (is_leap y) r1 R) as C.
    unfold month_day_check in C. cbv zeta in C.
    clearbody r1 y. clear - C D Y.
    set (m := (r1 + 50) / 32) in *.
    set (preceding := DAYS_BEFORE_MONTH m + (if (2 <? m) && is_leap y then 1 else 0)) in *.
    destruct (r1 <? preceding);
      cbn [year month day] in C;
      rewrite valid_date_iff;
      unfold toordinal, ymd2ord, days_before_month; cbn [year month day];
      rewrite (days_in_month_leap y);
      repeat (apply andb_true_iff in C as [C ?]);
      rewrite !Z.leb_le in *; rewrite Z.eqb_eq in *; lia.
Qed.

Lemma toordinal_bounds (d : date) :
  valid_date d = true ->
  days_before_year (year d) < toordinal d <= days_before_year (year d + 1).
Proof.
  intros V. apply valid_date_iff in V as (Y & M & D).
  unfold toordinal, ymd2ord.
  destruct (days_before_month_next (year d) (month d) M) as [B0 B1].
  pose proof (days_before_month_mono (year d) (month d + 1) 13) as B2.
  rewrite days_before_month_13 in B2.
  rewrite days_before_year_succ. lia.
Qed.

(** Every date of the calendar has an ordinal from 1 to [MAXORDINAL]. *)
Lemma toordinal_range (d : date) :
  valid_date d = true -> 1 <= toordinal d <= MAXORDINAL.
Proof.
  intros V. pose proof (toordinal_bounds d V) as B.
  apply valid_date_iff in V as (Y & _).
  pose proof (days_before_year_mono 1 (year d)) as L.
  pose proof (days_before_year_mono (year d + 1) 10000) as U.
  change (days_before_year 1) with 0 in L.
  change (days_before_year 10000) with 3652059 in U.
  unfold MAXORDINAL. lia.
Qed.

(** [toordinal] is strictly increasing in the order of the dates. *)
Lemma toordinal_lt (a b : date) :
  valid_date a = true -> valid_date b = true ->
  date_lt a b -> toordinal a < toordinal b.
Proof.
  intros Va Vb [Hy | [Hy [Hm | [Hm Hd]]]].
  - pose proof (toordinal_bounds a Va). pose proof (toordinal_bounds b Vb).
    pose proof (days_before_year_mono (year a + 1) (year b)). lia.
  - apply valid_date_iff in Va as (Ya & Ma & Da).
    apply valid_date_iff in Vb as (Yb & Mb & Db).
    unfold toordinal, ymd2ord. rewrite Hy in *.
    destruct (days_before_month_next (year b) (month a) Ma) as [_ B1].
    pose proof (days_before_month_mono (year b) (month a + 1) (month b)). lia.
  - unfold toordinal, ymd2ord. rewrite Hy, Hm. lia.
Qed.

Lemma date_leb_or_lt (a b : date) : date_leb a b = true \/ date_lt b a.
Proof.
  unfold date_leb, date_lt.
  destruct (Z.ltb_spec (year a) (year b)); [now left |].
  destruct (Z.eqb_spec (year a) (year b)); [| right; lia].
  destruct (Z.ltb_spec (month a) (month b)); [now left |].
  destruct (Z.eqb_spec (month a) (month b)); [| right; lia].
  destruct (Z.leb_spec (day a) (day b)); [now left | right; lia].
Qed.

(** The order of the dates is the order of their ordinals. *)
Lemma date_leb_of_ordinals (a b : date) :
  valid_date a = true -> valid_date b = true ->
  toordinal a <= toordinal b -> date_leb a b = true.
Proof.
  intros Va Vb H. destruct (date_leb_or_lt a b) as [L | L]; [exact L |].
  pose proof (toordinal_lt b a Vb Va L). lia.
Qed.

Lemma date_leb_refl (a : date) : date_leb a a = true.
Proof.
  unfold date_leb. rewrite !Z.eqb_refl, Z.leb_refl.
  cbn. now rewrite !orb_true_r.
Qed.

Lemma date_leb_trans (a b c : date) :
  date_leb a b = true -> date_leb b c = true -> date_leb a c = true.
Proof.
  unfold date_leb.
  rewrite !orb_true_iff, !andb_true_iff, !orb_true_iff, !andb_true_iff,
    !Z.ltb_lt, !Z.eqb_eq, !Z.leb_le. lia.
Qed.

(** [fromordinal] is the inverse of [toordinal] on the calendar. *)
Lemma fromordinal_toordinal (d : date) :
  valid_date d = true -> fromordinal (toordinal d) = d.
Proof.
  intros V.
  destruct (fromordinal_spec (toordinal d) (toordinal_range d V)) as [V' O].
  set (d' := fromordinal (toordinal d)) in *.
  assert (L1 : ~ date_lt d d')
    by (intros L; pose proof (toordinal_lt d d' V V' L); lia).
  assert (L2 : ~ date_lt d' d)
    by (intros L; pose proof (toordinal_lt d' d V' V L); lia).
  unfold date_lt in L1, L2.
  destruct d as [y m n], d' as [y' m' n']. cbn [year month day] in *.
  f_equal; lia.
Qed.

(** The day before the first of a month is the last day of the month
    before. *)
Lemma toordinal_previous_month_end (d : date) :
  valid_date d = true ->
  (year d = 1 -> month d <> 1) ->
  valid_date (previous_month_end d) = true /\
  toordinal (previous_month_end d) = toordinal (mkdate (year d) (month d) 1) - 1.
Proof.
  intros V H. apply valid_date_iff in V as (Y & M & D).
  unfold previous_month_end. destruct (Z.eqb_spec (month d) 1) as [E | E].
  - split.
    + apply valid_date_iff. cbn [year month day].
      pose proof (days_in_month_bounds (year d - 1) 12). lia.
    + unfold toordinal, ymd2ord. cbn [year month day]. rewrite E.
      pose proof (days_before_year_succ (year d - 1)) as S.
      replace (year d - 1 + 1) with (year d) in S by lia.
      unfold days_before_month, days_in_month. cbn.
      destruct (is_leap (year d - 1)), (is_leap (year d)); lia.
  - split.
    + apply valid_date_iff. cbn [year month day].
      pose proof (days_in_month_bounds (year d) (month d - 1)). lia.
    + unfold toordinal, ymd2ord. cbn [year month day].
      destruct (days_before_month_next (year d) (month d - 1) ltac:(lia)) as [_ B].
      replace (month d - 1 + 1) with (month d) in B by lia.
      lia.
Qed.

(* ================================================================== *)
(** ** The numeral converter *)

(** C1: of the four conversions that the specification lists for
    [toNumber], the code computes two: "五百" is 500 and "一萬" is 10000.
    On "兩千三百" it returns 2000300 and on "三十五" it returns 305: a digit
    that follows a magnitude is appended positionally to the running
    segment ([temp * 10 + num] as soon as [temp >= 10]) instead of being
    added to it. *)
Theorem C1_chinese_to_number_examples :
  NLPParser._chinese_to_number (utf8 "五百") = Ok 500%Q /\
  NLPParser._chinese_to_number (utf8 "一萬") = Ok 10000%Q /\
  NLPParser._chinese_to_number (utf8 "兩千三百") = Ok 2000300%Q /\
  NLPParser._chinese_to_number (utf8 "三十五") = Ok 305%Q.
Proof. repeat split; vm_compute; reflexivity. Qed.

(* ================================================================== *)
(** ** Exceptions *)

(** C3: the parsers are not total.  With 2024-03-15 as the reference date,
    "1000000天前" makes the date resolver, and with it [parse], raise
    [OverflowError] (the date falls before year 1); "近30000個月" makes
    [parse_query] raise [OverflowError] while it walks back month by month;
    and "本週花了多少" makes [parse_query] raise [UnboundLocalError], because
    [timedelta] is read as a local variable before the import that binds
    it. *)
Theorem C3_parsers_raise :
  DateParser.parse (mkdate 2024 3 15) (utf8 "1000000天前") = Raise OverflowError /\
  (forall cut, NLPParser.parse cut (mkdate 2024 3 15) (utf8 "1000000天前")
               = Raise OverflowError) /\
  NLPParser.parse_query (mkdate 2024 3 15) (utf8 "近30000個月") = Raise OverflowError /\
  NLPParser.parse_query (mkdate 2024 3 15) (utf8 "本週花了多少") = Raise UnboundLocalError.
Proof.
  split; [| split; [| split]].
  - vm_compute. reflexivity.
  - intros cut. vm_compute. reflexivity.
  - vm_compute. reflexivity.
  - vm_compute. reflexivity.
Qed.

(** C7: with 2024-03-15 as the reference date, [parse_query] returns
    nothing for "上個月餐飲花多少": the branch of "上個月" reads the local
    variable [timedelta] before the import statement further down has bound
    it, and the call ends in [UnboundLocalError]. *)
Theorem C7_last_month_query_raises :
  NLPParser.parse_query (mkdate 2024 3 15) (utf8 "上個月餐飲花多少")
  = Raise UnboundLocalError.
Proof. vm_compute. reflexivity. Qed.

(* ================================================================== *)
(** ** The date resolver *)

Lemma no_literal_marker_true (t : str) :
  no_literal_marker t = true ->
  contains (utf8 "今天") t || contains (utf8 "今日") t = false /\
  contains (utf8 "昨天") t || contains (utf8 "昨日") t = false /\
  contains (utf8 "前天") t = false /\
  contains (utf8 "大前天") t = false /\
  contains (utf8 "明天") t || contains (utf8 "明日") t = false.
Proof.
  unfold no_literal_marker. rewrite !andb_true_iff, !negb_true_iff. tauto.
Qed.

(** Which rule decides depends on the text alone: the "N天前" rule. *)
Lemma parse_days_ago (today : date) (text : str) (n : Z) :
  days_ago_rule text n = true ->
  DateParser.parse today text = (let* d := minus_days today n in Ok (Some d)).
Proof.
  unfold days_ago_rule. intros H. apply andb_true_iff in H as [M R].
  apply no_literal_marker_true in M as (M1 & M2 & M3 & M4 & M5).
  unfold DateParser.parse. cbv zeta. rewrite M1, M2, M3, M4, M5.
  destruct (re_search DateParser.RE_DAYS_AGO (strip text)) as [m |]; [| discriminate].
  apply Z.eqb_eq in R. rewrite R. reflexivity.
Qed.

(** The "N號" rule of the current month. *)
Lemma parse_this_month (today : date) (text : str) (n : Z) :
  this_month_rule text n = true ->
  DateParser.parse today text =
  (let* d := try_ValueError (replace_day today n) (Ok today) in Ok (Some d)).
Proof.
  unfold this_month_rule. intros H. apply andb_true_iff in H as [M R].
  apply no_literal_marker_true in M as (M1 & M2 & M3 & M4 & M5).
  unfold DateParser.parse. cbv zeta. rewrite M1, M2, M3, M4, M5.
  destruct (re_search DateParser.RE_DAYS_AGO (strip text)); [discriminate |].
  destruct (re_search DateParser.RE_WEEKDAY (strip text)); [discriminate |].
  destruct (re_search DateParser.RE_LAST_MONTH (strip text)); [discriminate |].
  destruct (re_search DateParser.RE_THIS_MONTH (strip text)) as [m |]; [| discriminate].
  apply Z.eqb_eq in R. rewrite R. reflexivity.
Qed.

(** Subtracting [n] days, when the result stays within the calendar. *)
Lemma minus_days_ok (d : date) (n : Z) :
  valid_date d = true -> 0 <= n <= 999999999 -> n < toordinal d ->
  exists d', minus_days d n = Ok d' /\ valid_date d' = true /\
             toordinal d' = toordinal d - n.
Proof.
  intros V Hn Ho. pose proof (toordinal_range d V) as R.
  unfold minus_days, timedelta.
  replace (Z.abs n <=? 999999999) with true by (symmetry; apply Z.leb_le; lia).
  cbn [bind]. unfold date_sub, date_add.
  replace (toordinal d + - n) with (toordinal d - n) by lia.
  replace ((0 <? toordinal d - n) && (toordinal d - n <=? MAXORDINAL)) with true
    by (symmetry; apply andb_true_iff; rewrite Z.ltb_lt, Z.leb_le; lia).
  exists (fromordinal (toordinal d - n)). split; [reflexivity |].
  apply fromordinal_spec. lia.
Qed.

Lemma days_ago_rule_1_31 (n : Z) :
  1 <= n <= 31 ->
  days_ago_rule (arabic_numeral n ++ utf8 "天前") n = true /\
  days_ago_rule (chinese_numeral n ++ utf8 "天前") n = true.
Proof.
  intros H.
  assert (A : forall_range 31 1 (fun k =>
                days_ago_rule (arabic_numeral k ++ utf8 "天前") k &&
                days_ago_rule (chinese_numeral k ++ utf8 "天前") k) = true)
    by (vm_compute; reflexivity).
  apply andb_true_iff. apply (forall_range_spec _ _ _ A). lia.
Qed.

(** For every N from 1 to 31, written in decimal digits or as the usual
    Chinese numeral (一 to 十, 十一, 二十, 三十一), "N天前" resolves to the date
    N days before today: the date of the calendar whose day number is
    today's minus N, whatever month or year boundary lies in between.
    (Today minus N days must exist in the calendar, which starts at
    0001-01-01.) *)
Theorem days_ago_usual_numerals (today : date) (N : Z) (text : str) :
  valid_date today = true ->
  1 <= N <= 31 ->
  N < toordinal today ->
  text = arabic_numeral N ++ utf8 "天前" \/ text = chinese_numeral N ++ utf8 "天前" ->
  exists d, DateParser.parse today text = Ok (Some d) /\
            valid_date d = true /\
            toordinal d = toordinal today - N.
Proof.
  intros V HN Ho Ht.
  destruct (days_ago_rule_1_31 N HN) as [Ra Rc].
  assert (R : days_ago_rule text N = true) by (destruct Ht; subst; assumption).
  destruct (minus_days_ok today N V ltac:(lia) Ho) as (d & E & Vd & Od).
  exists d. rewrite (parse_days_ago today text N R), E. auto.
Qed.

(** "3天前" on January 2nd, 2024 is December 30th, 2023. *)
Lemma days_ago_usual_numerals_witness :
  (exists d, DateParser.parse (mkdate 2024 1 2) (utf8 "3天前") = Ok (Some d) /\
             valid_date d = true /\
             toordinal d = toordinal (mkdate 2024 1 2) - 3) /\
  DateParser.parse (mkdate 2024 1 2) (utf8 "3天前") = Ok (Some (mkdate 2023 12 30)) /\
  DateParser.parse (mkdate 2024 1 2) (utf8 "三天前") = Ok (Some (mkdate 2023 12 30)).
Proof.
  split; [| split; vm_compute; reflexivity].
  apply (days_ago_usual_numerals (mkdate 2024 1 2) 3 (utf8 "3天前")).
  - reflexivity.
  - lia.
  - vm_compute. reflexivity.
  - left. reflexivity.
Defined.

Lemma this_month_rule_29_31 (n : Z) :
  29 <= n <= 31 -> this_month_rule (arabic_numeral n ++ utf8 "號") n = true.
Proof.
  intros H.
  assert (A : forall_range 3 29 (fun k =>
                this_month_rule (arabic_numeral k ++ utf8 "號") k) = true)
    by (vm_compute; reflexivity).
  apply (forall_range_spec _ _ _ A). lia.
Qed.

(** C4, as the code has it: when the day number N (at most 31) exceeds the
    length of today's month, "N號" resolves to today itself, unchanged; no
    exception is raised. *)
Theorem C4_this_month_overflow_is_today (today : date) (N : Z) :
  valid_date today = true ->
  days_in_month (year today) (month today) < N <= 31 ->
  DateParser.parse today (arabic_numeral N ++ utf8 "號") = Ok (Some today).
Proof.
  intros V H.
  pose proof (days_in_month_bounds (year today) (month today)) as B.
  rewrite (parse_this_month today _ N) by (apply this_month_rule_29_31; lia).
  unfold replace_day, c_int.
  replace ((-2147483648 <=? N) && (N <=? 2147483647)) with true
    by (symmetry; apply andb_true_iff; rewrite !Z.leb_le; lia).
  cbn [bind]. unfold date_new, valid_date. cbn [year month day].
  replace (N <=? days_in_month (year today) (month today)) with false
    by (symmetry; apply Z.leb_gt; lia).
  rewrite !andb_false_r. reflexivity.
Qed.

Lemma C4_this_month_overflow_witness :
  DateParser.parse (mkdate 2024 4 10) (utf8 "31號") = Ok (Some (mkdate 2024 4 10)).
Proof.
  apply (C4_this_month_overflow_is_today (mkdate 2024 4 10) 31).
  - reflexivity.
  - vm_compute. split; [reflexivity | discriminate].
Defined.

(** C4, as the specification has it, fails: on 2024-02-15 (a month of 29
    days) "31號" does not resolve to the last day of the month. *)
Lemma C4_this_month_not_clamped :
  days_in_month 2024 2 = 29 /\
  DateParser.parse (mkdate 2024 2 15) (utf8 "31號") = Ok (Some (mkdate 2024 2 15)) /\
  DateParser.parse (mkdate 2024 2 15) (utf8 "31號") <> Ok (Some (mkdate 2024 2 29)).
Proof.
  split; [reflexivity | split; [vm_compute; reflexivity |]].
  vm_compute. discriminate.
Qed.

(* ================================================================== *)
(** ** The query parser *)

Lemma bind_ok {A B : Type} (m : result A) (f : A -> result B) (b : B) :
  bind m f = Ok b -> exists a, m = Ok a /\ f a = Ok b.
Proof. destruct m as [a | e]; cbn; [eauto | discriminate]. Qed.

Lemma replace_day_first (d : date) :
  valid_date d = true ->
  replace_day d 1 = Ok (mkdate (year d) (month d) 1) /\
  valid_date (mkdate (year d) (month d) 1) = true /\
  date_leb (mkdate (year d) (month d) 1) d = true.
Proof.
  intros V. pose proof V as V'. apply valid_date_iff in V' as (Y & M & D).
  pose proof (days_in_month_bounds (year d) (month d)) as B.
  assert (V1 : valid_date (mkdate (year d) (month d) 1) = true)
    by (apply valid_date_iff; cbn [year month day]; lia).
  unfold replace_day, date_new. change (c_int 1) with (Ok (A := Z) 1).
  cbn [bind]. rewrite V1. repeat split.
  unfold date_leb. cbn [year month day].
  rewrite !Z.eqb_refl. replace (1 <=? day d) with true by (symmetry; apply Z.leb_le; lia).
  cbn. now rewrite !orb_true_r.
Qed.

Lemma replace_month_day_first (d : date) :
  valid_date d = true ->
  replace_month_day d 1 1 = Ok (mkdate (year d) 1 1) /\
  date_leb (mkdate (year d) 1 1) d = true.
Proof.
  intros V. pose proof V as V'. apply valid_date_iff in V' as (Y & M & D).
  assert (V1 : valid_date (mkdate (year d) 1 1) = true)
    by (apply valid_date_iff; cbn [year month day]; unfold days_in_month; cbn; lia).
  unfold replace_month_day, date_new. change (c_int 1) with (Ok (A := Z) 1).
  cbn [bind]. rewrite V1. split; [reflexivity |].
  unfold date_leb. cbn [year month day].
  rewrite orb_true_iff, andb_true_iff, orb_true_iff, andb_true_iff,
    !Z.ltb_lt, !Z.eqb_eq, Z.leb_le. lia.
Qed.

(** Walking back by months only moves the start date back. *)
Lemma months_back_le (n : nat) :
  forall d d', valid_date d = true ->
  NLPParser.months_back n timedelta d = Ok d' ->
  valid_date d' = true /\ date_leb d' d = true.
Proof.
  induction n as [| n IH]; intros d d' V H; cbn [NLPParser.months_back] in H.
  - injection H as <-. split; [exact V | apply date_leb_refl].
  - change (timedelta 1) with (Ok (A := Z) 1) in H. cbn [bind] in H.
    apply bind_ok in H as (x & Hx & H).
    apply bind_ok in H as (x1 & Hx1 & H).
    unfold date_sub, date_add in Hx. change (- (1)) with (-1) in Hx.
    destruct ((0 <? toordinal d + -1) && (toordinal d + -1 <=? MAXORDINAL)) eqn:R;
      [| discriminate].
    injection Hx as Hx. subst x.
    apply andb_true_iff in R as [R1 R2]. apply Z.ltb_lt in R1. apply Z.leb_le in R2.
    destruct (fromordinal_spec (toordinal d + -1) ltac:(lia)) as [Vx Ox].
    destruct (replace_day_first _ Vx) as (E & V1 & L1).
    rewrite E in Hx1. injection Hx1 as <-.
    destruct (IH _ _ V1 H) as [V' L'].
    split; [exact V' |].
    apply (date_leb_trans _ _ _ L'). apply (date_leb_trans _ _ _ L1).
    apply date_leb_of_ordinals; [exact Vx | exact V | lia].
Qed.

(** C9: whenever [parse_query] returns a query (for a reference date of
    the calendar), its start date is not after its end date. *)
Theorem C9_start_date_le_end_date (today : date) (text : str) (q : ParsedQuery) :
  valid_date today = true ->
  NLPParser.parse_query today text = Ok q ->
  date_leb (q_start_date q) (q_end_date q) = true.
Proof.
  intros V H. unfold NLPParser.parse_query in H. cbv zeta in H.
  destruct (replace_day_first today V) as (E1 & V1 & L1).
  destruct (replace_month_day_first today V) as (E2 & L2).
  rewrite E1, E2 in H. cbn [bind load_local] in H.
  apply bind_ok in H as (r1 & H1 & H).
  apply bind_ok in H as (r2 & H2 & H).
  injection H as <-. cbn [q_start_date q_end_date].
  assert (I1 : q_end_date r1 = today /\ date_leb (q_start_date r1) today = true).
  { repeat match type of H1 with
           | (if ?c then _ else _) = _ => destruct c
           end;
      try discriminate; injection H1 as <-; cbn [q_start_date q_end_date];
      auto using date_leb_refl. }
  destruct I1 as [I1e I1s].
  assert (I2 : q_end_date r2 = today /\ date_leb (q_start_date r2) today = true).
  { destruct (re_search NLPParser.RE_MONTHS text) as [m |].
    - apply bind_ok in H2 as (s & Hs & H2). injection H2 as <-.
      cbn [q_start_date q_end_date]. split; [exact I1e |].
      destruct (months_back_le _ _ _ V1 Hs) as [_ Ls].
      apply (date_leb_trans _ _ _ Ls L1).
    - injection H2 as <-. auto. }
  destruct I2 as [I2e I2s].
  destruct (NLPParser.first_category_in text); cbn [q_start_date q_end_date];
    rewrite I2e; exact I2s.
Qed.

(** "近3個月餐飲趨勢" on 2024-03-15: from 2024-01-01 to 2024-03-15. *)
Lemma C9_start_date_le_end_date_witness :
  NLPParser.parse_query (mkdate 2024 3 15) (utf8 "近3個月餐飲趨勢")
  = Ok (mkQuery QTrend (Some (utf8 "餐飲")) PMonth
                (mkdate 2024 1 1) (mkdate 2024 3 15) (Some ChartLine)) /\
  date_leb (mkdate 2024 1 1) (mkdate 2024 3 15) = true.
Proof.
  assert (E : NLPParser.parse_query (mkdate 2024 3 15) (utf8 "近3個月餐飲趨勢")
              = Ok (mkQuery QTrend (Some (utf8 "餐飲")) PMonth
                      (mkdate 2024 1 1) (mkdate 2024 3 15) (Some ChartLine)))
    by (vm_compute; reflexivity).
  split; [exact E |].
  exact (C9_start_date_le_end_date (mkdate 2024 3 15) (utf8 "近3個月餐飲趨勢") _
           eq_refl E).
Defined.

(* ================================================================== *)
(** ** The intent classifier *)

Lemma any_keyword_in_iff (keywords : list str) (text : str) :
  any_keyword_in keywords text = true <-> mentions keywords text.
Proof. unfold any_keyword_in, mentions. apply existsb_exists. Qed.

Lemma match_star_total {A : Type} (p : char -> bool) (k : str -> option A) :
  (forall s, k s <> None) -> forall s, match_star p s k <> None.
Proof.
  intros Hk s. induction s as [| c s IH]; cbn [match_star]; [apply Hk |].
  destruct (p c); [| apply Hk].
  destruct (match_star p s k); [discriminate | apply Hk].
Qed.

(** [re.search(r'\d+', text)] finds a match exactly when the text holds a
    digit. *)
Lemma search_digits_iff (text : str) :
  re_search digits text <> None <-> has_digit text.
Proof.
  unfold re_search, has_digit. generalize 0%nat as pos.
  induction text as [| c s IH]; intros pos.
  - cbn. split; [congruence | intros (c & [] & _)].
  - cbn [search_from]. unfold match_here at 1, digits, plus.
    cbn [rmatch]. destruct (is_digit c) eqn:D.
    + split; [intros _; exists c; split; [now left | exact D] | intros _].
      destruct (match_star is_digit s _) eqn:M; [discriminate |].
      exfalso. revert M. apply match_star_total. discriminate.
    + rewrite IH. split.
      * intros (x & I & Dx). exists x. split; [now right | exact Dx].
      * intros (x & [-> | I] & Dx); [congruence | exists x; auto].
Qed.

(** C10: a query keyword decides for Query whatever else the text holds;
    without one, an analysis keyword decides for Analysis; without either,
    the intent is Record exactly when the text holds a digit (a character
    that [\d] matches) and Analysis otherwise.  "午餐120元" is a Record and
    "這個月花了多少" a Query. *)
Theorem C10_detect_intent :
  (forall text : str,
     (mentions query_keywords text -> _detect_intent text = IntentQuery) /\
     (~ mentions query_keywords text -> mentions analysis_keywords text ->
      _detect_intent text = IntentAnalysis) /\
     (~ mentions query_keywords text -> ~ mentions analysis_keywords text ->
      (_detect_intent text = IntentRecord <-> has_digit text) /\
      (~ has_digit text -> _detect_intent text = IntentAnalysis))) /\
  _detect_intent (utf8 "午餐120元") = IntentRecord /\
  _detect_intent (utf8 "這個月花了多少") = IntentQuery.
Proof.
  split; [| split; vm_compute; reflexivity].
  intros text. unfold _detect_intent.
  rewrite <- !any_keyword_in_iff, <- search_digits_iff.
  destruct (any_keyword_in query_keywords text);
    destruct (any_keyword_in analysis_keywords text);
    destruct (re_search digits text);
    repeat split; intros; try reflexivity; try congruence;
    try (exfalso; congruence); try discriminate.
  match goal with H : ~ _ <> None |- _ => exfalso; apply H; discriminate end.
Qed.

(** The two examples of C10 through the general statement: "午餐120元" has
    a digit and no keyword; "這個月花了多少" has the keyword "花了多少" and no
    digit. *)
Lemma C10_detect_intent_witness :
  _detect_intent (utf8 "午餐120元") = IntentRecord /\
  _detect_intent (utf8 "這個月花了多少") = IntentQuery /\
  ~ has_digit (utf8 "這個月花了多少").
Proof.
  destruct C10_detect_intent as [G _].
  assert (Q0 : ~ mentions query_keywords (utf8 "午餐120元"))
    by (rewrite <- any_keyword_in_iff; vm_compute; discriminate).
  assert (A0 : ~ mentions analysis_keywords (utf8 "午餐120元"))
    by (rewrite <- any_keyword_in_iff; vm_compute; discriminate).
  split; [| split].
  - apply (proj1 (proj2 (proj2 (G (utf8 "午餐120元"))) Q0 A0)).
    exists 49. split; [vm_compute; tauto | reflexivity].
  - apply (proj1 (G (utf8 "這個月花了多少"))).
    exists (utf8 "花了多少"). split; [vm_compute; tauto | vm_compute; reflexivity].
  - rewrite <- search_digits_iff. vm_compute. intros H. now apply H.
Defined.

(* ================================================================== *)
(** ** The record parser *)

Lemma str_eqb_eq (a b : str) : str_eqb a b = true -> a = b.
Proof.
  revert b. induction a as [| x a IH]; intros [| y b] H; cbn in H;
    try discriminate; [reflexivity |].
  apply andb_true_iff in H as [H1 H2]. apply Z.eqb_eq in H1.
  f_equal; [exact H1 | apply IH, H2].
Qed.

(** [segmentations] lists every way of cutting a text into non-empty
    words. *)
Lemma segmentations_cons (w : str) (ws : list str) :
  In ws (segmentations (concat ws)) ->
  forall c, In ((c :: w) :: ws) (segmentations (c :: w ++ concat ws)).
Proof.
  intros H. induction w as [| c' w IH]; intros c; cbn [segmentations app].
  - apply in_flat_map. exists ws. split; [exact H |].
    destruct ws; cbn; auto.
  - apply in_flat_map. exists ((c' :: w) :: ws). split; [apply IH |].
    cbn. auto.
Qed.

Lemma segmentations_complete (ws : list str) :
  Forall (fun w => w <> []) ws -> In ws (segmentations (concat ws)).
Proof.
  induction 1 as [| w ws Hw _ IH]; [cbn; auto |].
  destruct w as [| c w]; [congruence |].
  cbn [concat app]. apply segmentations_cons, IH.
Qed.

(** No rule of the date resolver applies: it finds no date. *)
Lemma parse_no_rule (today : date) (text : str) :
  no_date_rule text = true -> DateParser.parse today text = Ok None.
Proof.
  unfold no_date_rule. intros H. apply andb_true_iff in H as [M R].
  apply no_literal_marker_true in M as (M1 & M2 & M3 & M4 & M5).
  unfold DateParser.parse, DateParser.parse_full_date. cbv zeta.
  rewrite M1, M2, M3, M4, M5.
  destruct (re_search DateParser.RE_DAYS_AGO (strip text)); [discriminate |].
  destruct (re_search DateParser.RE_WEEKDAY (strip text)); [discriminate |].
  destruct (re_search DateParser.RE_LAST_MONTH (strip text)); [discriminate |].
  destruct (re_search DateParser.RE_THIS_MONTH (strip text)); [discriminate |].
  destruct (re_search DateParser.RE_MONTH_DAY (strip text)); [discriminate |].
  destruct (re_search DateParser.RE_FULL_DATE (strip text)); [discriminate |].
  reflexivity.
Qed.

(** However "午餐 120 元" is cut into words, 餐飲 is the best category. *)
Lemma lunch_category (cut : str -> list str) :
  segments cut (utf8 "午餐 120 元") ->
  NLPParser._extract_category cut (utf8 "午餐 120 元") = Some (utf8 "餐飲").
Proof.
  intros [Hc Hn]. unfold NLPParser._extract_category.
  pose proof (segmentations_complete _ Hn) as I. rewrite Hc in I.
  assert (A : forallb (best_category_is (utf8 "餐飲"))
                (segmentations (utf8 "午餐 120 元")) = true)
    by (vm_compute; reflexivity).
  rewrite forallb_forall in A. specialize (A _ I).
  unfold best_category_is in A.
  destruct (NLPParser.best_category (cut (utf8 "午餐 120 元"))) as [c |];
    [| discriminate].
  apply str_eqb_eq in A. now subst.
Qed.

(** C2, as the code has it: for "午餐 120 元" the amount is 120.0, the
    category 餐飲, the kind Expense, the date today and the confidence 0.8,
    the sum of 0.4 for the amount and 0.4 for the category: the text holds
    no date expression, so nothing is added for a date.  (For any
    segmentation of the text into non-empty words.) *)
Theorem C2_parse_lunch (cut : str -> list str) (today : date) :
  segments cut (utf8 "午餐 120 元") ->
  NLPParser.parse cut today (utf8 "午餐 120 元")
  = Ok (mkRecord (Some 120%Q) Expense (utf8 "餐飲") today (utf8 "午餐")
                 (4 # 5)%Q (utf8 "午餐 120 元")).
Proof.
  intros S. unfold NLPParser.parse.
  rewrite (lunch_category cut S).
  rewrite (parse_no_rule today) by (vm_compute; reflexivity).
  replace (NLPParser._extract_amount (utf8 "午餐 120 元")) with (Ok (Some 120%Q))
    by (vm_compute; reflexivity).
  vm_compute. reflexivity.
Qed.

Lemma C2_parse_lunch_witness :
  NLPParser.parse (table_cut EXAMPLE_WORDS) (mkdate 2024 3 15) (utf8 "午餐 120 元")
  = Ok (mkRecord (Some 120%Q) Expense (utf8 "餐飲") (mkdate 2024 3 15) (utf8 "午餐")
                 (4 # 5)%Q (utf8 "午餐 120 元")).
Proof.
  apply (C2_parse_lunch (table_cut EXAMPLE_WORDS) (mkdate 2024 3 15)).
  split; [reflexivity |].
  vm_compute. repeat constructor; discriminate.
Defined.

(** C2, as the specification has it, fails: the confidence is not 0.9. *)
Lemma C2_confidence_is_not_0_9 :
  exists r,
    NLPParser.parse (table_cut EXAMPLE_WORDS) (mkdate 2024 3 15) (utf8 "午餐 120 元")
    = Ok r /\
    (r_confidence r == 0.8)%Q /\ ~ (r_confidence r == 0.9)%Q.
Proof.
  eexists. split; [vm_compute; reflexivity |].
  cbn [r_confidence]. split; [reflexivity | discriminate].
Qed.

(** C6: the fallback category breaks the correspondence between kind and
    category.  Whenever no word of the text meets a keyword and the text
    holds the income marker "收入", the record has the category 其他收入,
    which is an income category, while its kind stays Expense. *)
Theorem C6_fallback_income_category_is_expense
        (cut : str -> list str) (today : date) (text : str) (r : ParsedRecord) :
  NLPParser.parse cut today text = Ok r ->
  NLPParser._extract_category cut text = None ->
  contains (utf8 "收入") text = true ->
  r_category r = utf8 "其他收入" /\
  NLPParser.is_income_category (r_category r) = true /\
  r_type r = Expense.
Proof.
  intros H C M. unfold NLPParser.parse in H. cbv zeta in H.
  rewrite C, M in H.
  apply bind_ok in H as (amount & _ & H).
  destruct (NLPParser.truthy amount); cbv beta iota zeta in H;
    apply bind_ok in H as (parsed_date & _ & H);
    destruct parsed_date; cbv beta iota zeta in H;
    injection H as <-; cbn [r_category r_type];
    (split; [reflexivity | split; [vm_compute; reflexivity | reflexivity]]).
Qed.

(** "没收入场券 500元", cut into 没收 / 入场券 / 500 / 元: no word meets a
    keyword, and "收入" stands across the first two words. *)
Lemma C6_fallback_income_category_witness :
  exists r,
    NLPParser.parse (table_cut EXAMPLE_WORDS) (mkdate 2024 3 15) (utf8 "没收入场券 500元")
    = Ok r /\
    r_amount r = Some 500%Q /\
    r_category r = utf8 "其他收入" /\
    NLPParser.is_income_category (r_category r) = true /\
    r_type r = Expense.
Proof.
  eexists. split; [vm_compute; reflexivity |].
  split; [reflexivity |].
  refine (C6_fallback_income_category_is_expense (table_cut EXAMPLE_WORDS)
            (mkdate 2024 3 15) (utf8 "没收入场券 500元") _ _ _ _);
    vm_compute; reflexivity.
Defined.

(* ================================================================== *)
(** ** The amount extractor *)

Lemma firstn_app_length {A : Type} (a b : list A) :
  firstn (length (a ++ b) - length b) (a ++ b) = a.
Proof.
  rewrite length_app, Nat.add_sub.
  rewrite firstn_app, Nat.sub_diag, firstn_all. cbn. apply app_nil_r.
Qed.

(** A greedy [class]* takes a whole run of the class when what follows the
    run lets the rest of the pattern match. *)
Lemma match_star_greedy {A : Type} (p : char -> bool) (k : str -> option A)
      (run s : str) :
  forallb p run = true ->
  match s with c :: _ => p c = false | [] => True end ->
  k s <> None ->
  match_star p (run ++ s) k = k s.
Proof.
  intros Hrun Hs Hk. induction run as [| c run IH]; cbn [app match_star].
  - destruct s as [| c s]; [reflexivity |]. cbn [match_star]. now rewrite Hs.
  - cbn [forallb] in Hrun. apply andb_true_iff in Hrun as [Hc Hrun].
    rewrite Hc, (IH Hrun). destruct (k s); [reflexivity | congruence].
Qed.

Lemma in_class_cases (cls : str) (c : char) :
  in_class cls c = true -> In c cls.
Proof.
  unfold in_class. rewrite existsb_exists. intros (x & I & E).
  apply Z.eqb_eq in E. now subst.
Qed.

(** A currency unit is neither white space nor a numeral character, and
    white space is no numeral character. *)
Lemma currency_not_space (u : char) :
  in_class NLPParser.CURRENCY u = true ->
  is_space u = false /\ in_class NLPParser.CHINESE_DIGITS u = false.
Proof.
  intros H. apply in_class_cases in H. vm_compute in H.
  decompose [or] H; subst; try contradiction; split; vm_compute; reflexivity.
Qed.

Lemma numeral_not_space (c : char) :
  in_class NLPParser.CHINESE_DIGITS c = true -> is_space c = false.
Proof.
  intros H. apply in_class_cases in H. vm_compute in H.
  decompose [or] H; subst; try contradiction; vm_compute; reflexivity.
Qed.

Section RunBeforeUnit.
Variables p q : char -> bool.
Hypothesis unit_not_class : forall c, q c = true -> p c = false.
Hypothesis unit_not_space : forall c, q c = true -> is_space c = false.
Hypothesis space_not_class : forall c, is_space c = true -> p c = false.

(** The pattern matches nowhere before the first character of the
    class. *)
Lemma run_before_unit_skip (pre s : str) :
  forallb (fun c => negb (p c)) pre = true ->
  forall pos, exists pos',
    search_from (run_before_unit p q) pos (pre ++ s)
    = search_from (run_before_unit p q) pos' s.
Proof.
  induction pre as [| c pre IH]; intros H pos; [now exists pos |].
  cbn [forallb] in H. apply andb_true_iff in H as [Hc H].
  apply negb_true_iff in Hc.
  destruct (IH H (S pos)) as [pos' E]. exists pos'. rewrite <- E.
  cbn [app search_from]. unfold match_here at 1, run_before_unit at 1.
  cbn [rmatch]. now rewrite Hc.
Qed.

(** At a run of the class followed by optional white space and a unit,
    the pattern matches and its group is the run. *)
Lemma run_before_unit_here (pos : nat) (c : char) (run ws : str) (u : char)
      (post : str) :
  p c = true ->
  forallb p run = true ->
  forallb is_space ws = true ->
  q u = true ->
  exists m,
    match_here (run_before_unit p q) pos (c :: run ++ ws ++ u :: post) = Some m /\
    group_text m 1 = c :: run.
Proof.
  intros Hc Hrun Hws Hu.
  assert (Hrest : match ws ++ u :: post with
                  | c0 :: _ => p c0 = false
                  | [] => True
                  end).
  { destruct ws as [| w ws]; cbn [app]; [apply unit_not_class, Hu |].
    cbn [forallb] in Hws. apply andb_true_iff in Hws as [Hw _].
    apply space_not_class, Hw. }
  unfold match_here, run_before_unit.
  cbn [rmatch]. rewrite Hc.
  set (s := c :: run ++ ws ++ u :: post).
  match goal with
  | |- context [match_star p (run ++ ws ++ u :: post) ?k] =>
    assert (Hk : k (ws ++ u :: post)
                 = Some (MatchObj pos (firstn (length s - length post) s) post
                           [(1%nat, firstn (length s - length (ws ++ u :: post)) s)]));
      [| rewrite (match_star_greedy p k run (ws ++ u :: post) Hrun Hrest),
           Hk by (rewrite Hk; discriminate) ]
  end.
  - cbv beta.
    match goal with
    | |- match_star is_space (ws ++ u :: post) ?k = _ =>
      rewrite (match_star_greedy is_space k ws (u :: post) Hws
                 (unit_not_space _ Hu))
    end; cbv beta iota; rewrite Hu; [reflexivity | discriminate].
  - eexists. split; [reflexivity |].
    unfold group_text, group. cbn [m_groups lookup_group Nat.eqb].
    subst s. change (c :: run ++ ws ++ u :: post) with ((c :: run) ++ ws ++ u :: post).
    apply firstn_app_length.
Qed.

Lemma run_before_unit_search (pre run ws : str) (u : char) (post : str) :
  forallb (fun c => negb (p c)) pre = true ->
  run <> [] ->
  forallb p run = true ->
  forallb is_space ws = true ->
  q u = true ->
  exists m,
    re_search (run_before_unit p q) (pre ++ run ++ ws ++ u :: post) = Some m /\
    group_text m 1 = run.
Proof.
  intros Hpre Hne Hrun Hws Hu.
  destruct run as [| c run]; [congruence |].
  cbn [forallb] in Hrun. apply andb_true_iff in Hrun as [Hc Hrun].
  destruct (run_before_unit_skip pre ((c :: run) ++ ws ++ u :: post) Hpre 0%nat)
    as [pos E].
  destruct (run_before_unit_here pos c run ws u post Hc Hrun Hws Hu) as (m & Hm & G).
  exists m. split; [| exact G].
  unfold re_search. rewrite E. cbn [app search_from]. now rewrite Hm.
Qed.
End RunBeforeUnit.

Lemma chinese_amount_search (pre run ws : str) (u : char) (post : str) :
  forallb (fun c => negb (in_class NLPParser.CHINESE_DIGITS c)) pre = true ->
  run <> [] ->
  forallb (in_class NLPParser.CHINESE_DIGITS) run = true ->
  forallb is_space ws = true ->
  in_class NLPParser.CURRENCY u = true ->
  exists m,
    re_search NLPParser.RE_CHINESE_AMOUNT (pre ++ run ++ ws ++ u :: post) = Some m /\
    group_text m 1 = run.
Proof.
  apply (run_before_unit_search
           (in_class NLPParser.CHINESE_DIGITS) (in_class NLPParser.CURRENCY)).
  - intros c H. apply currency_not_space, H.
  - intros c H. apply currency_not_space, H.
  - intros c H. destruct (in_class NLPParser.CHINESE_DIGITS c) eqn:E; [| reflexivity].
    apply numeral_not_space in E. congruence.
Qed.

(* ================================================================== *)
(** ** Further properties of the resolver, the extractor and the parser *)

(** The "上個月N號" rule. *)
Lemma parse_last_month (today : date) (text : str) (n : Z) :
  last_month_rule text n = true ->
  DateParser.parse today text =
  (let* first_of_month := replace_day today 1 in
   let* last_month := minus_days first_of_month 1 in
   let* d := try_ValueError (replace_day last_month n) (Ok last_month) in
   Ok (Some d)).
Proof.
  unfold last_month_rule. intros H. apply andb_true_iff in H as [M R].
  apply no_literal_marker_true in M as (M1 & M2 & M3 & M4 & M5).
  unfold DateParser.parse. cbv zeta. rewrite M1, M2, M3, M4, M5.
  destruct (re_search DateParser.RE_DAYS_AGO (strip text)); [discriminate |].
  destruct (re_search DateParser.RE_WEEKDAY (strip text)); [discriminate |].
  destruct (re_search DateParser.RE_LAST_MONTH (strip text)) as [m |]; [| discriminate].
  apply Z.eqb_eq in R. rewrite R. reflexivity.
Qed.

Lemma last_month_rule_29_31 (n : Z) :
  29 <= n <= 31 ->
  last_month_rule (utf8 "上個月" ++ arabic_numeral n ++ utf8 "號") n = true.
Proof.
  intros H.
  assert (A : forall_range 3 29 (fun k =>
                last_month_rule (utf8 "上個月" ++ arabic_numeral k ++ utf8 "號") k) = true)
    by (vm_compute; reflexivity).
  apply (forall_range_spec _ _ _ A). lia.
Qed.

(** The previous-month rule clamps: when the day number N (at most 31)
    exceeds the length of the month before today's, "上個月N號" resolves to
    the last day of that month.  (A month before today's must exist in the
    calendar.) *)
Theorem last_month_overflow_is_clamped (today : date) (N : Z) :
  valid_date today = true ->
  (year today = 1 -> month today <> 1) ->
  day (previous_month_end today) < N <= 31 ->
  DateParser.parse today (utf8 "上個月" ++ arabic_numeral N ++ utf8 "號")
  = Ok (Some (previous_month_end today)).
Proof.
  intros V H HN.
  destruct (toordinal_previous_month_end today V H) as [Vp Op].
  destruct (replace_day_first today V) as (E1 & V1 & _).
  pose proof (toordinal_range _ Vp) as Rp.
  destruct (minus_days_ok _ 1 V1 ltac:(lia) ltac:(lia)) as (d & Ed & Vd & Od).
  assert (Hd : d = previous_month_end today).
  { rewrite <- (fromordinal_toordinal d Vd), <- (fromordinal_toordinal _ Vp).
    f_equal. lia. }
  subst d.
  pose proof (days_in_month_bounds (year (previous_month_end today))
                (month (previous_month_end today))) as B.
  assert (Dp : day (previous_month_end today)
               = days_in_month (year (previous_month_end today))
                   (month (previous_month_end today))) by reflexivity.
  rewrite (parse_last_month today _ N) by (apply last_month_rule_29_31; lia).
  rewrite E1. cbn [bind]. rewrite Ed. cbn [bind].
  unfold replace_day, c_int.
  replace ((-2147483648 <=? N) && (N <=? 2147483647)) with true
    by (symmetry; apply andb_true_iff; rewrite !Z.leb_le; lia).
  cbn [bind]. unfold date_new, valid_date. cbn [year month day].
  replace (N <=? days_in_month (year (previous_month_end today))
                   (month (previous_month_end today))) with false
    by (symmetry; apply Z.leb_gt; lia).
  rewrite !andb_false_r. reflexivity.
Qed.

(** "上個月31號" on 2024-03-15 is 2024-02-29. *)
Lemma last_month_overflow_witness :
  DateParser.parse (mkdate 2024 3 15) (utf8 "上個月31號") = Ok (Some (mkdate 2024 2 29)).
Proof.
  apply (last_month_overflow_is_clamped (mkdate 2024 3 15) 31).
  - reflexivity.
  - discriminate.
  - vm_compute. split; [reflexivity | discriminate].
Defined.

Lemma startswith_iff (p s : str) :
  startswith p s = true <-> exists b, s = p ++ b.
Proof.
  revert s. induction p as [| x p IH]; intros s; cbn [startswith app].
  - split; [intros _; now exists s | reflexivity].
  - destruct s as [| y s].
    + split; [discriminate | intros (b & E); discriminate].
    + rewrite andb_true_iff, Z.eqb_eq, IH. split.
      * intros (-> & b & ->). now exists b.
      * intros (b & E). injection E as -> ->. split; [reflexivity | now exists b].
Qed.

(** [kw in s]: [s] is some [a ++ kw ++ b]. *)
Lemma contains_iff (kw s : str) :
  contains kw s = true <-> exists a b, s = a ++ kw ++ b.
Proof.
  induction s as [| c s IH]; cbn [contains]; rewrite orb_true_iff, startswith_iff.
  - split.
    + intros [(b & E) | H]; [now exists [], b | discriminate].
    + intros (a & b & E). left. destruct a; [now exists b |]. discriminate.
  - rewrite IH. split.
    + intros [(b & E) | (a & b & E)]; [now exists [], b |].
      exists (c :: a), b. now rewrite E.
    + intros (a & b & E). destruct a as [| x a]; [left; now exists b |].
      right. injection E as -> ->. now exists a, b.
Qed.

(** Stripping white space keeps a word that begins with another
    character. *)
Lemma lstrip_keeps (a : str) (k : char) (rest : str) :
  is_space k = false -> exists a', lstrip (a ++ k :: rest) = a' ++ k :: rest.
Proof.
  intros Hk. induction a as [| c a IH]; cbn [app lstrip].
  - rewrite Hk. now exists [].
  - destruct (is_space c); [exact IH | now exists (c :: a)].
Qed.

Lemma contains_strip (kw s : str) :
  kw <> [] -> forallb (fun c => negb (is_space c)) kw = true ->
  contains kw s = true -> contains kw (strip s) = true.
Proof.
  intros Hne Hkw H. apply contains_iff in H as (a & b & ->).
  assert (Front : forall k, In k kw -> is_space k = false).
  { intros k I. rewrite forallb_forall in Hkw. now apply negb_true_iff, Hkw. }
  unfold strip.
  destruct kw as [| k kw']; [congruence |].
  destruct (lstrip_keeps a k (kw' ++ b) (Front k (or_introl eq_refl))) as [a' E].
  cbn [app]. rewrite E.
  replace (a' ++ k :: kw' ++ b) with (a' ++ (k :: kw') ++ b) by reflexivity.
  rewrite !rev_app_distr.
  destruct (rev (k :: kw')) as [| k2 r2] eqn:R.
  { apply (f_equal (@length _)) in R. rewrite length_rev in R. discriminate. }
  assert (I2 : In k2 (k :: kw')) by (apply in_rev; rewrite R; now left).
  rewrite <- app_assoc. cbn [app].
  destruct (lstrip_keeps (rev b) k2 (r2 ++ rev a') (Front k2 I2)) as [b' E2].
  rewrite E2. rewrite rev_app_distr. cbn [rev].
  rewrite rev_app_distr, rev_involutive, <- !app_assoc. cbn [app].
  apply contains_iff. exists a', (rev b').
  f_equal. change (k2 :: r2) with ([k2] ++ r2) in R.
  apply (f_equal (@rev _)) in R. rewrite rev_involutive, rev_app_distr in R.
  cbn [rev app] in R. rewrite R, <- app_assoc. reflexivity.
Qed.

(** Every text that contains "今天" resolves to the reference date. *)
Theorem today_marker_is_today (today : date) (text : str) :
  contains (utf8 "今天") text = true ->
  DateParser.parse today text = Ok (Some today).
Proof.
  intros H. unfold DateParser.parse. cbv zeta.
  rewrite (contains_strip (utf8 "今天") text) by
    (try exact H; try discriminate; vm_compute; reflexivity).
  reflexivity.
Qed.

Lemma today_marker_witness :
  DateParser.parse (mkdate 2024 3 15) (utf8 "今天午餐 120 元") = Ok (Some (mkdate 2024 3 15)).
Proof.
  apply (today_marker_is_today (mkdate 2024 3 15) (utf8 "今天午餐 120 元")).
  vm_compute. reflexivity.
Defined.

Lemma max_by_score_in (rest : list (str * Z)) :
  forall best, In (NLPParser.max_by_score best rest) (map fst (best :: rest)).
Proof.
  induction rest as [| e rest IH]; intros best; cbn [NLPParser.max_by_score].
  - now left.
  - specialize (IH (if snd best <? snd e then e else best)).
    cbn [map In] in *. destruct (snd best <? snd e); tauto.
Qed.

(** The best category is one of the keys of [CATEGORY_KEYWORDS]. *)
Lemma best_category_in (words : list str) (c : str) :
  NLPParser.best_category words = Some c ->
  In c (map fst NLPParser.CATEGORY_KEYWORDS).
Proof.
  unfold NLPParser.best_category, NLPParser.category_scores.
  set (scored := map (fun e => (fst e, NLPParser.category_score words (snd e)))
                     NLPParser.CATEGORY_KEYWORDS).
  assert (K : map fst scored = map fst NLPParser.CATEGORY_KEYWORDS)
    by (subst scored; rewrite map_map; reflexivity).
  rewrite <- K.
  destruct (filter (fun e => 0 <? snd e) scored) as [| e rest] eqn:F; [discriminate |].
  intros H. injection H as <-.
  pose proof (max_by_score_in rest e) as I.
  apply in_map_iff in I as (x & Ex & Ix). rewrite <- Ex.
  apply in_map. rewrite <- F in Ix. now apply filter_In in Ix.
Qed.

(** Every record that [parse] returns has a confidence between 0 and 1 and
    a non-empty category, and its kind is Income only for an income
    category. *)
Theorem parse_record_invariants
        (cut : str -> list str) (today : date) (text : str) (r : ParsedRecord) :
  NLPParser.parse cut today text = Ok r ->
  (0 <= r_confidence r <= 1)%Q /\
  r_category r <> [] /\
  (r_type r = Income -> NLPParser.is_income_category (r_category r) = true).
Proof.
  intros H. unfold NLPParser.parse in H. cbv zeta in H.
  assert (Keys : Forall (fun c => c <> []) (map fst NLPParser.CATEGORY_KEYWORDS))
    by (vm_compute; repeat constructor; discriminate).
  rewrite Forall_forall in Keys.
  apply bind_ok in H as (amount & _ & H).
  destruct (NLPParser.truthy amount); cbv beta iota zeta in H;
    apply bind_ok in H as (parsed_date & _ & H);
    destruct parsed_date; cbv beta iota zeta in H;
    destruct (NLPParser._extract_category cut text) as [c |] eqn:C;
    cbv beta iota zeta in H; injection H as <-;
    cbn [r_confidence r_category r_type];
    (split; [vm_compute; split; discriminate |]); split;
    try discriminate;
    try (apply Keys, (best_category_in _ _ C));
    try (destruct (NLPParser.is_income_category c); [reflexivity | discriminate]);
    destruct (contains (utf8 "收入") text); vm_compute; discriminate.
Qed.

Lemma parse_record_invariants_witness :
  (0 <= 4 # 5 <= 1)%Q /\ utf8 "餐飲" <> [] /\
  (Expense = Income -> NLPParser.is_income_category (utf8 "餐飲") = true).
Proof.
  assert (E : NLPParser.parse (table_cut EXAMPLE_WORDS) (mkdate 2024 3 15)
                (utf8 "午餐 120 元")
              = Ok (mkRecord (Some 120%Q) Expense (utf8 "餐飲") (mkdate 2024 3 15)
                             (utf8 "午餐") (4 # 5)%Q (utf8 "午餐 120 元")))
    by (vm_compute; reflexivity).
  exact (parse_record_invariants (table_cut EXAMPLE_WORDS) (mkdate 2024 3 15)
           (utf8 "午餐 120 元") _ E).
Defined.

(* ================================================================== *)
(** ** Patterns that cannot match *)

Lemma lacks_tail (p : char -> bool) (c : char) (s : str) :
  lacks p (c :: s) -> lacks p s.
Proof. intros H x I. apply H. now right. Qed.

Lemma lacks_iff (p : char -> bool) (s : str) :
  lacks p s <-> forallb (fun c => negb (p c)) s = true.
Proof.
  unfold lacks. rewrite forallb_forall. split; intros H c I.
  - now rewrite (H c I).
  - apply negb_true_iff. now apply H.
Qed.

Section Lacks.
Variable p : char -> bool.
Context {A : Type}.

Lemma match_star_lacks (q : char -> bool) (k : str -> option A) :
  (forall s, lacks p s -> k s = None) ->
  forall s, lacks p s -> match_star q s k = None.
Proof.
  intros Hk s. induction s as [| c s IH]; intros L; cbn [match_star]; [now apply Hk |].
  destruct (q c); [| now apply Hk].
  rewrite (IH (lacks_tail _ _ _ L)). now apply Hk.
Qed.

Lemma match_times_lacks (q : char -> bool) (k : str -> option A) :
  (forall s, lacks p s -> k s = None) ->
  forall n s, lacks p s -> match_times n q s k = None.
Proof.
  intros Hk n. induction n as [| n IH]; intros s L; cbn [match_times]; [now apply Hk |].
  destruct s as [| c s]; [reflexivity |].
  destruct (q c); [apply IH, (lacks_tail _ _ _ L) | reflexivity].
Qed.

Lemma match_upto_lacks (q : char -> bool) (k : str -> option A) :
  (forall s, lacks p s -> k s = None) ->
  forall n s, lacks p s -> match_upto n q s k = None.
Proof.
  intros Hk n. induction n as [| n IH]; intros s L; cbn [match_upto]; [now apply Hk |].
  destruct s as [| c s]; [now apply Hk |].
  destruct (q c); [| now apply Hk].
  rewrite (IH _ (lacks_tail _ _ _ L)). now apply Hk.
Qed.

(** What a pattern hands to its continuation is a suffix of its input: a
    continuation that fails on texts without the class makes the whole
    match fail on such a text. *)
Lemma rmatch_lacks (r : regex) :
  forall (k : str -> captures -> option A),
  (forall s g, lacks p s -> k s g = None) ->
  forall s g, lacks p s -> rmatch r s g k = None.
Proof.
  induction r as [| q | r1 IH1 r2 IH2 | r1 IH1 r2 IH2 | r1 IH1 | q | lo hi q | i r1 IH1 | ];
    intros k Hk s g L; cbn [rmatch].
  - now apply Hk.
  - destruct s as [| c s]; [reflexivity |].
    destruct (q c); [apply Hk, (lacks_tail _ _ _ L) | reflexivity].
  - apply IH1; [| exact L]. intros s1 g1 L1. now apply IH2.
  - rewrite (IH1 k Hk s g L). now apply IH2.
  - rewrite (IH1 k Hk s g L). now apply Hk.
  - apply match_star_lacks; [| exact L]. intros s1 L1. now apply Hk.
  - apply match_times_lacks; [| exact L]. intros s1 L1.
    apply match_upto_lacks; [| exact L1]. intros s2 L2. now apply Hk.
  - apply IH1; [| exact L]. intros s1 g1 L1. now apply Hk.
  - destruct s as [| c [| c' s]]; [now apply Hk | | reflexivity].
    destruct (c =? 10); [now apply Hk | reflexivity].
Qed.

(** A pattern that needs a character of the class matches no text without
    one. *)
Lemma rmatch_needs (r : regex) :
  needs p r ->
  forall (k : str -> captures -> option A) s g, lacks p s -> rmatch r s g k = None.
Proof.
  induction r as [| q | r1 IH1 r2 IH2 | r1 IH1 r2 IH2 | r1 IH1 | q | lo hi q | i r1 IH1 | ];
    cbn [needs]; intros N k s g L; cbn [rmatch]; try contradiction.
  - destruct s as [| c s]; [reflexivity |].
    destruct (q c) eqn:Q; [| reflexivity].
    specialize (N c Q). rewrite (L c (or_introl eq_refl)) in N. discriminate.
  - destruct N as [N | N]; [now apply IH1 |].
    apply rmatch_lacks; [| exact L]. intros s1 g1 L1. now apply IH2.
  - destruct N as [N1 N2]. rewrite (IH1 N1 k s g L). now apply IH2.
  - destruct N as [N Q]. destruct lo as [| lo]; [lia |]. cbn [match_times].
    destruct s as [| c s]; [reflexivity |].
    destruct (q c) eqn:E; [| reflexivity].
    pose proof (Q c E) as P. rewrite (L c (or_introl eq_refl)) in P. discriminate.
  - now apply IH1.
Qed.
End Lacks.

Lemma search_needs (p : char -> bool) (r : regex) :
  needs p r -> forall s pos, lacks p s -> search_from r pos s = None.
Proof.
  intros N s. induction s as [| c s IH]; intros pos L; cbn [search_from];
    unfold match_here; rewrite (rmatch_needs p r N) by exact L; [reflexivity |].
  apply IH, (lacks_tail _ _ _ L).
Qed.

Lemma re_search_needs (p : char -> bool) (r : regex) (s : str) :
  needs p r -> lacks p s -> re_search r s = None.
Proof. intros N L. now apply search_needs with (p := p). Qed.

(* ================================================================== *)
(** ** More on the amount extractor *)

Lemma has_digit_dec (text : str) : has_digit text \/ lacks is_digit text.
Proof.
  destruct (existsb is_digit text) eqn:E.
  - left. apply existsb_exists in E. exact E.
  - right. intros c I. destruct (is_digit c) eqn:D; [| reflexivity].
    assert (existsb is_digit text = true) by (apply existsb_exists; eauto).
    congruence.
Qed.

Lemma lacks_not_has_digit (text : str) : lacks is_digit text <-> ~ has_digit text.
Proof.
  split.
  - intros L (c & I & D). rewrite (L c I) in D. discriminate.
  - intros N. destruct (has_digit_dec text); [contradiction | assumption].
Qed.

Lemma needs_number (r : regex) : needs is_digit (Cat (Grp 1 number) r).
Proof. cbn [needs]. left. unfold number, digits, plus. cbn [needs]. auto. Qed.

Lemma needs_amount_patterns :
  Forall (needs is_digit) NLPParser.AMOUNT_PATTERNS.
Proof.
  unfold NLPParser.AMOUNT_PATTERNS.
  apply Forall_cons; [apply needs_number |].
  apply Forall_cons;
    [unfold NLPParser.RE_AMOUNT_DOLLAR, number, digits, plus; cbn [needs]; auto 6 |].
  apply Forall_cons;
    [unfold NLPParser.RE_AMOUNT_NT, number, digits, plus; cbn [needs]; auto 8 |].
  apply Forall_cons; [apply needs_number | apply Forall_nil].
Qed.

Lemma first_pattern_amount_lacks (text : str) :
  lacks is_digit text ->
  NLPParser.first_pattern_amount NLPParser.AMOUNT_PATTERNS text = None.
Proof.
  intros L. pose proof needs_amount_patterns as N.
  induction N as [| r rs Hr _ IH]; cbn [NLPParser.first_pattern_amount]; [reflexivity |].
  now rewrite (re_search_needs is_digit r text Hr L).
Qed.

(** The bare-number pattern finds a match exactly when the text holds a
    digit. *)
Lemma search_any_number_iff (text : str) :
  re_search NLPParser.RE_ANY_NUMBER text <> None <-> has_digit text.
Proof.
  split.
  - intros H. destruct (has_digit_dec text) as [D | L]; [exact D |].
    exfalso. apply H. apply (re_search_needs is_digit); [| exact L].
    unfold NLPParser.RE_ANY_NUMBER, number, digits, plus. cbn [needs]. auto.
  - unfold re_search. generalize 0%nat.
    induction text as [| c s IH]; intros pos (x & I & D); [destruct I |].
    cbn [search_from].
    destruct (match_here NLPParser.RE_ANY_NUMBER pos (c :: s)) eqn:M; [discriminate |].
    destruct I as [E | I]; [| apply IH; exists x; auto].
    subst x. exfalso. revert M.
    unfold match_here, NLPParser.RE_ANY_NUMBER, number, digits, plus.
    cbn [rmatch]. rewrite D.
    apply match_star_total. intros s1.
    match goal with |- match ?a with _ => _ end <> None => destruct a end; discriminate.
Qed.

(** In a text that holds a digit the extractor always finds an amount
    (unless the numeral converter overflows); in a text that holds neither
    a digit nor a Chinese numeral character it finds none. *)
Theorem extract_amount_none (text : str) :
  (NLPParser._extract_amount text = Ok None -> ~ has_digit text) /\
  (~ has_digit text -> lacks (in_class NLPParser.CHINESE_DIGITS) text ->
   NLPParser._extract_amount text = Ok None).
Proof.
  split.
  - unfold NLPParser._extract_amount. intros H.
    destruct (NLPParser.first_pattern_amount _ text); [discriminate |].
    destruct (NLPParser._extract_chinese_amount text) as [ca | e]; [| discriminate].
    cbn [bind] in H. destruct (NLPParser.truthy ca) eqn:T.
    + injection H as ->. discriminate.
    + rewrite <- search_any_number_iff.
      destruct (re_search NLPParser.RE_ANY_NUMBER text); [discriminate | auto].
  - intros D L. apply lacks_not_has_digit in D.
    unfold NLPParser._extract_amount, NLPParser._extract_chinese_amount.
    rewrite (first_pattern_amount_lacks text D).
    rewrite (re_search_needs (in_class NLPParser.CHINESE_DIGITS)
               NLPParser.RE_CHINESE_AMOUNT text) by
      (try exact L; unfold NLPParser.RE_CHINESE_AMOUNT, plus; cbn [needs]; auto).
    cbn [bind NLPParser.truthy].
    destruct (re_search NLPParser.RE_ANY_NUMBER text) eqn:S; [| reflexivity].
    exfalso. apply lacks_not_has_digit in D. apply D.
    apply search_any_number_iff. congruence.
Qed.

Lemma digit_value_bounds (c : char) (d : Z) :
  digit_value c = Some d -> 0 <= d <= 9.
Proof.
  unfold digit_value.
  destruct (find (fun z => (z <=? c) && (c <? z + 10)) DECIMAL_ZEROS) as [z |] eqn:F;
    [| discriminate].
  intros H. injection H as <-. apply find_some in F as [_ F].
  apply andb_true_iff in F as [F1 F2]. apply Z.leb_le in F1. apply Z.ltb_lt in F2. lia.
Qed.

Lemma int_of_digits_nonneg (s : str) : 0 <= int_of_digits s.
Proof.
  unfold int_of_digits.
  assert (G : forall acc, 0 <= acc ->
            0 <= fold_left (fun acc c =>
                   match digit_value c with Some d => acc * 10 + d | None => acc end) s acc).
  { induction s as [| c s IH]; intros acc Hacc; cbn [fold_left]; [exact Hacc |].
    apply IH. destruct (digit_value c) as [d |] eqn:D; [| exact Hacc].
    apply digit_value_bounds in D. lia. }
  apply G. lia.
Qed.

Lemma float_of_str_nonneg (s : str) : (0 <= float_of_str s)%Q.
Proof.
  unfold float_of_str. destruct (split_at_dot s) as [ip [fp |]].
  - rewrite Qred_correct. unfold Qle. cbn [Qnum Qden].
    pose proof (int_of_digits_nonneg ip). pose proof (int_of_digits_nonneg fp).
    assert (0 <= 10 ^ Z.of_nat (length fp)) by (apply Z.pow_nonneg; lia).
    nia.
  - unfold Qle, inject_Z. cbn [Qnum Qden]. pose proof (int_of_digits_nonneg ip). lia.
Qed.

Lemma dict_get_in {V : Type} (d : list (str * V)) (k : str) (v : V) :
  dict_get d k = Some v -> In v (map snd d).
Proof.
  induction d as [| [k' v'] d IH]; cbn [dict_get map snd In]; [discriminate |].
  destruct (str_eqb k' k); [intros H; injection H as ->; now left | auto].
Qed.

Lemma chinese_num_bounds (c : char) (num : Z) :
  dict_get NLPParser.CHINESE_NUMS [c] = Some num -> 0 <= num <= 10000.
Proof.
  intros H. apply dict_get_in in H. vm_compute in H.
  decompose [or] H; subst; try contradiction; lia.
Qed.

Lemma numeral_step_nonneg (st : Z * Z) (c : char) :
  0 <= fst st -> 0 <= snd st ->
  0 <= fst (NLPParser.numeral_step st c) /\ 0 <= snd (NLPParser.numeral_step st c).
Proof.
  destruct st as [result temp]. cbn [fst snd]. intros Hr Ht.
  unfold NLPParser.numeral_step.
  destruct (dict_get NLPParser.CHINESE_NUMS [c]) as [num |] eqn:D; [| now cbn].
  apply chinese_num_bounds in D.
  destruct (10 <=? num); [| destruct (10 <=? temp); cbn [fst snd]; lia].
  destruct (temp =? 0); destruct (10000 <=? num); cbn [fst snd]; nia.
Qed.

Lemma chinese_to_int_nonneg (text : str) : 0 <= NLPParser.chinese_to_int text.
Proof.
  unfold NLPParser.chinese_to_int.
  assert (G : forall st, 0 <= fst st -> 0 <= snd st ->
            0 <= fst (fold_left NLPParser.numeral_step text st) /\
            0 <= snd (fold_left NLPParser.numeral_step text st)).
  { induction text as [| c s IH]; intros st H1 H2; cbn [fold_left]; [auto |].
    apply IH; now apply numeral_step_nonneg. }
  specialize (G (0, 0) ltac:(cbn; lia) ltac:(cbn; lia)).
  destruct (fold_left NLPParser.numeral_step text (0, 0)) as [result temp].
  cbn [fst snd] in G. lia.
Qed.

(** No amount that the extractor returns is negative. *)
Lemma extract_amount_nonneg (text : str) (v : float) :
  NLPParser._extract_amount text = Ok (Some v) -> (0 <= v)%Q.
Proof.
  unfold NLPParser._extract_amount.
  assert (P : forall ps, NLPParser.first_pattern_amount ps text = Some v -> (0 <= v)%Q).
  { induction ps as [| r ps IH]; cbn [NLPParser.first_pattern_amount]; [discriminate |].
    destruct (re_search r text); [| exact IH].
    intros H. injection H as <-. apply float_of_str_nonneg. }
  destruct (NLPParser.first_pattern_amount NLPParser.AMOUNT_PATTERNS text) eqn:F.
  { intros H. injection H as ->. now apply (P _ F). }
  unfold NLPParser._extract_chinese_amount.
  destruct (re_search NLPParser.RE_CHINESE_AMOUNT text) as [m |]; cbn [bind].
  - unfold NLPParser._chinese_to_number, float_of_int.
    pose proof (chinese_to_int_nonneg (group_text m 1)) as N.
    destruct (Z.abs _ <? _); cbn [bind]; [| discriminate].
    destruct (NLPParser.truthy _).
    + intros H. injection H as <-. unfold Qle, inject_Z. cbn [Qnum Qden]. lia.
    + destruct (re_search NLPParser.RE_ANY_NUMBER text); [| discriminate].
      intros H. injection H as <-. apply float_of_str_nonneg.
  - cbn [NLPParser.truthy].
    destruct (re_search NLPParser.RE_ANY_NUMBER text); [| discriminate].
    intros H. injection H as <-. apply float_of_str_nonneg.
Qed.

(** The amount of a record, when there is one, is strictly positive. *)
Theorem parse_amount_positive
        (cut : str -> list str) (today : date) (text : str) (r : ParsedRecord)
        (v : float) :
  NLPParser.parse cut today text = Ok r ->
  r_amount r = Some v ->
  (0 < v)%Q.
Proof.
  intros H Hv. unfold NLPParser.parse in H. cbv zeta in H.
  apply bind_ok in H as (amount & Ha & H).
  destruct (NLPParser.truthy amount) eqn:T; cbv beta iota zeta in H;
    apply bind_ok in H as (parsed_date & _ & H);
    destruct parsed_date; cbv beta iota zeta in H;
    destruct (NLPParser._extract_category cut text);
    cbv beta iota zeta in H; injection H as <-; cbn [r_amount] in Hv;
    try discriminate; subst amount;
    pose proof (extract_amount_nonneg text v Ha) as N;
    cbn [NLPParser.truthy] in T; unfold float_truthy in T;
    apply negb_true_iff in T;
    (destruct (Qlt_le_dec 0 v) as [P | P]; [exact P |]);
    assert (E : (v == 0)%Q) by (apply Qle_antisym; assumption);
    apply Qeq_bool_iff in E; congruence.
Qed.

Lemma parse_amount_positive_witness : (0 < 120)%Q.
Proof.
  assert (E : NLPParser.parse (table_cut EXAMPLE_WORDS) (mkdate 2024 3 15)
                (utf8 "午餐 120 元")
              = Ok (mkRecord (Some 120%Q) Expense (utf8 "餐飲") (mkdate 2024 3 15)
                             (utf8 "午餐") (4 # 5)%Q (utf8 "午餐 120 元")))
    by (vm_compute; reflexivity).
  exact (parse_amount_positive _ _ _ _ 120%Q E eq_refl).
Defined.

(* ================================================================== *)
(** ** The exceptions of the parsers *)

Lemma only_overflow_ok {A : Type} (a : A) : raises_only_overflow (Ok a).
Proof. intros e H. discriminate. Qed.

Lemma only_overflow_raise {A : Type} : raises_only_overflow (A := A) (Raise OverflowError).
Proof. intros e H. now injection H as <-. Qed.

Lemma only_overflow_bind {A B : Type} (m : result A) (f : A -> result B) :
  raises_only_overflow m ->
  (forall a, m = Ok a -> raises_only_overflow (f a)) ->
  raises_only_overflow (bind m f).
Proof.
  intros Hm Hf e. destruct m as [a | e']; cbn [bind].
  - exact (Hf a eq_refl e).
  - intros H. injection H as <-. exact (Hm e' eq_refl).
Qed.

Lemma only_overflow_timedelta (n : Z) : raises_only_overflow (timedelta n).
Proof.
  unfold timedelta. destruct (Z.abs n <=? 999999999);
    [apply only_overflow_ok | apply only_overflow_raise].
Qed.

Lemma only_overflow_date_add (d : date) (n : Z) : raises_only_overflow (date_add d n).
Proof.
  unfold date_add. destruct ((0 <? toordinal d + n) && (toordinal d + n <=? MAXORDINAL));
    [apply only_overflow_ok | apply only_overflow_raise].
Qed.

Lemma only_overflow_minus_days (d : date) (n : Z) : raises_only_overflow (minus_days d n).
Proof.
  unfold minus_days. apply only_overflow_bind; [apply only_overflow_timedelta |].
  intros delta _. apply only_overflow_date_add.
Qed.

Lemma only_overflow_plus_days (d : date) (n : Z) : raises_only_overflow (plus_days d n).
Proof.
  unfold plus_days. apply only_overflow_bind; [apply only_overflow_timedelta |].
  intros delta _. apply only_overflow_date_add.
Qed.

(** [replace] and the constructor raise [ValueError] or [OverflowError]:
    under [except ValueError] only the second gets out. *)
Lemma date_new_raises (y m d : Z) (e : exn) : date_new y m d = Raise e -> e = ValueError.
Proof. unfold date_new. destruct (valid_date _); [discriminate | now intros H; injection H]. Qed.

Lemma c_int_raises (n : Z) (e : exn) : c_int n = Raise e -> e = OverflowError.
Proof. unfold c_int. destruct (_ && _); [discriminate | now intros H; injection H]. Qed.

Lemma replace_day_raises (d : date) (n : Z) (e : exn) :
  replace_day d n = Raise e -> e = ValueError \/ e = OverflowError.
Proof.
  unfold replace_day. destruct (c_int n) as [n' | e'] eqn:C; cbn [bind].
  - intros H. left. now apply date_new_raises in H.
  - intros H. injection H as <-. right. now apply c_int_raises in C.
Qed.

Lemma date_of_ints_raises (y m d : Z) (e : exn) :
  date_of_ints y m d = Raise e -> e = ValueError \/ e = OverflowError.
Proof.
  unfold date_of_ints.
  destruct (c_int y) as [y' | e1] eqn:C1; cbn [bind];
    [| intros H; injection H as <-; right; now apply c_int_raises in C1].
  destruct (c_int m) as [m' | e2] eqn:C2; cbn [bind];
    [| intros H; injection H as <-; right; now apply c_int_raises in C2].
  destruct (c_int d) as [d' | e3] eqn:C3; cbn [bind];
    [| intros H; injection H as <-; right; now apply c_int_raises in C3].
  intros H. left. now apply date_new_raises in H.
Qed.

Lemma only_overflow_try {A : Type} (body handler : result A) :
  (forall e, body = Raise e -> e = ValueError \/ e = OverflowError) ->
  raises_only_overflow handler ->
  raises_only_overflow (try_ValueError body handler).
Proof.
  intros Hb Hh e. unfold try_ValueError.
  destruct body as [a | e']; [discriminate |].
  destruct (Hb e' eq_refl) as [-> | ->]; [apply Hh | now intros H; injection H].
Qed.

Lemma bind_raises {A B : Type} (m : result A) (f : A -> result B) (e : exn) (P : exn -> Prop) :
  (forall e, m = Raise e -> P e) ->
  (forall a e, f a = Raise e -> P e) ->
  bind m f = Raise e -> P e.
Proof.
  intros Hm Hf. destruct m as [a | e']; cbn [bind]; [apply Hf |].
  intros H. injection H as <-. now apply Hm.
Qed.

(** A match of the weekday pattern has a week word and a day word that
    the two tables know. *)
Lemma weekday_match_here (pos : nat) (s : str) (m : rmatch_obj) :
  match_here DateParser.RE_WEEKDAY pos s = Some m ->
  (exists off, dict_index DateParser.WEEK_OFFSET (group_text m 1) = Ok off) /\
  (exists target, dict_index DateParser.WEEKDAY_MAP (group_text m 2) = Ok target).
Proof.
  unfold match_here, DateParser.RE_WEEKDAY, cls.
  replace (utf8 "上") with [19978] by (vm_compute; reflexivity).
  replace (utf8 "這") with [36889] by (vm_compute; reflexivity).
  replace (utf8 "下") with [19979] by (vm_compute; reflexivity).
  replace (utf8 "週") with [36913] by (vm_compute; reflexivity).
  cbn [lit fold_right rmatch].
  destruct s as [| a [| b [| c rest]]];
    repeat match goal with
           | |- context [if ?x then _ else _] => destruct x eqn:?
           end;
    try discriminate;
    intros H; injection H as <-;
    unfold group_text, group; cbn [m_groups lookup_group Nat.eqb];
    change (a :: b :: c :: rest) with ([a] ++ b :: c :: rest);
    rewrite ?firstn_app_length;
    repeat match goal with
           | E : (_ =? _) = true |- _ => apply Z.eqb_eq in E; subst
           end.
  all: repeat match goal with
             | |- context [firstn ?n _] =>
               lazymatch n with
               | 1%nat => fail
               | _ => replace n with 1%nat by (destruct (length rest); lia)
               end
             end.
  all: cbn [firstn app].
  all: split; [eexists; vm_compute; reflexivity |].
  all: match goal with
       | E : in_class _ _ = true |- _ =>
         apply in_class_cases in E; vm_compute in E;
         decompose [or] E; subst; try contradiction;
         eexists; vm_compute; reflexivity
       end.
Qed.

Lemma weekday_search (s : str) (m : rmatch_obj) :
  forall pos, search_from DateParser.RE_WEEKDAY pos s = Some m ->
  (exists off, dict_index DateParser.WEEK_OFFSET (group_text m 1) = Ok off) /\
  (exists target, dict_index DateParser.WEEKDAY_MAP (group_text m 2) = Ok target).
Proof.
  induction s as [| c s IH]; intros pos; cbn [search_from].
  - destruct (match_here DateParser.RE_WEEKDAY pos []) eqn:M; [| discriminate].
    intros H. injection H as <-. now apply weekday_match_here in M.
  - destruct (match_here DateParser.RE_WEEKDAY pos (c :: s)) eqn:M; [| apply IH].
    intros H. injection H as <-. now apply weekday_match_here in M.
Qed.

(** The date resolver raises nothing but [OverflowError]. *)
Lemma date_resolver_only_overflow (today : date) (text : str) :
  valid_date today = true ->
  raises_only_overflow (DateParser.parse today text).
Proof.
  intros V. unfold DateParser.parse, DateParser.parse_full_date. cbv zeta.
  assert (Full : raises_only_overflow
                   match re_search DateParser.RE_FULL_DATE (strip text) with
                   | Some m =>
                     try_ValueError
                       (let* r := date_of_ints (int_of_digits (group_text m 1))
                                    (int_of_digits (group_text m 2))
                                    (int_of_digits (group_text m 3)) in Ok (Some r))
                       (Ok None)
                   | None => Ok None
                   end).
  { destruct (re_search DateParser.RE_FULL_DATE (strip text)); [| apply only_overflow_ok].
    apply only_overflow_try; [| apply only_overflow_ok].
    intros e. apply (bind_raises _ _ e (fun e => e = ValueError \/ e = OverflowError));
      [apply date_of_ints_raises | discriminate]. }
  repeat match goal with
         | |- raises_only_overflow (if ?c then _ else _) => destruct c
         end;
    try apply only_overflow_ok;
    try (apply only_overflow_bind;
         [first [apply only_overflow_minus_days | apply only_overflow_plus_days]
         | intros; apply only_overflow_ok]).
  destruct (re_search DateParser.RE_DAYS_AGO (strip text)).
  { apply only_overflow_bind; [apply only_overflow_minus_days | intros; apply only_overflow_ok]. }
  destruct (re_search DateParser.RE_WEEKDAY (strip text)) as [m |] eqn:W.
  { apply weekday_search in W as [(off & Eo) (target & Et)]. rewrite Eo, Et. cbn [bind].
    apply only_overflow_bind; [apply only_overflow_plus_days | intros; apply only_overflow_ok]. }
  destruct (re_search DateParser.RE_LAST_MONTH (strip text)).
  { destruct (replace_day_first today V) as (E1 & V1 & _). rewrite E1. cbn [bind].
    apply only_overflow_bind; [apply only_overflow_minus_days |]. intros last _.
    apply only_overflow_bind; [| intros; apply only_overflow_ok].
    apply only_overflow_try; [apply replace_day_raises | apply only_overflow_ok]. }
  destruct (re_search DateParser.RE_THIS_MONTH (strip text)).
  { apply only_overflow_bind; [| intros; apply only_overflow_ok].
    apply only_overflow_try; [apply replace_day_raises | apply only_overflow_ok]. }
  destruct (re_search DateParser.RE_MONTH_DAY (strip text)); [| exact Full].
  apply only_overflow_try; [| exact Full].
  intros e. apply (bind_raises _ _ e (fun e => e = ValueError \/ e = OverflowError));
      [apply date_of_ints_raises | discriminate].
Qed.



Lemma only_overflow_extract_amount (text : str) :
  raises_only_overflow (NLPParser._extract_amount text).
Proof.
  unfold NLPParser._extract_amount.
  destruct (NLPParser.first_pattern_amount _ text); [apply only_overflow_ok |].
  apply only_overflow_bind.
  - unfold NLPParser._extract_chinese_amount.
    destruct (re_search NLPParser.RE_CHINESE_AMOUNT text); [| apply only_overflow_ok].
    apply only_overflow_bind; [| intros; apply only_overflow_ok].
    unfold NLPParser._chinese_to_number, float_of_int.
    destruct (Z.abs _ <? _); [apply only_overflow_ok | apply only_overflow_raise].
  - intros ca _. destruct (NLPParser.truthy ca); [apply only_overflow_ok |].
    destruct (re_search NLPParser.RE_ANY_NUMBER text); apply only_overflow_ok.
Qed.

(** On a text of at most 4300 characters (so that every run of digits in
    it can be converted by [int]), the date resolver and [parse] raise
    nothing but [OverflowError]: no [ValueError] gets past the [except]
    clauses, and the two table lookups of the weekday rule never miss. *)
Theorem parsers_raise_only_overflow (today : date) (text : str) :
  valid_date today = true ->
  (length text <= 4300)%nat ->
  raises_only_overflow (DateParser.parse today text) /\
  forall cut, raises_only_overflow (NLPParser.parse cut today text).
Proof.
  intros V _. split; [now apply date_resolver_only_overflow |].
  intros cut. unfold NLPParser.parse. cbv zeta.
  apply only_overflow_bind; [apply only_overflow_extract_amount |]. intros amount _.
  destruct (NLPParser.truthy amount); cbv beta iota zeta;
    (apply only_overflow_bind; [now apply date_resolver_only_overflow |]);
    intros parsed_date _; destruct parsed_date; cbv beta iota zeta;
    destruct (NLPParser._extract_category cut text); cbv beta iota zeta;
    apply only_overflow_ok.
Qed.

Lemma parsers_raise_only_overflow_witness :
  DateParser.parse (mkdate 2024 3 15) (utf8 "1000000天前") = Raise OverflowError.
Proof.
  assert (E : exists e, DateParser.parse (mkdate 2024 3 15) (utf8 "1000000天前") = Raise e)
    by (eexists; vm_compute; reflexivity).
  destruct E as [e E]. rewrite E. f_equal.
  assert (L : (length (utf8 "1000000天前") <= 4300)%nat) by (vm_compute; lia).
  exact (proj1 (parsers_raise_only_overflow (mkdate 2024 3 15) (utf8 "1000000天前")
                  eq_refl L) e E).
Defined.

(* ================================================================== *)
(** ** Walking back by months *)

Lemma date_sub_ok (d : date) (n : Z) (x : date) :
  date_sub d n = Ok x -> valid_date x = true /\ toordinal x = toordinal d - n.
Proof.
  unfold date_sub, date_add.
  destruct ((0 <? toordinal d + - n) && (toordinal d + - n <=? MAXORDINAL)) eqn:R;
    [| discriminate].
  intros H. injection H as <-.
  apply andb_true_iff in R as [R1 R2]. apply Z.ltb_lt in R1. apply Z.leb_le in R2.
  destruct (fromordinal_spec (toordinal d + - n) ltac:(lia)) as [V O].
  split; [exact V | lia].
Qed.

Lemma month_start_valid (i : Z) :
  12 <= i <= 119999 -> valid_date (month_start i) = true.
Proof.
  intros H. apply valid_date_iff. unfold month_start. cbn [year month day].
  pose proof (days_in_month_bounds (i / 12) (i mod 12 + 1)).
  Z.div_mod_to_equations. lia.
Qed.

Lemma month_start_index (d : date) :
  valid_date d = true -> day d = 1 -> month_start (month_index d) = d.
Proof.
  intros V D. apply valid_date_iff in V as (Y & M & _).
  unfold month_start, month_index. destruct d as [y m n]. cbn [year month day] in *.
  subst n. f_equal; Z.div_mod_to_equations; lia.
Qed.

(** One turn of the loop: from the first day of a month to the first day
    of the month before; from 0001-01-01 there is no way back. *)
Lemma months_back_step (i : Z) :
  12 <= i <= 119999 ->
  (let* d := date_sub (month_start i) 1 in replace_day d 1)
  = if i =? 12 then Raise OverflowError else Ok (month_start (i - 1)).
Proof.
  intros H. pose proof (month_start_valid i H) as V.
  destruct (Z.eqb_spec i 12) as [-> | N].
  - vm_compute. reflexivity.
  - assert (NJ : year (month_start i) = 1 -> month (month_start i) <> 1).
    { unfold month_start. cbn [year month]. Z.div_mod_to_equations. lia. }
    destruct (toordinal_previous_month_end _ V NJ) as [Vp Op].
    replace (mkdate (year (month_start i)) (month (month_start i)) 1)
      with (month_start i) in Op by reflexivity.
    pose proof (toordinal_range _ Vp) as Rp.
    assert (E : date_sub (month_start i) 1 = Ok (previous_month_end (month_start i))).
    { unfold date_sub, date_add.
      replace ((0 <? toordinal (month_start i) + - (1)) &&
               (toordinal (month_start i) + - (1) <=? MAXORDINAL)) with true
        by (symmetry; apply andb_true_iff; rewrite Z.ltb_lt, Z.leb_le;
            pose proof (toordinal_range _ V); lia).
      f_equal. rewrite <- (fromordinal_toordinal _ Vp). f_equal. lia. }
    rewrite E. cbn [bind].
    destruct (replace_day_first _ Vp) as (E1 & _ & _). rewrite E1. f_equal.
    unfold previous_month_end, month_start. cbn [year month day].
    destruct (Z.eqb_spec (i mod 12 + 1) 1); f_equal; Z.div_mod_to_equations; lia.
Qed.

Lemma months_back_unfold (n : nat) (d : date) :
  NLPParser.months_back (S n) timedelta d
  = (let* x := (let* y := date_sub d 1 in replace_day y 1) in
     NLPParser.months_back n timedelta x).
Proof.
  cbn [NLPParser.months_back]. change (timedelta 1) with (Ok (A := Z) 1). cbn [bind].
  destruct (date_sub d 1); cbn [bind]; reflexivity.
Qed.

(** The month walk, by month index. *)
Lemma months_back_index (n : nat) (i : Z) :
  12 <= i <= 119999 ->
  NLPParser.months_back n timedelta (month_start i)
  = if 12 <=? i - Z.of_nat n then Ok (month_start (i - Z.of_nat n))
    else Raise OverflowError.
Proof.
  revert i. induction n as [| n IH]; intros i H.
  - cbn [NLPParser.months_back Z.of_nat]. rewrite Z.sub_0_r.
    replace (12 <=? i) with true by (symmetry; apply Z.leb_le; lia). reflexivity.
  - rewrite months_back_unfold, (months_back_step i H).
    destruct (Z.eqb_spec i 12) as [-> | N]; cbn [bind].
    + replace (12 <=? 12 - Z.of_nat (S n)) with false by (symmetry; apply Z.leb_gt; lia).
      reflexivity.
    + rewrite IH by lia.
      replace (i - 1 - Z.of_nat n) with (i - Z.of_nat (S n)) by lia. reflexivity.
Qed.

(** The loop [for _ in range(n): start = (start - timedelta(days=1)).replace(day=1)]
    started on the first day of a month ends on the first day of the month
    [n] months earlier; it raises [OverflowError] when that month would lie
    before January of year 1. *)
Theorem months_back_spec (n : nat) (d : date) :
  valid_date d = true -> day d = 1 ->
  NLPParser.months_back n timedelta d
  = if 12 <=? month_index d - Z.of_nat n
    then Ok (month_start (month_index d - Z.of_nat n))
    else Raise OverflowError.
Proof.
  intros V D. rewrite <- (month_start_index d V D) at 1.
  apply months_back_index.
  apply valid_date_iff in V as (Y & M & _). unfold month_index. lia.
Qed.

(** Fourteen months before March 2024 is January 2023. *)
Lemma months_back_spec_witness :
  NLPParser.months_back 14 timedelta (mkdate 2024 3 1) = Ok (mkdate 2023 1 1).
Proof.
  exact (months_back_spec 14 (mkdate 2024 3 1) eq_refl eq_refl).
Defined.

Lemma months_back_valid (n : nat) (d x : date) :
  valid_date d = true -> day d = 1 ->
  NLPParser.months_back n timedelta d = Ok x ->
  valid_date x = true /\ day x = 1.
Proof.
  intros V D. rewrite <- (month_start_index d V D).
  assert (R : 12 <= month_index d <= 119999).
  { apply valid_date_iff in V as (Y & M & _). unfold month_index. lia. }
  rewrite (months_back_index n _ R).
  destruct (12 <=? month_index d - Z.of_nat n) eqn:L; [| discriminate].
  intros H. injection H as <-. apply Z.leb_le in L.
  split; [apply month_start_valid; lia | reflexivity].
Qed.

Lemma months_back_only_overflow (n : nat) (d : date) :
  valid_date d = true -> day d = 1 ->
  raises_only_overflow (NLPParser.months_back n timedelta d).
Proof.
  intros V D. rewrite <- (month_start_index d V D).
  assert (R : 12 <= month_index d <= 119999).
  { apply valid_date_iff in V as (Y & M & _). unfold month_index. lia. }
  rewrite (months_back_index n _ R).
  destruct (12 <=? _); [apply only_overflow_ok | apply only_overflow_raise].
Qed.

(* ================================================================== *)
(** ** More on the query parser *)

(** The exceptions of [parse_query], on a text of at most 4300 characters
    (so that every run of digits in it can be converted by [int]): it
    raises [UnboundLocalError] exactly for the texts that name this week
    (這週, 本週) or last month (上個月, 上月) without naming today (今天, 今日),
    and otherwise nothing but [OverflowError]. *)
Theorem parse_query_exceptions (today : date) (text : str) :
  valid_date today = true ->
  (length text <= 4300)%nat ->
  (NLPParser.parse_query today text = Raise UnboundLocalError <->
   reads_timedelta text = true) /\
  (forall e, NLPParser.parse_query today text = Raise e ->
             e = UnboundLocalError \/ e = OverflowError).
Proof.
  intros V _. unfold NLPParser.parse_query, reads_timedelta. cbv zeta.
  destruct (replace_day_first today V) as (E1 & V1 & _).
  destruct (replace_month_day_first today V) as (E2 & _).
  rewrite E1, E2. cbn [bind load_local].
  match goal with
  | |- context [@bind ParsedQuery ParsedQuery ?c ?k] => set (K := k); set (C := c)
  end.
  assert (HK : forall r, raises_only_overflow (K r)).
  { intros r. subst K. cbv beta.
    apply only_overflow_bind; [| intros; apply only_overflow_ok].
    destruct (re_search NLPParser.RE_MONTHS text); [| apply only_overflow_ok].
    apply only_overflow_bind; [| intros; apply only_overflow_ok].
    now apply months_back_only_overflow. }
  assert (HKU : forall r, K r <> Raise UnboundLocalError).
  { intros r H. apply HK in H. discriminate. }
  clearbody K. subst C.
  destruct (contains (utf8 "今天") text || contains (utf8 "今日") text);
    cbn [negb andb bind].
  { split; [split; [intros H; now apply HKU in H | discriminate] |].
    intros e H. right. now apply HK in H. }
  destruct (contains (utf8 "這週") text || contains (utf8 "本週") text);
    cbn [orb bind].
  { split; [tauto |]. intros e H. injection H as <-. now left. }
  destruct (contains (utf8 "上個月") text || contains (utf8 "上月") text);
    cbn [orb bind].
  { split; [tauto |]. intros e H. injection H as <-. now left. }
  assert (G : forall r,
            (K r = Raise UnboundLocalError <-> false = true) /\
            (forall e, K r = Raise e -> e = UnboundLocalError \/ e = OverflowError)).
  { intros r. split; [split; [intros H; now apply HKU in H | discriminate] |].
    intros e H. right. now apply HK in H. }
  destruct (contains (utf8 "這個月") text || contains (utf8 "本月") text);
    cbn [bind]; [apply G |].
  destruct (contains (utf8 "今年") text); cbn [bind]; apply G.
Qed.

Lemma parse_query_exceptions_witness :
  NLPParser.parse_query (mkdate 2024 3 15) (utf8 "這週花了多少") = Raise UnboundLocalError.
Proof.
  assert (L : (length (utf8 "這週花了多少") <= 4300)%nat) by (vm_compute; lia).
  apply (proj1 (parse_query_exceptions (mkdate 2024 3 15) (utf8 "這週花了多少") eq_refl L)).
  vm_compute. reflexivity.
Defined.

(** Every query that [parse_query] returns ends today, and starts today
    or on the first day of a month. *)
Theorem parse_query_ends_today (today : date) (text : str) (q : ParsedQuery) :
  valid_date today = true ->
  NLPParser.parse_query today text = Ok q ->
  q_end_date q = today /\ (q_start_date q = today \/ day (q_start_date q) = 1).
Proof.
  intros V H. unfold NLPParser.parse_query in H. cbv zeta in H.
  destruct (replace_day_first today V) as (E1 & V1 & _).
  destruct (replace_month_day_first today V) as (E2 & _).
  rewrite E1, E2 in H. cbn [bind load_local] in H.
  apply bind_ok in H as (r1 & H1 & H).
  apply bind_ok in H as (r2 & H2 & H).
  injection H as <-. cbn [q_start_date q_end_date].
  assert (I1 : q_end_date r1 = today /\
               (q_start_date r1 = today \/ day (q_start_date r1) = 1)).
  { repeat match type of H1 with
           | (if ?c then _ else _) = _ => destruct c
           end;
      try discriminate; injection H1 as <-; cbn [q_start_date q_end_date day];
      auto. }
  destruct I1 as [I1e I1s].
  assert (I2 : q_end_date r2 = today /\
               (q_start_date r2 = today \/ day (q_start_date r2) = 1)).
  { destruct (re_search NLPParser.RE_MONTHS text) as [m |].
    - apply bind_ok in H2 as (s & Hs & H2). injection H2 as <-.
      cbn [q_start_date q_end_date]. split; [exact I1e | right].
      now apply (months_back_valid _ _ _ V1 eq_refl Hs).
    - injection H2 as <-. auto. }
  destruct (NLPParser.first_category_in text); cbn [q_start_date q_end_date];
    exact I2.
Qed.

Lemma parse_query_ends_today_witness :
  exists q,
    NLPParser.parse_query (mkdate 2024 3 15) (utf8 "今年餐飲比例") = Ok q /\
    q_start_date q = mkdate 2024 1 1 /\
    q_end_date q = mkdate 2024 3 15.
Proof.
  assert (E : NLPParser.parse_query (mkdate 2024 3 15) (utf8 "今年餐飲比例")
              = Ok (mkQuery QCategory (Some (utf8 "餐飲")) PYear
                      (mkdate 2024 1 1) (mkdate 2024 3 15) (Some ChartPie)))
    by (vm_compute; reflexivity).
  eexists. split; [exact E |]. split; [reflexivity |].
  exact (proj1 (parse_query_ends_today (mkdate 2024 3 15) (utf8 "今年餐飲比例") _
                  eq_refl E)).
Defined.

(** A plain "N months" query. *)
Lemma parse_query_months (today : date) (text : str) (n : Z) :
  valid_date today = true ->
  months_rule text n = true ->
  NLPParser.parse_query today text
  = (let* start := NLPParser.months_back (Z.to_nat (n - 1)) timedelta
                     (mkdate (year today) (month today) 1) in
     Ok (mkQuery QSummary None PMonth start today None)).
Proof.
  intros V R. unfold months_rule in R.
  repeat (apply andb_true_iff in R as [R ?]).
  repeat match goal with
         | H : negb _ = true |- _ => apply negb_true_iff in H
         end.
  unfold NLPParser.parse_query. cbv zeta.
  destruct (replace_day_first today V) as (E1 & _ & _). rewrite E1. cbn [bind].
  repeat match goal with
         | H : _ = false |- _ => rewrite H
         end.
  cbn [bind].
  destruct (NLPParser.first_category_in text); [discriminate |].
  destruct (re_search NLPParser.RE_MONTHS text) as [m |]; [| discriminate].
  match goal with H : (_ =? n) = true |- _ => apply Z.eqb_eq in H; rewrite H end.
  cbn [load_local bind].
  destruct (NLPParser.months_back _ _ _); reflexivity.
Qed.


Lemma months_rule_1_99 (n : Z) :
  1 <= n <= 99 ->
  months_rule (utf8 "近" ++ arabic_numeral n ++ utf8 "個月") n = true /\
  months_rule (utf8 "近" ++ chinese_numeral n ++ utf8 "個月") (months_of_chinese n) = true.
Proof.
  intros H.
  assert (A : forall_range 99 1 (fun k =>
                months_rule (utf8 "近" ++ arabic_numeral k ++ utf8 "個月") k &&
                months_rule (utf8 "近" ++ chinese_numeral k ++ utf8 "個月")
                  (months_of_chinese k)) = true)
    by (vm_compute; reflexivity).
  apply andb_true_iff. apply (forall_range_spec _ _ _ A). lia.
Qed.

(** "近N個月", for N from 1 to 99: the query is a monthly summary that ends
    today and starts on the first day of the month [n - 1] months before
    today's, where [n] is N itself when N is written in digits or as a
    Chinese numeral of one character (一 to 十), and 3 when it is written as
    a longer Chinese numeral (十一, 二十, ...).  (The starting month must
    exist in the calendar.) *)
Theorem recent_months_query (today : date) (N n : Z) (text : str) :
  valid_date today = true ->
  1 <= N <= 99 ->
  (text = utf8 "近" ++ arabic_numeral N ++ utf8 "個月" /\ n = N) \/
  (text = utf8 "近" ++ chinese_numeral N ++ utf8 "個月" /\ n = months_of_chinese N) ->
  12 <= month_index today - (n - 1) ->
  NLPParser.parse_query today text
  = Ok (mkQuery QSummary None PMonth
                (month_start (month_index today - (n - 1))) today None).
Proof.
  intros V HN Ht Hi.
  destruct (months_rule_1_99 N HN) as [Ra Rc].
  assert (R : months_rule text n = true)
    by (destruct Ht as [[-> ->] | [-> ->]]; assumption).
  assert (Hn : 1 <= n).
  { destruct Ht as [[_ ->] | [_ ->]]; [lia |].
    unfold months_of_chinese. destruct (N <=? 10); lia. }
  rewrite (parse_query_months today text n V R).
  destruct (replace_day_first today V) as (_ & V1 & _).
  rewrite <- (month_start_index _ V1 eq_refl).
  change (month_index (mkdate (year today) (month today) 1)) with (month_index today).
  assert (Ri : 12 <= month_index today <= 119999).
  { apply valid_date_iff in V as (Y & M & _). unfold month_index. lia. }
  rewrite (months_back_index _ _ Ri), Z2Nat.id by lia.
  replace (12 <=? month_index today - (n - 1)) with true
    by (symmetry; apply Z.leb_le; lia).
  reflexivity.
Qed.

(** "近3個月" on 2024-03-15 starts on 2024-01-01; so does "近十二個月". *)
Lemma recent_months_query_witness :
  NLPParser.parse_query (mkdate 2024 3 15) (utf8 "近3個月")
  = Ok (mkQuery QSummary None PMonth (mkdate 2024 1 1) (mkdate 2024 3 15) None) /\
  NLPParser.parse_query (mkdate 2024 3 15) (utf8 "近十二個月")
  = Ok (mkQuery QSummary None PMonth (mkdate 2024 1 1) (mkdate 2024 3 15) None).
Proof.
  split.
  - apply (recent_months_query (mkdate 2024 3 15) 3 3 (utf8 "近3個月")).
    + reflexivity.
    + lia.
    + left. split; [vm_compute; reflexivity | reflexivity].
    + vm_compute. discriminate.
  - apply (recent_months_query (mkdate 2024 3 15) 12 3 (utf8 "近十二個月")).
    + reflexivity.
    + lia.
    + right. split; [vm_compute; reflexivity | reflexivity].
    + vm_compute. discriminate.
Defined.

(* ================================================================== *)
(** ** More on the date resolver *)

Lemma plus_days_ok (d : date) (n : Z) :
  valid_date d = true -> Z.abs n <= 999999999 ->
  0 < toordinal d + n <= MAXORDINAL ->
  exists d', plus_days d n = Ok d' /\ valid_date d' = true /\
             toordinal d' = toordinal d + n.
Proof.
  intros V Hn Ho. unfold plus_days, timedelta.
  replace (Z.abs n <=? 999999999) with true by (symmetry; apply Z.leb_le; lia).
  cbn [bind]. unfold date_add.
  replace ((0 <? toordinal d + n) && (toordinal d + n <=? MAXORDINAL)) with true
    by (symmetry; apply andb_true_iff; rewrite Z.ltb_lt, Z.leb_le; lia).
  exists (fromordinal (toordinal d + n)). split; [reflexivity |].
  apply fromordinal_spec. lia.
Qed.

(** The weekday rule. *)
Lemma parse_weekday (today : date) (text : str) (off target : Z) :
  weekday_rule text off target = true ->
  DateParser.parse today text
  = (let* d := plus_days today (target - weekday today + off * 7) in Ok (Some d)).
Proof.
  unfold weekday_rule. intros H. apply andb_true_iff in H as [M R].
  apply no_literal_marker_true in M as (M1 & M2 & M3 & M4 & M5).
  unfold DateParser.parse. cbv zeta. rewrite M1, M2, M3, M4, M5.
  destruct (re_search DateParser.RE_DAYS_AGO (strip text)); [discriminate |].
  destruct (re_search DateParser.RE_WEEKDAY (strip text)) as [m |]; [| discriminate].
  unfold dict_index.
  destruct (dict_get DateParser.WEEK_OFFSET (group_text m 1)) as [o |]; [| discriminate].
  destruct (dict_get DateParser.WEEKDAY_MAP (group_text m 2)) as [t |]; [| discriminate].
  apply andb_true_iff in R as [Ro Rt]. apply Z.eqb_eq in Ro, Rt. subst. reflexivity.
Qed.

Lemma dict_get_key {V : Type} (d : list (str * V)) (k : str) (v : V) :
  dict_get d k = Some v -> In (k, v) d.
Proof.
  induction d as [| [k' v'] d IH]; cbn [dict_get In]; [discriminate |].
  destruct (str_eqb k' k) eqn:E; [| auto].
  intros H. injection H as ->. left. apply str_eqb_eq in E. now subst.
Qed.

Lemma weekday_rule_all (w d : str) (off target : Z) :
  dict_get DateParser.WEEK_OFFSET w = Some off ->
  dict_get DateParser.WEEKDAY_MAP d = Some target ->
  weekday_rule (w ++ utf8 "週" ++ d) off target = true /\
  -1 <= off <= 1 /\ 0 <= target <= 6.
Proof.
  intros Hw Hd. apply dict_get_key in Hw, Hd.
  vm_compute in Hw. vm_compute in Hd.
  decompose [or] Hw; try contradiction;
    decompose [or] Hd; try contradiction;
    repeat match goal with
           | H : (_, _) = (_, _) |- _ => injection H as <- <-
           end;
    (split; [vm_compute; reflexivity | lia]).
Qed.

(** "上週X", "這週X", "下週X": the date resolved has the weekday named by X
    (Monday is 0) and lies in the week before, of, or after today's week.
    (The date must exist in the calendar.) *)
Theorem weekday_rule_spec (today : date) (w d : str) (off target : Z) :
  valid_date today = true ->
  dict_get DateParser.WEEK_OFFSET w = Some off ->
  dict_get DateParser.WEEKDAY_MAP d = Some target ->
  14 <= toordinal today <= MAXORDINAL - 13 ->
  exists r,
    DateParser.parse today (w ++ utf8 "週" ++ d) = Ok (Some r) /\
    valid_date r = true /\
    weekday r = target /\
    toordinal r - weekday r = toordinal today - weekday today + 7 * off.
Proof.
  intros V Hw Hd Ho.
  destruct (weekday_rule_all w d off target Hw Hd) as (R & Boff & Bt).
  rewrite (parse_weekday today _ off target R).
  assert (Bw : 0 <= weekday today <= 6)
    by (unfold weekday; Z.div_mod_to_equations; lia).
  destruct (plus_days_ok today (target - weekday today + off * 7) V
              ltac:(lia) ltac:(lia)) as (r & E & Vr & Or).
  exists r. rewrite E. cbn [bind]. split; [reflexivity |]. split; [exact Vr |].
  assert (W : weekday r = target).
  { unfold weekday in *. rewrite Or. Z.div_mod_to_equations. lia. }
  split; [exact W | lia].
Qed.

(** "上週五" on Friday 2024-03-15 is Friday 2024-03-08. *)
Lemma weekday_rule_spec_witness :
  (exists r,
     DateParser.parse (mkdate 2024 3 15) (utf8 "上週五") = Ok (Some r) /\
     valid_date r = true /\ weekday r = 4 /\
     toordinal r - weekday r
     = toordinal (mkdate 2024 3 15) - weekday (mkdate 2024 3 15) + 7 * -1) /\
  DateParser.parse (mkdate 2024 3 15) (utf8 "上週五") = Ok (Some (mkdate 2024 3 8)).
Proof.
  split; [| vm_compute; reflexivity].
  assert (E : utf8 "上週五" = utf8 "上" ++ utf8 "週" ++ utf8 "五")
    by (vm_compute; reflexivity).
  rewrite E.
  apply (weekday_rule_spec (mkdate 2024 3 15) (utf8 "上") (utf8 "五") (-1) 4).
  - reflexivity.
  - vm_compute. reflexivity.
  - vm_compute. reflexivity.
  - vm_compute. split; discriminate.
Defined.

(* ================================================================== *)
(** ** The periods of the analytics and export routes *)

Lemma date_leb_iff (a b : date) :
  date_leb a b = true <->
  year a < year b \/
  (year a = year b /\ (month a < month b \/ (month a = month b /\ day a <= day b))).
Proof.
  unfold date_leb.
  rewrite !orb_true_iff, !andb_true_iff, !orb_true_iff, !andb_true_iff,
    !Z.ltb_lt, !Z.eqb_eq, !Z.leb_le. tauto.
Qed.

Lemma c_int_ok (n : Z) : -2147483648 <= n <= 2147483647 -> c_int n = Ok n.
Proof.
  intros H. unfold c_int.
  replace ((-2147483648 <=? n) && (n <=? 2147483647)) with true; [reflexivity |].
  symmetry. apply andb_true_iff. rewrite !Z.leb_le. lia.
Qed.

Lemma date_new_ok (y m d : Z) :
  valid_date (mkdate y m d) = true -> date_new y m d = Ok (mkdate y m d).
Proof. intros V. unfold date_new. now rewrite V. Qed.

Lemma minus_days_weekday (d : date) :
  valid_date d = true ->
  exists s, minus_days d (weekday d) = Ok s /\ valid_date s = true /\
            toordinal s = toordinal d - weekday d.
Proof.
  intros V.
  pose proof (toordinal_range d V) as R.
  assert (W : 0 <= weekday d <= 6 /\ (toordinal d - weekday d) mod 7 = 1).
  { unfold weekday. Z.div_mod_to_equations. lia. }
  apply minus_days_ok; [exact V | lia |].
  destruct W as [W1 W2]. Z.div_mod_to_equations. lia.
Qed.

(** [get_summary]: the start of the period is computed without an
    exception for every period and every date (also in the first week of
    year 1), it is a date of the calendar and not after today; for a week
    it is the Monday of today's week, for a month the first of the month,
    for a year the first of January. *)
Theorem get_summary_start_spec (period : period_type) (today : date) :
  valid_date today = true ->
  exists start,
    Analytics.get_summary_start period today = Ok start /\
    valid_date start = true /\
    date_leb start today = true /\
    match period with
    | PDay => start = today
    | PWeek => weekday start = 0 /\ toordinal today - toordinal start = weekday today /\
               0 <= weekday today <= 6
    | PMonth => start = mkdate (year today) (month today) 1
    | PYear => start = mkdate (year today) 1 1
    end.
Proof.
  intros V. destruct period; cbn [Analytics.get_summary_start].
  - exists today. repeat split; [exact V | apply date_leb_refl].
  - destruct (minus_days_weekday today V) as (s & E & Vs & Os).
    assert (W : 0 <= weekday today <= 6)
      by (unfold weekday; Z.div_mod_to_equations; lia).
    exists s. split; [exact E |]. split; [exact Vs |].
    split; [apply date_leb_of_ordinals; [exact Vs | exact V | lia] |].
    split; [unfold weekday in *; rewrite Os; Z.div_mod_to_equations; lia |].
    split; [lia | exact W].
  - destruct (replace_day_first today V) as (E & V1 & L).
    exists (mkdate (year today) (month today) 1). auto.
  - destruct (replace_month_day_first today V) as (E & L).
    exists (mkdate (year today) 1 1). repeat split; [exact E | | exact L].
    apply valid_date_iff in V as (Y & _). apply valid_date_iff. cbn. lia.
Qed.

(** On Friday 2024-03-15 the week starts on Monday 2024-03-11. *)
Lemma get_summary_start_witness :
  Analytics.get_summary_start PWeek (mkdate 2024 3 15) = Ok (mkdate 2024 3 11) /\
  exists start,
    Analytics.get_summary_start PWeek (mkdate 2024 3 15) = Ok start /\
    valid_date start = true /\
    date_leb start (mkdate 2024 3 15) = true /\
    weekday start = 0 /\
    toordinal (mkdate 2024 3 15) - toordinal start = weekday (mkdate 2024 3 15) /\
    0 <= weekday (mkdate 2024 3 15) <= 6.
Proof.
  split; [vm_compute; reflexivity |].
  exact (get_summary_start_spec PWeek (mkdate 2024 3 15) eq_refl).
Defined.

Lemma month_start_next (j : Z) :
  12 <= j < 119999 ->
  (if month (month_start j) <? 12
   then replace_month (month_start j) (month (month_start j) + 1)
   else replace_year_month (month_start j) (year (month_start j) + 1) 1)
  = Ok (month_start (j + 1)).
Proof.
  intros H. pose proof (month_start_valid (j + 1) ltac:(lia)) as V.
  unfold month_start in *. cbn [year month day].
  destruct (Z.ltb_spec (j mod 12 + 1) 12) as [L | L].
  - unfold replace_month. cbn [year month day].
    rewrite c_int_ok by (Z.div_mod_to_equations; lia). cbn [bind].
    replace ((j + 1) / 12) with (j / 12) in * by (Z.div_mod_to_equations; lia).
    replace ((j + 1) mod 12 + 1) with (j mod 12 + 1 + 1) in *
      by (Z.div_mod_to_equations; lia).
    now apply date_new_ok.
  - unfold replace_year_month. cbn [year month day].
    rewrite c_int_ok by (Z.div_mod_to_equations; lia). cbn [bind].
    rewrite c_int_ok by lia. cbn [bind].
    replace ((j + 1) / 12) with (j / 12 + 1) in * by (Z.div_mod_to_equations; lia).
    replace ((j + 1) mod 12 + 1) with 1 in * by (Z.div_mod_to_equations; lia).
    now apply date_new_ok.
Qed.

Lemma month_start_leb (j : Z) (today : date) :
  valid_date today = true ->
  date_leb (month_start j) today = (j <=? month_index today).
Proof.
  intros V. apply valid_date_iff in V as (Y & M & D).
  apply eq_true_iff_eq. rewrite date_leb_iff, Z.leb_le.
  unfold month_start, month_index. cbn [year month day].
  Z.div_mod_to_equations. lia.
Qed.

Lemma get_trend_rows_months (today : date) (n : nat) :
  valid_date today = true -> month_index today < 119999 ->
  forall j, 12 <= j -> j + Z.of_nat n = month_index today + 1 ->
  Analytics.get_trend_rows (S n) (month_start j) today = Some (Ok (month_starts j n)).
Proof.
  intros V Hmax. induction n as [| n IH]; intros j Hj E.
  - cbn [Analytics.get_trend_rows]. rewrite (month_start_leb j today V).
    replace (j <=? month_index today) with false by (symmetry; apply Z.leb_gt; lia).
    reflexivity.
  - change (Analytics.get_trend_rows (S (S n)) (month_start j) today)
      with (if date_leb (month_start j) today then
              match (if month (month_start j) <? 12
                     then replace_month (month_start j) (month (month_start j) + 1)
                     else replace_year_month (month_start j) (year (month_start j) + 1) 1) with
              | Ok next =>
                match Analytics.get_trend_rows (S n) next today with
                | Some (Ok rows) => Some (Ok (month_start j :: rows))
                | other => other
                end
              | Raise e => Some (Raise e)
              end
            else Some (Ok [])).
    rewrite (month_start_leb j today V).
    replace (j <=? month_index today) with true by (symmetry; apply Z.leb_le; lia).
    rewrite (month_start_next j) by lia.
    rewrite (IH (j + 1)) by lia.
    unfold month_starts. cbn [seq map]. rewrite Z.add_0_r. do 3 f_equal.
    rewrite <- seq_shift, map_map. apply map_ext. intros k. f_equal. lia.
Qed.

(** [get_trend], for a number of months from 1 on (the route accepts 1 to
    12): the trend starts on the first day of the month [months - 1]
    months before today's, and the loop ends with one row for each of the
    [months] months up to today's, in order.  (The first month must exist
    in the calendar, and today's must not be the last one of year 9999,
    whose successor does not exist.) *)
Theorem get_trend_months (months : Z) (today : date) :
  valid_date today = true ->
  1 <= months ->
  12 <= month_index today - (months - 1) ->
  month_index today < 119999 ->
  exists start fuel,
    Analytics.get_trend_start months today = Ok start /\
    start = month_start (month_index today - (months - 1)) /\
    Analytics.get_trend_rows fuel start today
    = Some (Ok (month_starts (month_index today - (months - 1)) (Z.to_nat months))).
Proof.
  intros V Hm Hlo Hhi.
  exists (month_start (month_index today - (months - 1))), (S (Z.to_nat months)).
  split; [| split; [reflexivity |]].
  - unfold Analytics.get_trend_start.
    destruct (replace_day_first today V) as (E & V1 & _). rewrite E. cbn [bind].
    rewrite <- (month_start_index _ V1 eq_refl).
    change (month_index (mkdate (year today) (month today) 1)) with (month_index today).
    rewrite months_back_index by lia. rewrite Z2Nat.id by lia.
    replace (12 <=? month_index today - (months - 1)) with true
      by (symmetry; apply Z.leb_le; lia).
    reflexivity.
  - apply get_trend_rows_months; [exact V | exact Hhi | lia |].
    rewrite Z2Nat.id by lia. lia.
Qed.

(** Three months up to 2024-03-15: January, February, March 2024. *)
Lemma get_trend_months_witness :
  exists start fuel,
    Analytics.get_trend_start 3 (mkdate 2024 3 15) = Ok start /\
    start = mkdate 2024 1 1 /\
    Analytics.get_trend_rows fuel start (mkdate 2024 3 15)
    = Some (Ok [mkdate 2024 1 1; mkdate 2024 2 1; mkdate 2024 3 1]).
Proof.
  exact (get_trend_months 3 (mkdate 2024 3 15) eq_refl ltac:(lia)
           ltac:(vm_compute; discriminate) ltac:(vm_compute; reflexivity)).
Defined.

(** [export_pdf], for a year from 1 to 9998 (the route accepts 2000 to
    2100) and a month from 1 to 12: both dates are built without an
    exception, and the dates [d] with [start_date <= d < end_date] are
    exactly the dates of that month of that year. *)
Theorem export_pdf_period_spec (y m : Z) :
  1 <= y <= 9998 -> 1 <= m <= 12 ->
  exists start_date end_date,
    ImportExport.export_pdf_period y m = Ok (start_date, end_date) /\
    valid_date start_date = true /\ valid_date end_date = true /\
    forall d, valid_date d = true ->
      (date_leb start_date d = true /\ date_leb end_date d = false
       <-> year d = y /\ month d = m).
Proof.
  intros Hy Hm.
  assert (Vs : valid_date (mkdate y m 1) = true).
  { apply valid_date_iff. cbn [year month day].
    pose proof (days_in_month_bounds y m). lia. }
  set (e := if m =? 12 then mkdate (y + 1) 1 1 else mkdate y (m + 1) 1).
  assert (Ve : valid_date e = true).
  { apply valid_date_iff. unfold e. destruct (m =? 12) eqn:E; cbn [year month day].
    - pose proof (days_in_month_bounds (y + 1) 1). lia.
    - apply Z.eqb_neq in E. pose proof (days_in_month_bounds y (m + 1)). lia. }
  assert (Ee : (if m =? 12 then date_of_ints (y + 1) 1 1 else date_of_ints y (m + 1) 1)
               = Ok e).
  { unfold e in *. destruct (m =? 12); unfold date_of_ints;
      rewrite !c_int_ok by lia; cbn [bind]; now apply date_new_ok. }
  exists (mkdate y m 1), e. split; [| split; [exact Vs | split; [exact Ve |]]].
  - assert (Es : date_of_ints y m 1 = Ok (mkdate y m 1)).
    { unfold date_of_ints. rewrite !c_int_ok by lia. cbn [bind]. now apply date_new_ok. }
    unfold ImportExport.export_pdf_period. rewrite Es. cbn [bind].
    rewrite Ee. reflexivity.
  - intros d Vd. apply valid_date_iff in Vd as (Y & M & D).
    rewrite <- not_true_iff_false, !date_leb_iff. unfold e.
    destruct (Z.eqb_spec m 12); cbn [year month day]; lia.
Qed.

(** February 2024: from 2024-02-01 up to, not including, 2024-03-01. *)
Lemma export_pdf_period_witness :
  ImportExport.export_pdf_period 2024 2 = Ok (mkdate 2024 2 1, mkdate 2024 3 1) /\
  exists start_date end_date,
    ImportExport.export_pdf_period 2024 2 = Ok (start_date, end_date) /\
    valid_date start_date = true /\ valid_date end_date = true /\
    forall d, valid_date d = true ->
      (date_leb start_date d = true /\ date_leb end_date d = false
       <-> year d = 2024 /\ month d = 2).
Proof.
  split; [vm_compute; reflexivity |].
  exact (export_pdf_period_spec 2024 2 ltac:(lia) ltac:(lia)).
Defined.

(* ================================================================== *)
(** ** More on the categories *)

Lemma max_by_score_split (rest : list (str * Z)) :
  forall (pre : list (str * Z)) (b : str * Z) (mid : list (str * Z)),
  (forall e, In e pre -> snd e < snd b) ->
  (forall e, In e mid -> snd e <= snd b) ->
  exists l1 v l2,
    pre ++ b :: mid ++ rest = l1 ++ (NLPParser.max_by_score b rest, v) :: l2 /\
    snd b <= v /\
    (forall e, In e l1 -> snd e < v) /\
    (forall e, In e l2 -> snd e <= v).
Proof.
  induction rest as [| x rest IH]; intros pre b mid Hpre Hmid;
    cbn [NLPParser.max_by_score].
  - exists pre, (snd b), mid. rewrite app_nil_r, <- surjective_pairing.
    repeat split; [lia | exact Hpre | exact Hmid].
  - destruct (Z.ltb_spec (snd b) (snd x)) as [L | L].
    + destruct (IH (pre ++ b :: mid) x []) as (l1 & v & l2 & E & B & H1 & H2).
      * intros e I. apply in_app_or in I as [I | [<- | I]];
          [specialize (Hpre e I) | | specialize (Hmid e I)]; lia.
      * intros e [].
      * exists l1, v, l2. rewrite <- E, <- app_assoc. cbn [app].
        repeat split; [lia | exact H1 | exact H2].
    + destruct (IH pre b (mid ++ [x])) as (l1 & v & l2 & E & B & H1 & H2).
      * exact Hpre.
      * intros e I. apply in_app_or in I as [I | [<- | []]]; [now apply Hmid | lia].
      * exists l1, v, l2. rewrite <- E, <- app_assoc. cbn [app].
        repeat split; [exact B | exact H1 | exact H2].
Qed.

Lemma filter_split {A : Type} (f : A -> bool) (l : list A) :
  forall l1 e l2, filter f l = l1 ++ e :: l2 ->
  exists l1' l2', l = l1' ++ e :: l2' /\
                  (forall x, In x l1' -> In x l1 \/ f x = false) /\
                  (forall x, In x l2' -> In x l2 \/ f x = false).
Proof.
  induction l as [| a l IH]; intros l1 e l2 E; cbn [filter] in E.
  - destruct l1; discriminate.
  - destruct (f a) eqn:Fa.
    + destruct l1 as [| b l1]; cbn [app] in E; injection E as -> E.
      * exists [], l. split; [reflexivity |]. split; [intros x [] |].
        intros x I. destruct (f x) eqn:Fx; [left | now right].
        rewrite <- E. apply filter_In. auto.
      * destruct (IH _ _ _ E) as (l1' & l2' & -> & H1 & H2).
        exists (b :: l1'), l2'. split; [reflexivity |]. split; [| exact H2].
        intros x [<- | I]; [left; now left |].
        destruct (H1 x I); [left; now right | now right].
    + destruct (IH _ _ _ E) as (l1' & l2' & -> & H1 & H2).
      exists (a :: l1'), l2'. split; [reflexivity |]. split; [| exact H2].
      intros x [<- | I]; [now right | now apply H1].
Qed.

Lemma category_score_nonneg (words keywords : list str) :
  0 <= NLPParser.category_score words keywords.
Proof.
  unfold NLPParser.category_score.
  assert (G : forall ws s, 0 <= s ->
    0 <= fold_left (fun score word =>
           fold_left (fun score keyword =>
             if contains keyword word || contains word keyword
             then score + 1 else score) keywords score) ws s).
  { induction ws as [| w ws IH]; intros s Hs; cbn [fold_left]; [exact Hs |].
    apply IH. clear IH. revert s Hs.
    induction keywords as [| k ks IHk]; intros s Hs; cbn [fold_left]; [exact Hs |].
    apply IHk. destruct (_ || _); lia. }
  apply G. lia.
Qed.

(** [_extract_category] returns the category with the largest score, and
    among several with the largest score the one that comes first in
    [CATEGORY_KEYWORDS]; it returns [None] only when every score is
    zero. *)
Theorem best_category_first_maximum (words : list str) :
  match NLPParser.best_category words with
  | Some c =>
    exists l1 v l2,
      all_scores words = l1 ++ (c, v) :: l2 /\
      0 < v /\
      (forall e, In e l1 -> snd e < v) /\
      (forall e, In e l2 -> snd e <= v)
  | None => forall e, In e (all_scores words) -> snd e = 0
  end.
Proof.
  unfold NLPParser.best_category, NLPParser.category_scores.
  fold (all_scores words).
  assert (N : forall e, In e (all_scores words) -> 0 <= snd e).
  { intros e I. unfold all_scores in I. apply in_map_iff in I as (x & <- & _).
    apply category_score_nonneg. }
  destruct (filter (fun e => 0 <? snd e) (all_scores words)) as [| b rest] eqn:F.
  - intros e I. specialize (N e I).
    destruct (Z.ltb_spec 0 (snd e)) as [L | L]; [| lia].
    assert (I' : In e (filter (fun e => 0 <? snd e) (all_scores words)))
      by (apply filter_In; split; [exact I | now apply Z.ltb_lt]).
    rewrite F in I'. destruct I'.
  - assert (Pb : 0 < snd b).
    { assert (I : In b (filter (fun e => 0 <? snd e) (all_scores words)))
        by (rewrite F; now left).
      apply filter_In in I as [_ I]. now apply Z.ltb_lt. }
    destruct (max_by_score_split rest [] b []) as (l1 & v & l2 & E & B & H1 & H2);
      [intros e [] | intros e [] |].
    cbn [app] in E. rewrite <- F in E at 1.
    destruct (filter_split _ _ _ _ _ E) as (l1' & l2' & E' & H1' & H2').
    exists l1', v, l2'. split; [exact E' |]. split; [lia |].
    assert (Sub1 : forall x, In x l1' -> In x (all_scores words))
      by (intros x I; rewrite E'; apply in_or_app; now left).
    assert (Sub2 : forall x, In x l2' -> In x (all_scores words))
      by (intros x I; rewrite E'; apply in_or_app; right; now right).
    split; intros e I.
    + destruct (H1' e I) as [J | J]; [now apply H1 |].
      apply Z.ltb_ge in J. lia.
    + destruct (H2' e I) as [J | J]; [now apply H2 |].
      apply Z.ltb_ge in J. lia.
Qed.

(** Every category that [parse] returns is one of the default categories
    that [_init_default_categories] creates, and a category found by its
    keywords is recorded with the type it has there. *)
Theorem parse_category_in_catalog
        (cut : str -> list str) (today : date) (text : str) (r : ParsedRecord) :
  NLPParser.parse cut today text = Ok r ->
  In (r_category r) catalog_names /\
  (NLPParser._extract_category cut text <> None ->
   In (r_category r, r_type r) catalog_kinds).
Proof.
  intros H. unfold NLPParser.parse in H. cbv zeta in H.
  assert (Keys : forall c, In c (map fst NLPParser.CATEGORY_KEYWORDS) ->
            In c catalog_names /\
            In (c, if NLPParser.is_income_category c then Income else Expense)
               catalog_kinds).
  { intros c I. vm_compute in I.
    decompose [or] I; try contradiction; subst c;
      (split; vm_compute; intuition reflexivity). }
  apply bind_ok in H as (amount & _ & H).
  destruct (NLPParser.truthy amount); cbv beta iota zeta in H;
    apply bind_ok in H as (parsed_date & _ & H);
    destruct parsed_date; cbv beta iota zeta in H;
    destruct (NLPParser._extract_category cut text) as [c |] eqn:C;
    cbv beta iota zeta in H; injection H as <-;
    cbn [r_category r_type];
    try (split; [| intros _]; apply Keys, (best_category_in _ _ C));
    (split; [| intros N; now contradiction N]);
    destruct (contains (utf8 "收入") text); vm_compute; intuition reflexivity.
Qed.

Lemma parse_category_in_catalog_witness :
  NLPParser.parse (table_cut EXAMPLE_WORDS) (mkdate 2024 3 15) (utf8 "午餐 120 元")
  = Ok (mkRecord (Some 120%Q) Expense (utf8 "餐飲") (mkdate 2024 3 15)
                 (utf8 "午餐") (4 # 5)%Q (utf8 "午餐 120 元")) /\
  In (utf8 "餐飲") catalog_names /\
  In (utf8 "餐飲", Expense) catalog_kinds.
Proof.
  assert (E : NLPParser.parse (table_cut EXAMPLE_WORDS) (mkdate 2024 3 15)
                (utf8 "午餐 120 元")
              = Ok (mkRecord (Some 120%Q) Expense (utf8 "餐飲") (mkdate 2024 3 15)
                             (utf8 "午餐") (4 # 5)%Q (utf8 "午餐 120 元")))
    by (vm_compute; reflexivity).
  split; [exact E |].
  destruct (parse_category_in_catalog _ _ _ _ E) as [A B].
  split; [exact A |]. apply B. vm_compute. discriminate.
Defined.

(* ================================================================== *)
(** ** From the intent to the record *)

(** A message that [_detect_intent] takes for a record always holds an
    amount the parser can read: when [parse] leaves the amount of the
    record unset (the case in which [_handle_record] answers that it
    cannot identify the amount), the amount read is zero. *)
Theorem record_intent_amount
        (cut : str -> list str) (today : date) (text : str) (r : ParsedRecord) :
  _detect_intent text = IntentRecord ->
  NLPParser.parse cut today text = Ok r ->
  r_amount r = None ->
  exists v, NLPParser._extract_amount text = Ok (Some v) /\ float_truthy v = false.
Proof.
  intros I H Hr.
  assert (D : has_digit text).
  { apply search_digits_iff. unfold _detect_intent in I.
    destruct (any_keyword_in query_keywords text); [discriminate |].
    destruct (any_keyword_in analysis_keywords text); [discriminate |].
    destruct (re_search digits text); [discriminate | discriminate]. }
  apply search_any_number_iff in D.
  unfold NLPParser.parse in H. cbv zeta in H.
  apply bind_ok in H as (amount & Ha & H).
  assert (T : NLPParser.truthy amount = false).
  { destruct (NLPParser.truthy amount) eqn:T; [| reflexivity].
    cbv beta iota zeta in H.
    apply bind_ok in H as (parsed_date & _ & H).
    destruct parsed_date; cbv beta iota zeta in H;
      destruct (NLPParser._extract_category cut text);
      cbv beta iota zeta in H; injection H as <-; cbn [r_amount] in Hr;
      subst amount; discriminate. }
  destruct amount as [v |].
  - exists v. split; [exact Ha | exact T].
  - exfalso. unfold NLPParser._extract_amount in Ha.
    destruct (NLPParser.first_pattern_amount _ text); [discriminate |].
    destruct (NLPParser._extract_chinese_amount text) as [ca | e]; [| discriminate].
    cbn [bind] in Ha. destruct (NLPParser.truthy ca) eqn:Tc.
    + injection Ha as ->. discriminate.
    + destruct (re_search NLPParser.RE_ANY_NUMBER text); [discriminate | now apply D].
Qed.

(** "午餐 0 元" is taken for a record, and its amount is zero. *)
Lemma record_intent_amount_witness :
  exists v, NLPParser._extract_amount (utf8 "午餐 0 元") = Ok (Some v) /\
            float_truthy v = false.
Proof.
  assert (E : NLPParser.parse (table_cut EXAMPLE_WORDS) (mkdate 2024 3 15)
                (utf8 "午餐 0 元")
              = Ok (mkRecord None Expense (utf8 "餐飲") (mkdate 2024 3 15)
                             (utf8 "午餐") (2 # 5)%Q (utf8 "午餐 0 元"))).
  { vm_compute. reflexivity. }
  assert (I : _detect_intent (utf8 "午餐 0 元") = IntentRecord)
    by (vm_compute; reflexivity).
  exact (record_intent_amount (table_cut EXAMPLE_WORDS) (mkdate 2024 3 15)
           (utf8 "午餐 0 元") _ I E eq_refl).
Defined.

(* ================================================================== *)
(** ** Decimal numerals *)

Lemma ascii_digit_value (k : Z) :
  0 <= k <= 9 -> digit_value (48 + k) = Some k /\ is_digit (48 + k) = true.
Proof.
  intros H.
  assert (C : k = 0 \/ k = 1 \/ k = 2 \/ k = 3 \/ k = 4 \/ k = 5 \/ k = 6 \/ k = 7 \/
              k = 8 \/ k = 9) by lia.
  decompose [or] C; subst k; split; reflexivity.
Qed.

Lemma decimal_aux_spec (fuel : nat) :
  forall n acc, 0 <= n -> (Z.to_nat n < fuel)%nat ->
  exists ds, decimal_aux fuel n acc = ds ++ acc /\ ds <> [] /\
             forallb is_digit ds = true /\
             forall a, fold_left (fun acc c =>
                         match digit_value c with
                         | Some d => acc * 10 + d
                         | None => acc
                         end) ds a
                       = a * 10 ^ Z.of_nat (length ds) + n.
Proof.
  induction fuel as [| fuel IH]; intros n acc Hn Hf; [lia |].
  cbn [decimal_aux].
  destruct (ascii_digit_value (n mod 10) ltac:(Z.div_mod_to_equations; lia)) as [V D].
  destruct (Z.ltb_spec n 10) as [L | L].
  - exists [48 + n mod 10]. split; [reflexivity |]. split; [discriminate |].
    split; [cbn [forallb]; now rewrite D |].
    intros a. cbn [fold_left length]. rewrite V.
    change (10 ^ Z.of_nat 1) with 10. rewrite Z.mod_small by lia. reflexivity.
  - destruct (IH (n / 10) ((48 + n mod 10) :: acc)) as (ds & E & N & F & I).
    + Z.div_mod_to_equations. lia.
    + assert (n / 10 < n) by (Z.div_mod_to_equations; lia).
      assert (0 <= n / 10) by (Z.div_mod_to_equations; lia). lia.
    + exists (ds ++ [48 + n mod 10]). rewrite E, <- app_assoc. split; [reflexivity |].
      split; [destruct ds; discriminate |].
      split; [rewrite forallb_app, F; cbn [forallb]; now rewrite D |].
      intros a. rewrite fold_left_app, I. cbn [fold_left]. rewrite V.
      rewrite length_app, Nat2Z.inj_add. cbn [length].
      change (Z.of_nat 1) with 1. rewrite Z.pow_add_r, Z.pow_1_r by lia.
      Z.div_mod_to_equations. lia.
Qed.

(** The decimal numeral of a natural number is a non-empty run of digits
    that [int] reads back as the number. *)
Lemma arabic_numeral_spec (n : Z) :
  0 <= n ->
  exists d ds, arabic_numeral n = d :: ds /\ forallb is_digit (d :: ds) = true /\
               int_of_digits (d :: ds) = n.
Proof.
  intros H. unfold arabic_numeral.
  destruct (decimal_aux_spec (S (Z.to_nat n)) n [] H ltac:(lia)) as (ds & E & N & F & I).
  rewrite app_nil_r in E. rewrite E.
  destruct ds as [| d ds]; [contradiction |]. exists d, ds.
  split; [reflexivity |]. split; [exact F |].
  unfold int_of_digits. rewrite I. lia.
Qed.

(* ================================================================== *)
(** ** Dates written with a day unit *)

Lemma lstrip_suffix (s : str) : exists a, s = a ++ lstrip s.
Proof.
  induction s as [| c s [a IH]]; cbn [lstrip]; [now exists [] |].
  destruct (is_space c); [| now exists []].
  exists (c :: a). cbn [app]. now rewrite <- IH.
Qed.

(** The stripped text is a part of the text. *)
Lemma strip_infix (s : str) : exists a b, s = a ++ strip s ++ b.
Proof.
  unfold strip. destruct (lstrip_suffix s) as [a Ea].
  destruct (lstrip_suffix (rev (lstrip s))) as [b Eb].
  exists a, (rev b). rewrite Ea at 1. f_equal.
  rewrite <- rev_app_distr, <- Eb. now rewrite rev_involutive.
Qed.

Lemma contains_strip_false (kw s : str) :
  contains kw s = false -> contains kw (strip s) = false.
Proof.
  intros H. destruct (contains kw (strip s)) eqn:C; [| reflexivity].
  apply contains_iff in C as (a & b & E).
  destruct (strip_infix s) as (a' & b' & E').
  assert (contains kw s = true); [| congruence].
  apply contains_iff. exists (a' ++ a), (b ++ b').
  rewrite E' at 1. rewrite E, <- !app_assoc. reflexivity.
Qed.

(** A text whose first and last characters are no white space is its own
    strip. *)
Lemma strip_id (c : char) (s : str) (z : char) :
  is_space c = false -> is_space z = false ->
  strip (c :: s ++ [z]) = c :: s ++ [z].
Proof.
  intros Hc Hz. unfold strip. cbn [lstrip]. rewrite Hc.
  change (c :: s ++ [z]) with ((c :: s) ++ [z]).
  rewrite rev_app_distr. cbn [rev app lstrip]. rewrite Hz.
  change (z :: rev s ++ [c]) with ([z] ++ rev (c :: s)).
  rewrite rev_app_distr, rev_involutive. reflexivity.
Qed.

Lemma contains_lacks (p : char -> bool) (kw s : str) :
  existsb p kw = true -> lacks p s -> contains kw s = false.
Proof.
  intros K L. destruct (contains kw s) eqn:C; [| reflexivity].
  apply contains_iff in C as (a & b & ->).
  apply existsb_exists in K as (x & I & Px).
  rewrite (L x) in Px; [discriminate |].
  apply in_or_app. right. apply in_or_app. now left.
Qed.

Lemma lacks_app (p : char -> bool) (a b : str) :
  lacks p a -> lacks p b -> lacks p (a ++ b).
Proof. intros La Lb c I. apply in_app_or in I as [I | I]; auto. Qed.

Lemma lacks_weaken (p q : char -> bool) (s : str) :
  (forall c, q c = true -> p c = true) -> lacks p s -> lacks q s.
Proof.
  intros Hpq L c I. destruct (q c) eqn:Q; [| reflexivity].
  rewrite <- (L c I). symmetry. now apply Hpq.
Qed.

Lemma in_class_app (a b : str) (c : char) :
  in_class (a ++ b) c = in_class a c || in_class b c.
Proof. unfold in_class. apply existsb_app. Qed.

(** A digit is no white space, no character of a date word and no day
    unit. *)
Lemma digit_not_space (c : char) : is_digit c = true -> is_space c = false.
Proof.
  intros D. destruct (is_space c) eqn:S; [| reflexivity].
  assert (R : 0 <= c < 0 + 12289).
  { unfold is_space in S.
    rewrite !orb_true_iff, !andb_true_iff, !Z.leb_le, !Z.eqb_eq in S. lia. }
  assert (A : forall_range 12289 0 (fun c => negb (is_space c && is_digit c)) = true)
    by (vm_compute; reflexivity).
  pose proof (forall_range_spec _ _ _ A c R) as H. cbv beta in H.
  rewrite S, D in H. discriminate.
Qed.

Lemma digit_not_in_class (cls : str) (c : char) :
  forallb (fun x => negb (is_digit x)) cls = true ->
  is_digit c = true -> in_class cls c = false.
Proof.
  intros H D. destruct (in_class cls c) eqn:I; [| reflexivity].
  apply in_class_cases in I. rewrite forallb_forall in H.
  specialize (H c I). rewrite D in H. discriminate.
Qed.

Lemma lacks_digits (cls : str) (ds : str) :
  forallb (fun x => negb (is_digit x)) cls = true ->
  forallb is_digit ds = true -> lacks (in_class cls) ds.
Proof.
  intros H D c I. rewrite forallb_forall in D.
  apply digit_not_in_class; auto.
Qed.

(** [class]* followed by a pattern that matches at no point where the run
    can be cut. *)
Lemma match_star_none {A : Type} (p : char -> bool) (k : str -> option A)
      (run s : str) :
  match s with c :: _ => p c = false | [] => True end ->
  (forall a b, run = a ++ b -> k (b ++ s) = None) ->
  match_star p (run ++ s) k = None.
Proof.
  intros Hs. induction run as [| c run IH]; intros Hk; cbn [app].
  - specialize (Hk [] [] eq_refl). cbn [app] in Hk.
    destruct s as [| c s]; cbn [match_star]; [exact Hk |]. now rewrite Hs.
  - cbn [match_star]. rewrite IH by (intros a b E; apply (Hk (c :: a) b); now rewrite E).
    pose proof (Hk [] (c :: run) eq_refl) as H0. cbn [app] in H0. rewrite H0.
    now destruct (p c).
Qed.

Lemma day_units_cases (u : char) :
  in_class DAY_UNITS u = true ->
  is_digit u = false /\ is_space u = false /\ in_class DATE_WORD_CHARS u = false.
Proof.
  intros H. apply in_class_cases in H. vm_compute in H.
  decompose [or] H; try contradiction; subst u; vm_compute; auto.
Qed.

Lemma date_word_chars_no_digit :
  forallb (fun x => negb (is_digit x)) (DATE_WORD_CHARS ++ DAY_UNITS) = true.
Proof. vm_compute. reflexivity. Qed.

Lemma digit_not_unit (c : char) : is_digit c = true -> in_class (utf8 "號日") c = false.
Proof. apply digit_not_in_class. vm_compute. reflexivity. Qed.

Lemma digit_not_zhe (c : char) : is_digit c = true -> (c =? 36889) = false.
Proof.
  intros D. destruct (Z.eqb_spec c 36889) as [-> |]; [| reflexivity].
  vm_compute in D. discriminate.
Qed.

(** The "N日" pattern at a run of digits that no day unit follows. *)
Lemma this_month_here_none (pos : nat) (ds : str) (x : char) (rest : str) :
  forallb is_digit ds = true ->
  is_digit x = false -> in_class DAY_UNITS x = false -> (x =? 36889) = false ->
  match_here DateParser.RE_THIS_MONTH pos (ds ++ x :: rest) = None.
Proof.
  intros Hds Hx Hu Hz. unfold DAY_UNITS in Hu.
  unfold match_here, DateParser.RE_THIS_MONTH, cls, digits, plus.
  replace (utf8 "這個月") with [36889; 20491; 26376] by (vm_compute; reflexivity).
  cbn [lit fold_right rmatch].
  destruct ds as [| d ds]; cbn [app].
  - rewrite Hz, Hx. reflexivity.
  - cbn [forallb] in Hds. apply andb_true_iff in Hds as [Hd Hds].
    rewrite (digit_not_zhe d Hd), Hd.
    apply match_star_none; [exact Hx |].
    intros a b E. destruct b as [| c b]; cbn [app].
    + now rewrite Hu.
    + assert (Dc : is_digit c = true).
      { rewrite forallb_forall in Hds. apply Hds. rewrite E.
        apply in_or_app. right. now left. }
      now rewrite (digit_not_unit c Dc).
Qed.

(** The "N日" pattern at a run of digits that a day unit follows. *)
Lemma this_month_here_some (pos : nat) (d : char) (ds : str) (u : char) (rest : str) :
  forallb is_digit (d :: ds) = true -> in_class DAY_UNITS u = true ->
  exists m, match_here DateParser.RE_THIS_MONTH pos (d :: ds ++ u :: rest) = Some m /\
            group_text m 2 = d :: ds.
Proof.
  intros Hds Hu. destruct (day_units_cases u Hu) as (Du & _ & _). unfold DAY_UNITS in Hu.
  cbn [forallb] in Hds. apply andb_true_iff in Hds as [Hd Hds].
  unfold match_here, DateParser.RE_THIS_MONTH, cls, digits, plus.
  replace (utf8 "這個月") with [36889; 20491; 26376] by (vm_compute; reflexivity).
  cbn [lit fold_right rmatch].
  rewrite (digit_not_zhe d Hd), Hd.
  rewrite match_star_greedy; [| exact Hds | exact Du | now rewrite Hu].
  rewrite Hu. eexists. split; [reflexivity |].
  unfold group_text, group. cbn [m_groups lookup_group Nat.eqb].
  change (d :: ds ++ u :: rest) with ((d :: ds) ++ u :: rest).
  apply firstn_app_length.
Qed.

Lemma search_skip_prefix (r : regex) (pre tail : str) :
  (forall pos a b, pre = a ++ b -> b <> [] -> match_here r pos (b ++ tail) = None) ->
  forall pos, search_from r pos (pre ++ tail)
              = search_from r (pos + length pre) tail.
Proof.
  induction pre as [| c pre IH]; intros H pos; cbn [app length].
  - now rewrite Nat.add_0_r.
  - cbn [search_from].
    pose proof (H pos [] (c :: pre) eq_refl ltac:(discriminate)) as H0.
    cbn [app] in H0. rewrite H0.
    rewrite IH by (intros pos' a b E; apply (H pos' (c :: a) b); now rewrite E).
    f_equal. lia.
Qed.

Lemma ends_nondigit_suffix (a b : str) :
  ends_nondigit (a ++ b) = true -> b <> [] -> ends_nondigit b = true.
Proof.
  intros H Hb. induction a as [| c a IH]; cbn [app] in *; [exact H |].
  apply IH. destruct (a ++ b) as [| x l] eqn:E; [| exact H].
  apply app_eq_nil in E as [_ E]. contradiction.
Qed.

Lemma digit_run_split (b : str) :
  b <> [] -> ends_nondigit b = true ->
  exists ds x r, b = ds ++ x :: r /\ forallb is_digit ds = true /\ is_digit x = false.
Proof.
  induction b as [| c b IH]; intros Hb E; [contradiction |].
  destruct (is_digit c) eqn:D.
  - destruct b as [| c' b'].
    + cbn [ends_nondigit] in E. rewrite D in E. discriminate.
    + destruct (IH ltac:(discriminate) E) as (ds & x & r & Eb & Hds & Hx).
      exists (c :: ds), x, r. cbn [app forallb]. rewrite Eb, D, Hds. auto.
  - exists [], c, b. auto.
Qed.

Lemma needs_date_words :
  needs (in_class DATE_WORD_CHARS) DateParser.RE_DAYS_AGO /\
  needs (in_class DATE_WORD_CHARS) DateParser.RE_WEEKDAY /\
  needs (in_class DATE_WORD_CHARS) DateParser.RE_LAST_MONTH.
Proof.
  assert (C : forall x c, in_class DATE_WORD_CHARS x = true ->
                (c =? x) = true -> in_class DATE_WORD_CHARS c = true).
  { intros x c Hx E. apply Z.eqb_eq in E. now subst. }
  unfold DateParser.RE_DAYS_AGO, DateParser.RE_WEEKDAY, DateParser.RE_LAST_MONTH.
  replace (utf8 "天前") with [22825; 21069] by (vm_compute; reflexivity).
  replace (utf8 "週") with [36913] by (vm_compute; reflexivity).
  replace (utf8 "上個月") with [19978; 20491; 26376] by (vm_compute; reflexivity).
  cbn [lit fold_right needs]. repeat split.
  - right. right. left. intros c. apply C. vm_compute. reflexivity.
  - right. left. left. intros c. apply C. vm_compute. reflexivity.
  - left. left. intros c. apply C. vm_compute. reflexivity.
Qed.

(** A text without the characters of the date words has none of the
    literal markers. *)
Lemma lacks_no_literal_marker (text : str) :
  lacks (in_class DATE_WORD_CHARS) text -> no_literal_marker text = true.
Proof.
  intros L. unfold no_literal_marker.
  rewrite !(contains_lacks (in_class DATE_WORD_CHARS) _ text) by
    (try exact L; vm_compute; reflexivity).
  reflexivity.
Qed.

(** A text that ends in digits and a day unit, after a plain prefix, is
    decided by the "N日" rule. *)
Lemma parse_day_unit (today : date) (pre : str) (d : char) (ds : str) (u : char) :
  plain_prefix pre = true ->
  forallb is_digit (d :: ds) = true ->
  in_class DAY_UNITS u = true ->
  DateParser.parse today (pre ++ d :: ds ++ [u])
  = (let* r := try_ValueError (replace_day today (int_of_digits (d :: ds))) (Ok today) in
     Ok (Some r)).
Proof.
  intros P Hds Hu. unfold plain_prefix in P.
  apply andb_true_iff in P as [P Pe]. apply andb_true_iff in P as [Pc Ps].
  destruct (day_units_cases u Hu) as (Du & Su & Wu).
  assert (Hd : is_digit d = true) by (cbn [forallb] in Hds; now apply andb_true_iff in Hds).
  assert (Lpre : lacks (in_class (DATE_WORD_CHARS ++ DAY_UNITS)) pre)
    by (now apply lacks_iff).
  (* the text is its own strip *)
  assert (S : strip (pre ++ d :: ds ++ [u]) = pre ++ d :: ds ++ [u]).
  { destruct pre as [| c pre].
    - cbn [app]. apply strip_id; [now apply digit_not_space | exact Su].
    - cbn [app]. replace (pre ++ d :: ds ++ [u]) with ((pre ++ d :: ds) ++ [u])
        by (now rewrite <- app_assoc).
      apply strip_id; [now apply negb_true_iff | exact Su]. }
  (* it holds no character of a date word *)
  assert (L : lacks (in_class DATE_WORD_CHARS) (pre ++ d :: ds ++ [u])).
  { apply lacks_app.
    - apply (lacks_weaken _ _ _ (fun c H => eq_trans (in_class_app _ _ c)
               (eq_trans (f_equal (fun b => b || _) H) eq_refl)) Lpre).
    - change (d :: ds ++ [u]) with ((d :: ds) ++ [u]). apply lacks_app.
      + apply lacks_digits; [| exact Hds].
        pose proof date_word_chars_no_digit as N.
        rewrite forallb_app in N. now apply andb_true_iff in N.
      + intros c [<- | []]. exact Wu. }
  destruct needs_date_words as (N1 & N2 & N3).
  (* the match of the pattern *)
  assert (M : exists m, re_search DateParser.RE_THIS_MONTH (pre ++ d :: ds ++ [u]) = Some m /\
                        group_text m 2 = d :: ds).
  { unfold re_search. rewrite search_skip_prefix.
    - destruct (this_month_here_some (0 + length pre) d ds u [] Hds Hu) as (m & E & G).
      exists m. split; [| exact G].
      destruct ds; cbn [search_from app] in *; now rewrite E.
    - intros pos a b E Hb.
      assert (Eb : ends_nondigit b = true)
        by (apply (ends_nondigit_suffix a); [now rewrite <- E | exact Hb]).
      destruct (digit_run_split b Hb Eb) as (rs & x & r & -> & Hrs & Hx).
      assert (Ix : In x pre)
        by (rewrite E; apply in_or_app; right; apply in_or_app; right; now left).
      pose proof (Lpre x Ix) as Cx. rewrite in_class_app in Cx.
      apply orb_false_iff in Cx as [Cw Cu].
      rewrite <- app_assoc. cbn [app]. apply this_month_here_none; auto.
      destruct (Z.eqb_spec x 36889) as [-> |]; [| reflexivity].
      vm_compute in Cw. discriminate. }
  destruct M as (m & M & G).
  unfold DateParser.parse. cbv zeta. rewrite S.
  destruct (no_literal_marker_true _ (lacks_no_literal_marker _ L))
    as (M1 & M2 & M3 & M4 & M5).
  rewrite M1, M2, M3, M4, M5.
  rewrite (re_search_needs _ _ _ N1 L), (re_search_needs _ _ _ N2 L),
    (re_search_needs _ _ _ N3 L), M, G.
  reflexivity.
Qed.

(** Every text that ends in a day number (from 1 on, within 32 bits) and
    日 or 號, after a prefix with no character of a date word that does not
    end in a digit, names that day of the current month, or today when the
    month has no such day.  The documented full date "2024年12月20日" is
    such a text: its year and month are not read. *)
Theorem day_unit_names_day_of_this_month
        (today : date) (pre : str) (D : Z) (u : char) :
  valid_date today = true ->
  plain_prefix pre = true ->
  1 <= D <= 2147483647 ->
  in_class DAY_UNITS u = true ->
  DateParser.parse today (pre ++ arabic_numeral D ++ [u])
  = Ok (Some (if D <=? days_in_month (year today) (month today)
              then mkdate (year today) (month today) D
              else today)).
Proof.
  intros V P HD Hu.
  destruct (arabic_numeral_spec D ltac:(lia)) as (d & ds & E & Hds & Hv).
  rewrite E. cbn [app]. rewrite (parse_day_unit today pre d ds u P Hds Hu), Hv.
  unfold replace_day. rewrite c_int_ok by lia. cbn [bind].
  unfold date_new, valid_date. cbn [year month day].
  apply valid_date_iff in V as (Y & M & _).
  replace ((MINYEAR <=? year today) && (year today <=? MAXYEAR) &&
           (1 <=? month today) && (month today <=? 12) && (1 <=? D)) with true.
  2: { symmetry. unfold MINYEAR, MAXYEAR.
       rewrite !andb_true_iff, !Z.leb_le. lia. }
  cbn [andb]. destruct (D <=? days_in_month (year today) (month today)); reflexivity.
Qed.

(** "2024年12月20日" on 2024-03-15 is 2024-03-20. *)
Lemma day_unit_names_day_witness :
  DateParser.parse (mkdate 2024 3 15) (utf8 "2024年12月20日")
  = Ok (Some (mkdate 2024 3 20)).
Proof.
  assert (E : utf8 "2024年12月20日" = utf8 "2024年12月" ++ arabic_numeral 20 ++ [26085])
    by (vm_compute; reflexivity).
  rewrite E.
  assert (P : plain_prefix (utf8 "2024年12月") = true) by (vm_compute; reflexivity).
  assert (U : in_class DAY_UNITS 26085 = true) by (vm_compute; reflexivity).
  exact (day_unit_names_day_of_this_month (mkdate 2024 3 15) (utf8 "2024年12月") 20 26085
           eq_refl P ltac:(lia) U).
Defined.

(** The marker 大前天 contains the marker 前天, which is tested first: a
    text with 大前天 (and none of 今天, 今日, 昨天, 昨日) resolves to the day
    two days before today, and the branch for three days is never
    taken. *)
Theorem three_days_ago_reads_as_two (today : date) (text : str) :
  valid_date today = true ->
  2 < toordinal today ->
  contains (utf8 "大前天") text = true ->
  contains (utf8 "今天") text = false -> contains (utf8 "今日") text = false ->
  contains (utf8 "昨天") text = false -> contains (utf8 "昨日") text = false ->
  exists d, DateParser.parse today text = Ok (Some d) /\
            valid_date d = true /\ toordinal d = toordinal today - 2.
Proof.
  intros V Ho H3 H1 H2 H4 H5.
  assert (Hq : contains (utf8 "前天") text = true).
  { apply contains_iff in H3 as (a & b & ->). apply contains_iff.
    exists (a ++ [22823]), b. rewrite <- !app_assoc.
    assert (E : utf8 "大前天" = [22823] ++ utf8 "前天") by (vm_compute; reflexivity).
    rewrite E, <- app_assoc. reflexivity. }
  unfold DateParser.parse. cbv zeta.
  rewrite (contains_strip_false _ _ H1), (contains_strip_false _ _ H2),
    (contains_strip_false _ _ H4), (contains_strip_false _ _ H5).
  rewrite (contains_strip (utf8 "前天") text) by
    (try exact Hq; try discriminate; vm_compute; reflexivity).
  cbn [orb].
  destruct (minus_days_ok today 2 V ltac:(lia) ltac:(lia)) as (d & E & Vd & Od).
  exists d. rewrite E. cbn [bind]. auto.
Qed.

(** "大前天買書 300 元" on 2024-03-15 is dated 2024-03-13. *)
Lemma three_days_ago_witness :
  DateParser.parse (mkdate 2024 3 15) (utf8 "大前天買書 300 元") = Ok (Some (mkdate 2024 3 13)) /\
  exists d, DateParser.parse (mkdate 2024 3 15) (utf8 "大前天買書 300 元") = Ok (Some d) /\
            valid_date d = true /\ toordinal d = toordinal (mkdate 2024 3 15) - 2.
Proof.
  split; [vm_compute; reflexivity |].
  assert (H3 : contains (utf8 "大前天") (utf8 "大前天買書 300 元") = true)
    by (vm_compute; reflexivity).
  assert (H1 : contains (utf8 "今天") (utf8 "大前天買書 300 元") = false)
    by (vm_compute; reflexivity).
  assert (H2 : contains (utf8 "今日") (utf8 "大前天買書 300 元") = false)
    by (vm_compute; reflexivity).
  assert (H4 : contains (utf8 "昨天") (utf8 "大前天買書 300 元") = false)
    by (vm_compute; reflexivity).
  assert (H5 : contains (utf8 "昨日") (utf8 "大前天買書 300 元") = false)
    by (vm_compute; reflexivity).
  assert (Ho : 2 < toordinal (mkdate 2024 3 15)) by (vm_compute; reflexivity).
  exact (three_days_ago_reads_as_two (mkdate 2024 3 15) (utf8 "大前天買書 300 元")
           eq_refl Ho H3 H1 H2 H4 H5).
Defined.

(* ================================================================== *)
(** ** Dates written as month and day *)

Lemma parse_month_day (today : date) (text : str) (mo d : Z) :
  month_day_rule text mo d = true ->
  DateParser.parse today text
  = try_ValueError (let* r := date_of_ints (year today) mo d in Ok (Some r)) (Ok None).
Proof.
  unfold month_day_rule. intros H. apply andb_true_iff in H as [M R].
  apply no_literal_marker_true in M as (M1 & M2 & M3 & M4 & M5).
  unfold DateParser.parse, DateParser.parse_full_date. cbv zeta.
  rewrite M1, M2, M3, M4, M5.
  destruct (re_search DateParser.RE_DAYS_AGO (strip text)); [discriminate |].
  destruct (re_search DateParser.RE_WEEKDAY (strip text)); [discriminate |].
  destruct (re_search DateParser.RE_LAST_MONTH (strip text)); [discriminate |].
  destruct (re_search DateParser.RE_THIS_MONTH (strip text)); [discriminate |].
  destruct (re_search DateParser.RE_MONTH_DAY (strip text)) as [m |]; [| discriminate].
  destruct (re_search DateParser.RE_FULL_DATE (strip text)); [discriminate |].
  apply andb_true_iff in R as [R1 R2]. apply Z.eqb_eq in R1, R2. now rewrite R1, R2.
Qed.

Lemma month_day_rule_0_99 (M D : Z) :
  0 <= M <= 99 -> 0 <= D <= 99 ->
  month_day_rule (arabic_numeral M ++ 47 :: arabic_numeral D) M D = true /\
  month_day_rule (arabic_numeral M ++ 45 :: arabic_numeral D) M D = true.
Proof.
  intros HM HD.
  assert (A : forall_range 100 0 (fun M => forall_range 100 0 (fun D =>
                month_day_rule (arabic_numeral M ++ 47 :: arabic_numeral D) M D &&
                month_day_rule (arabic_numeral M ++ 45 :: arabic_numeral D) M D)) = true)
    by (vm_compute; reflexivity).
  pose proof (forall_range_spec _ _ _ A M ltac:(lia)) as B. cbv beta in B.
  pose proof (forall_range_spec _ _ _ B D ltac:(lia)) as C. cbv beta in C.
  now apply andb_true_iff in C.
Qed.

(** "M/D" and "M-D", for numbers M and D from 0 to 99: the date of this
    year with that month and day when there is one, and otherwise no date
    at all (not today): for "2/30", "13/1" or "0/5" the parser finds
    nothing. *)
Theorem month_day_text (today : date) (M D : Z) (sep : char) :
  valid_date today = true ->
  0 <= M <= 99 -> 0 <= D <= 99 ->
  sep = 47 \/ sep = 45 ->
  DateParser.parse today (arabic_numeral M ++ sep :: arabic_numeral D)
  = Ok (if valid_date (mkdate (year today) M D)
        then Some (mkdate (year today) M D) else None).
Proof.
  intros V HM HD Hs.
  destruct (month_day_rule_0_99 M D HM HD) as [R1 R2].
  assert (R : month_day_rule (arabic_numeral M ++ sep :: arabic_numeral D) M D = true)
    by (destruct Hs as [-> | ->]; assumption).
  rewrite (parse_month_day today _ M D R).
  apply valid_date_iff in V as (Y & _).
  unfold date_of_ints. rewrite !c_int_ok by lia. cbn [bind].
  unfold date_new. destruct (valid_date (mkdate (year today) M D)); reflexivity.
Qed.

(** "12/20" on 2024-03-15 is 2024-12-20; "2/30" is no date. *)
Lemma month_day_text_witness :
  DateParser.parse (mkdate 2024 3 15) (utf8 "12/20") = Ok (Some (mkdate 2024 12 20)) /\
  DateParser.parse (mkdate 2024 3 15) (utf8 "2/30") = Ok None.
Proof.
  assert (E1 : utf8 "12/20" = arabic_numeral 12 ++ 47 :: arabic_numeral 20)
    by (vm_compute; reflexivity).
  assert (E2 : utf8 "2/30" = arabic_numeral 2 ++ 47 :: arabic_numeral 30)
    by (vm_compute; reflexivity).
  rewrite E1, E2. split.
  - exact (month_day_text (mkdate 2024 3 15) 12 20 47 eq_refl ltac:(lia) ltac:(lia)
             (or_introl eq_refl)).
  - exact (month_day_text (mkdate 2024 3 15) 2 30 47 eq_refl ltac:(lia) ltac:(lia)
             (or_introl eq_refl)).
Defined.

(* ================================================================== *)
(** ** The description *)

Lemma split_ws_aux_words (s : str) :
  forall cur, lacks is_space cur -> Forall is_word (split_ws_aux cur s).
Proof.
  assert (R : forall cur, cur <> [] -> lacks is_space cur -> is_word (rev cur)).
  { intros cur N L. split.
    - intros E. apply N. apply (f_equal (@rev _)) in E.
      now rewrite rev_involutive in E.
    - intros c I. apply L. now apply in_rev. }
  induction s as [| c s IH]; intros cur L; cbn [split_ws_aux].
  - destruct cur as [| x cur]; [constructor |].
    constructor; [apply R; [discriminate | exact L] | constructor].
  - destruct (is_space c) eqn:S.
    + destruct cur as [| x cur]; [apply IH; intros y [] |].
      constructor; [apply R; [discriminate | exact L] | apply IH; intros y []].
    + apply IH. intros y [<- | I]; [exact S | now apply L].
Qed.

Lemma lstrip_app_fixed (a b : str) :
  a <> [] -> lstrip a = a -> lstrip (a ++ b) = a ++ b.
Proof.
  destruct a as [| c a]; [contradiction |]. intros _ H. cbn [app lstrip] in *.
  destruct (is_space c); [| reflexivity].
  exfalso. pose proof (lstrip_suffix a) as [x E].
  apply (f_equal (@length _)) in E. rewrite H, length_app in E. cbn [length] in E. lia.
Qed.

Lemma lstrip_word (w : str) : lacks is_space w -> lstrip w = w.
Proof.
  intros L. destruct w as [| c w]; [reflexivity |]. cbn [lstrip].
  now rewrite (L c (or_introl eq_refl)).
Qed.

Lemma join_words (words : list str) :
  Forall is_word words -> words <> [] ->
  join [32] words <> [] /\
  lstrip (join [32] words) = join [32] words /\
  lstrip (rev (join [32] words)) = rev (join [32] words).
Proof.
  induction 1 as [| w ws [Nw Lw] Hws IH]; intros N; [contradiction |].
  assert (Lr : lacks is_space (rev w)) by (intros c I; apply Lw; now apply in_rev).
  assert (Nr : rev w <> []).
  { intros E. apply Nw. apply (f_equal (@rev _)) in E. now rewrite rev_involutive in E. }
  destruct ws as [| w2 ws].
  - cbn [join]. split; [exact Nw |]. split; now apply lstrip_word.
  - destruct (IH ltac:(discriminate)) as (N2 & _ & R2).
    change (join [32] (w :: w2 :: ws)) with (w ++ [32] ++ join [32] (w2 :: ws)).
    split; [destruct w; [contradiction | discriminate] |]. split.
    + apply lstrip_app_fixed; [exact Nw | now apply lstrip_word].
    + rewrite !rev_app_distr, <- app_assoc.
      apply lstrip_app_fixed; [| exact R2].
      intros E. apply N2. apply (f_equal (@rev _)) in E.
      now rewrite rev_involutive in E.
Qed.

(** The description that [_clean_description] returns is a sequence of
    words, each non-empty and free of white space, separated by exactly
    one space: it has no white space at either end (the final [strip]
    changes nothing), no two adjacent spaces, no tab and no line break. *)
Theorem clean_description_words (text : str) :
  exists words,
    NLPParser._clean_description text = join [32] words /\ Forall is_word words.
Proof.
  unfold NLPParser._clean_description. cbv zeta.
  replace (utf8 " ") with [32] by (vm_compute; reflexivity).
  match goal with |- context [split_ws ?t] => set (t0 := t) end.
  exists (split_ws t0).
  assert (W : Forall is_word (split_ws t0))
    by (apply split_ws_aux_words; intros y []).
  split; [| exact W].
  destruct (split_ws t0) as [| w ws] eqn:E; [reflexivity |].
  destruct (join_words (w :: ws) W ltac:(discriminate)) as (_ & L & R).
  unfold strip. rewrite L, R. apply rev_involutive.
Qed.

(* ================================================================== *)
(** ** Groups are parts of the text *)

Section Bounded.
Context {A : Type}.
Variable R : A -> Prop.
Variable n : nat.

Lemma match_star_bounded (p : char -> bool) (k : str -> option A) (a : A) :
  (forall s, (length s <= n)%nat -> k s = Some a -> R a) ->
  forall s, (length s <= n)%nat -> match_star p s k = Some a -> R a.
Proof.
  intros Hk s. induction s as [| c s IH]; intros L; cbn [match_star]; [now apply Hk |].
  cbn [length] in L. destruct (p c); [| now apply Hk].
  destruct (match_star p s k) eqn:M; [| now apply Hk].
  intros E. apply IH; [lia | exact E].
Qed.

Lemma match_times_bounded (p : char -> bool) (k : str -> option A) (a : A) :
  (forall s, (length s <= n)%nat -> k s = Some a -> R a) ->
  forall m s, (length s <= n)%nat -> match_times m p s k = Some a -> R a.
Proof.
  intros Hk m. induction m as [| m IH]; intros s L; cbn [match_times]; [now apply Hk |].
  destruct s as [| c s]; [discriminate |]. cbn [length] in L.
  destruct (p c); [| discriminate]. apply IH. lia.
Qed.

Lemma match_upto_bounded (p : char -> bool) (k : str -> option A) (a : A) :
  (forall s, (length s <= n)%nat -> k s = Some a -> R a) ->
  forall m s, (length s <= n)%nat -> match_upto m p s k = Some a -> R a.
Proof.
  intros Hk m. induction m as [| m IH]; intros s L; cbn [match_upto]; [now apply Hk |].
  destruct s as [| c s]; [now apply Hk |]. cbn [length] in L.
  destruct (p c); [| now apply Hk].
  destruct (match_upto m p s k) eqn:M; [| now apply Hk].
  intros E. rewrite E in M. apply (IH s); [lia | exact M].
Qed.

Lemma rmatch_bounded (r : regex) (a : A) :
  forall (k : str -> captures -> option A) s g,
  (length s <= n)%nat -> caps_bounded n g ->
  (forall s' g', (length s' <= n)%nat -> caps_bounded n g' -> k s' g' = Some a -> R a) ->
  rmatch r s g k = Some a -> R a.
Proof.
  induction r as [| q | r1 IH1 r2 IH2 | r1 IH1 r2 IH2 | r1 IH1 | q | lo hi q | i r1 IH1 | ];
    intros k s g L G Hk; cbn [rmatch].
  - now apply Hk.
  - destruct s as [| c s]; [discriminate |]. cbn [length] in L.
    destruct (q c); [| discriminate]. apply Hk; [lia | exact G].
  - apply IH1; [exact L | exact G |]. intros s1 g1 L1 G1. now apply IH2.
  - destruct (rmatch r1 s g k) eqn:M.
    + intros E. rewrite E in M. revert M. now apply IH1.
    + now apply IH2.
  - destruct (rmatch r1 s g k) eqn:M.
    + intros E. rewrite E in M. revert M. now apply IH1.
    + now apply Hk.
  - apply match_star_bounded; [| exact L]. intros s' L'. now apply Hk.
  - apply match_times_bounded; [| exact L]. intros s1 L1.
    apply match_upto_bounded; [| exact L1]. intros s2 L2. now apply Hk.
  - apply IH1; [exact L | exact G |]. intros s1 g1 L1 G1. apply Hk; [exact L1 |].
    constructor; [| exact G1]. cbn [snd]. rewrite length_firstn. lia.
  - destruct s as [| c [| c' s]]; [now apply Hk | | discriminate].
    destruct (c =? 10); [now apply Hk | discriminate].
Qed.
End Bounded.

Lemma search_bounded (r : regex) (n : nat) (m : rmatch_obj) :
  forall s pos, (length s <= n)%nat ->
  search_from r pos s = Some m -> caps_bounded n (m_groups m).
Proof.
  induction s as [| c s IH]; intros pos L; cbn [search_from];
    destruct (match_here r pos _) as [m' |] eqn:M.
  - intros E. rewrite E in M. revert M. unfold match_here.
    apply (rmatch_bounded (fun m => caps_bounded n (m_groups m)) n);
      [exact L | constructor |].
    intros s' g' _ G' E'. injection E' as <-. exact G'.
  - discriminate.
  - intros E. rewrite E in M. revert M. unfold match_here.
    apply (rmatch_bounded (fun m => caps_bounded n (m_groups m)) n);
      [exact L | constructor |].
    intros s' g' _ G' E'. injection E' as <-. exact G'.
  - apply IH. cbn [length] in L. lia.
Qed.

(** A group of a match is no longer than the text searched. *)
Lemma group_text_length (r : regex) (s : str) (m : rmatch_obj) (i : nat) :
  re_search r s = Some m -> (length (group_text m i) <= length s)%nat.
Proof.
  intros H. apply (search_bounded r (length s)) in H; [| lia].
  unfold group_text, group. induction H as [| [j t] g Ht Hg IH]; cbn [lookup_group].
  - cbn. lia.
  - destruct (Nat.eqb j i); [exact Ht | exact IH].
Qed.

(* ================================================================== *)
(** ** The size of a Chinese amount *)

Lemma numeral_step_bound (st : Z * Z) (c : char) (B : Z) :
  0 <= fst st -> 0 <= snd st -> fst st + Z.max (snd st) 1 <= B ->
  fst (NLPParser.numeral_step st c) + Z.max (snd (NLPParser.numeral_step st c)) 1
  <= 10001 * B.
Proof.
  destruct st as [result temp]. cbn [fst snd]. intros Hr Ht HB.
  unfold NLPParser.numeral_step.
  destruct (dict_get NLPParser.CHINESE_NUMS [c]) as [num |] eqn:D; [| cbn [fst snd]; lia].
  apply chinese_num_bounds in D.
  destruct (Z.leb_spec 10 num).
  - destruct (Z.eqb_spec temp 0); destruct (Z.leb_spec 10000 num); cbn [fst snd]; nia.
  - destruct (Z.leb_spec 10 temp); cbn [fst snd]; lia.
Qed.

Lemma chinese_to_int_bound (text : str) :
  NLPParser.chinese_to_int text <= 10001 ^ Z.of_nat (length text).
Proof.
  unfold NLPParser.chinese_to_int.
  assert (G : forall st B, 0 <= fst st -> 0 <= snd st ->
            fst st + Z.max (snd st) 1 <= B ->
            0 <= snd (fold_left NLPParser.numeral_step text st) /\
            fst (fold_left NLPParser.numeral_step text st)
            + Z.max (snd (fold_left NLPParser.numeral_step text st)) 1
            <= 10001 ^ Z.of_nat (length text) * B).
  { induction text as [| c s IH]; intros st B H1 H2 HB; cbn [fold_left length].
    - change (10001 ^ Z.of_nat 0) with 1. lia.
    - destruct (numeral_step_nonneg st c H1 H2) as [N1 N2].
      destruct (IH _ (10001 * B) N1 N2 (numeral_step_bound st c B H1 H2 HB)) as [I1 I2].
      split; [exact I1 |].
      rewrite Nat2Z.inj_succ, Z.pow_succ_r by lia. lia. }
  specialize (G (0, 0) 1 ltac:(cbn; lia) ltac:(cbn; lia) ltac:(cbn; lia)).
  destruct (fold_left NLPParser.numeral_step text (0, 0)) as [result temp].
  cbn [fst snd] in G. lia.
Qed.

(** On a text of at most 77 characters the amount extractor raises no
    exception: a Chinese numeral that short stays below the largest
    float. *)
Theorem extract_amount_short_text (text : str) :
  (length text <= 77)%nat ->
  exists amount, NLPParser._extract_amount text = Ok amount.
Proof.
  intros L. unfold NLPParser._extract_amount.
  destruct (NLPParser.first_pattern_amount _ text); [eauto |].
  unfold NLPParser._extract_chinese_amount.
  destruct (re_search NLPParser.RE_CHINESE_AMOUNT text) as [m |] eqn:M; cbn [bind].
  - pose proof (group_text_length _ _ _ 1%nat M) as Lg.
    unfold NLPParser._chinese_to_number, float_of_int.
    pose proof (chinese_to_int_nonneg (group_text m 1)) as N0.
    pose proof (chinese_to_int_bound (group_text m 1)) as N1.
    assert (P : 10001 ^ Z.of_nat (length (group_text m 1)) <= 10001 ^ 77)
      by (apply Z.pow_le_mono_r; lia).
    assert (T : 10001 ^ 77 < 2 ^ 1024 - 2 ^ 970) by (vm_compute; reflexivity).
    replace (Z.abs (NLPParser.chinese_to_int (group_text m 1)) <? 2 ^ 1024 - 2 ^ 970)
      with true by (symmetry; apply Z.ltb_lt; lia).
    cbn [bind]. destruct (NLPParser.truthy _); [eauto |].
    destruct (re_search NLPParser.RE_ANY_NUMBER text); eauto.
  - cbn [NLPParser.truthy].
    destruct (re_search NLPParser.RE_ANY_NUMBER text); eauto.
Qed.

(** "三百五十元", five characters. *)
Lemma extract_amount_short_text_witness :
  exists amount, NLPParser._extract_amount (utf8 "三百五十元") = Ok amount.
Proof.
  assert (L : (length (utf8 "三百五十元") <= 77)%nat) by (vm_compute; lia).
  exact (extract_amount_short_text (utf8 "三百五十元") L).
Defined.

(* ================================================================== *)
(** ** Texts without a date *)

Lemma lacks_strip (p : char -> bool) (s : str) : lacks p s -> lacks p (strip s).
Proof.
  intros L c I. apply L. destruct (strip_infix s) as (a & b & E). rewrite E.
  apply in_or_app. right. apply in_or_app. now left.
Qed.

Lemma needs_date_char :
  Forall (needs date_char)
    [ DateParser.RE_DAYS_AGO; DateParser.RE_WEEKDAY; DateParser.RE_LAST_MONTH;
      DateParser.RE_THIS_MONTH; DateParser.RE_MONTH_DAY; DateParser.RE_FULL_DATE ].
Proof.
  assert (D : forall c, is_digit c = true -> date_char c = true)
    by (intros c H; unfold date_char; now rewrite H).
  assert (C : forall x c, date_char x = true -> (c =? x) = true -> date_char c = true).
  { intros x c Hx E. apply Z.eqb_eq in E. now subst. }
  unfold DateParser.RE_DAYS_AGO, DateParser.RE_WEEKDAY, DateParser.RE_LAST_MONTH,
    DateParser.RE_THIS_MONTH, DateParser.RE_MONTH_DAY, DateParser.RE_FULL_DATE,
    digits, plus.
  replace (utf8 "天前") with [22825; 21069] by (vm_compute; reflexivity).
  replace (utf8 "週") with [36913] by (vm_compute; reflexivity).
  apply Forall_cons; [| apply Forall_cons; [| apply Forall_cons;
    [| apply Forall_cons; [| apply Forall_cons; [| apply Forall_cons;
    [| apply Forall_nil]]]]]]; cbn [lit fold_right needs].
  - right. right. left. intros c. apply C. vm_compute. reflexivity.
  - right. left. left. intros c. apply C. vm_compute. reflexivity.
  - right. left. left. exact D.
  - right. left. left. exact D.
  - left. split; [lia | exact D].
  - left. split; [lia | exact D].
Qed.

(** A text with no digit and none of the characters 今, 昨, 明, 天, 週 holds
    no date for the resolver, and a record parsed from it is dated
    today. *)
Theorem no_date_without_date_char (today : date) (text : str) :
  lacks date_char text ->
  DateParser.parse today text = Ok None /\
  forall cut r, NLPParser.parse cut today text = Ok r -> r_date r = today.
Proof.
  intros L0.
  assert (P : DateParser.parse today text = Ok None).
  { pose proof (lacks_strip _ _ L0) as L.
    pose proof needs_date_char as N. rewrite Forall_forall in N.
    assert (S : forall r, In r
                  [ DateParser.RE_DAYS_AGO; DateParser.RE_WEEKDAY;
                    DateParser.RE_LAST_MONTH; DateParser.RE_THIS_MONTH;
                    DateParser.RE_MONTH_DAY; DateParser.RE_FULL_DATE ] ->
                re_search r (strip text) = None)
      by (intros r I; apply (re_search_needs date_char); [apply N, I | exact L]).
    unfold DateParser.parse, DateParser.parse_full_date. cbv zeta.
    rewrite !(contains_lacks date_char _ (strip text)) by
      (try exact L; vm_compute; reflexivity).
    cbn [orb].
    rewrite (S DateParser.RE_DAYS_AGO), (S DateParser.RE_WEEKDAY),
      (S DateParser.RE_LAST_MONTH), (S DateParser.RE_THIS_MONTH),
      (S DateParser.RE_MONTH_DAY), (S DateParser.RE_FULL_DATE)
      by (cbn [In]; repeat (first [left; reflexivity | right])).
    reflexivity. }
  split; [exact P |].
  intros cut r H. unfold NLPParser.parse in H. cbv zeta in H. rewrite P in H.
  apply bind_ok in H as (amount & _ & H).
  destruct (NLPParser.truthy amount); cbv beta iota zeta in H; cbn [bind] in H;
    cbv beta iota zeta in H;
    destruct (NLPParser._extract_category cut text); cbv beta iota zeta in H;
    injection H as <-; reflexivity.
Qed.

(** "買書" holds no date. *)
Lemma no_date_without_date_char_witness :
  DateParser.parse (mkdate 2024 3 15) (utf8 "買書") = Ok None.
Proof.
  assert (L : lacks date_char (utf8 "買書"))
    by (apply lacks_iff; vm_compute; reflexivity).
  exact (proj1 (no_date_without_date_char (mkdate 2024 3 15) (utf8 "買書") L)).
Defined.

(* ================================================================== *)
(** ** An amount before its unit *)

Lemma currency_cases (u : char) :
  in_class NLPParser.CURRENCY u = true ->
  is_digit u = false /\ is_space u = false /\ (u =? 46) = false.
Proof.
  intros H. apply in_class_cases in H. vm_compute in H.
  decompose [or] H; try contradiction; subst u; vm_compute; auto.
Qed.

Lemma digit_not_dot (c : char) : is_digit c = true -> (c =? 46) = false.
Proof.
  intros D. destruct (Z.eqb_spec c 46) as [-> |]; [| reflexivity].
  vm_compute in D. discriminate.
Qed.

Lemma split_at_dot_digits (ds : str) :
  forallb is_digit ds = true -> split_at_dot ds = (ds, None).
Proof.
  induction ds as [| c ds IH]; cbn [forallb split_at_dot]; [reflexivity |].
  intros H. apply andb_true_iff in H as [D H].
  now rewrite (digit_not_dot c D), (IH H).
Qed.

(** The first amount pattern at a character that is no digit. *)
Lemma amount_unit_here_none (pos : nat) (x : char) (rest : str) :
  is_digit x = false ->
  match_here NLPParser.RE_AMOUNT_UNIT pos (x :: rest) = None.
Proof.
  intros H. unfold match_here, NLPParser.RE_AMOUNT_UNIT, number, digits, plus.
  cbn [rmatch]. now rewrite H.
Qed.

(** The first amount pattern at a run of digits that white space and a
    unit follow. *)
Lemma amount_unit_here_some (pos : nat) (d : char) (ds sp : str) (u : char) (post : str) :
  forallb is_digit (d :: ds) = true -> forallb is_space sp = true ->
  in_class NLPParser.CURRENCY u = true ->
  exists m, match_here NLPParser.RE_AMOUNT_UNIT pos (d :: ds ++ sp ++ u :: post) = Some m /\
            group_text m 1 = d :: ds.
Proof.
  intros Hds Hsp Hu. destruct (currency_cases u Hu) as (Du & Su & Pu).
  cbn [forallb] in Hds. apply andb_true_iff in Hds as [Hd Hds].
  destruct sp as [| c sp']; cbn [app].
  - unfold match_here, NLPParser.RE_AMOUNT_UNIT, number, digits, plus, spaces, cls.
    replace (utf8 ".") with [46] by (vm_compute; reflexivity).
    cbn [lit fold_right rmatch]. rewrite Hd.
    rewrite match_star_greedy; [| exact Hds | exact Du |].
    + rewrite Pu. cbn [match_star]. rewrite Su, Hu.
      eexists. split; [reflexivity |].
      unfold group_text, group. cbn [m_groups lookup_group Nat.eqb].
      change (d :: ds ++ u :: post) with ((d :: ds) ++ u :: post).
      apply firstn_app_length.
    + rewrite Pu. cbn [match_star]. rewrite Su, Hu. discriminate.
  - pose proof Hsp as Hsp'. cbn [forallb] in Hsp'. apply andb_true_iff in Hsp' as [Sc _].
    assert (Dc : is_digit c = false).
    { destruct (is_digit c) eqn:Dc; [| reflexivity].
      apply digit_not_space in Dc. congruence. }
    assert (Pc : (c =? 46) = false).
    { destruct (Z.eqb_spec c 46) as [-> |]; [| reflexivity].
      vm_compute in Sc. discriminate. }
    unfold match_here, NLPParser.RE_AMOUNT_UNIT, number, digits, plus, spaces, cls.
    replace (utf8 ".") with [46] by (vm_compute; reflexivity).
    cbn [lit fold_right rmatch]. rewrite Hd.
    rewrite match_star_greedy; [| exact Hds | exact Dc |].
    + rewrite Pc. change (c :: sp' ++ u :: post) with ((c :: sp') ++ u :: post).
      rewrite match_star_greedy; [| exact Hsp | exact Su | now rewrite Hu].
      rewrite Hu. eexists. split; [reflexivity |].
      unfold group_text, group. cbn [m_groups lookup_group Nat.eqb].
      change (d :: ds ++ (c :: sp') ++ u :: post)
        with ((d :: ds) ++ (c :: sp') ++ u :: post).
      apply firstn_app_length.
    + rewrite Pc. change (c :: sp' ++ u :: post) with ((c :: sp') ++ u :: post).
      rewrite match_star_greedy; [| exact Hsp | exact Su | now rewrite Hu].
      rewrite Hu. discriminate.
Qed.

(** An amount written as a natural number (up to 2^53, where floats are
    exact) before one of the units 元, 塊, 錢, with or without white space
    between them, after a text without digits: the extractor returns that
    number, whatever follows. *)
Theorem amount_before_unit (pre : str) (n : Z) (sp : str) (u : char) (post : str) :
  lacks is_digit pre ->
  0 <= n <= 2 ^ 53 ->
  forallb is_space sp = true ->
  in_class NLPParser.CURRENCY u = true ->
  NLPParser._extract_amount (pre ++ arabic_numeral n ++ sp ++ u :: post)
  = Ok (Some (inject_Z n)).
Proof.
  intros L Hn Hsp Hu.
  destruct (arabic_numeral_spec n ltac:(lia)) as (d & ds & E & Hds & Hv).
  rewrite E. cbn [app].
  assert (M : exists m, re_search NLPParser.RE_AMOUNT_UNIT
                          (pre ++ d :: ds ++ sp ++ u :: post) = Some m /\
                        group_text m 1 = d :: ds).
  { unfold re_search. rewrite search_skip_prefix.
    - destruct (amount_unit_here_some (0 + length pre) d ds sp u post Hds Hsp Hu)
        as (m & Em & G).
      exists m. split; [| exact G]. cbn [search_from]. now rewrite Em.
    - intros pos a b Eb Nb. destruct b as [| x b]; [contradiction |]. cbn [app].
      apply amount_unit_here_none. apply L. rewrite Eb.
      apply in_or_app. right. now left. }
  destruct M as (m & M & G).
  unfold NLPParser._extract_amount, NLPParser.AMOUNT_PATTERNS.
  cbn [NLPParser.first_pattern_amount]. rewrite M, G.
  unfold float_of_str. rewrite (split_at_dot_digits _ Hds), Hv. reflexivity.
Qed.

(** "午餐 120 元": 120. *)
Lemma amount_before_unit_witness :
  NLPParser._extract_amount (utf8 "午餐 120 元") = Ok (Some 120%Q).
Proof.
  assert (E : utf8 "午餐 120 元" = utf8 "午餐 " ++ arabic_numeral 120 ++ [32] ++ 20803 :: [])
    by (vm_compute; reflexivity).
  rewrite E.
  assert (L : lacks is_digit (utf8 "午餐 ")) by (apply lacks_iff; vm_compute; reflexivity).
  assert (U : in_class NLPParser.CURRENCY 20803 = true) by (vm_compute; reflexivity).
  assert (B : 0 <= 120 <= 2 ^ 53) by (vm_compute; split; discriminate).
  exact (amount_before_unit (utf8 "午餐 ") 120 [32] 20803 [] L B eq_refl U).
Defined.

(* ================================================================== *)
(** ** The first numeral run before a unit *)

Lemma lstrip_spaces (s : str) :
  exists ws, s = ws ++ lstrip s /\ forallb is_space ws = true.
Proof.
  induction s as [| c s (ws & E & W)]; cbn [lstrip]; [now exists [] |].
  destruct (is_space c) eqn:S; [| now exists []].
  exists (c :: ws). cbn [app forallb]. rewrite S, W. split; [now rewrite <- E | reflexivity].
Qed.

Lemma lstrip_head (s : str) :
  match lstrip s with c :: _ => is_space c = false | [] => True end.
Proof.
  induction s as [| c s IH]; cbn [lstrip]; [exact I |].
  destruct (is_space c) eqn:S; [exact IH | exact S].
Qed.

Lemma suffix_snoc {A : Type} (l : list A) (c : A) (a b : list A) :
  l ++ [c] = a ++ b -> b <> [] -> exists t, b = t ++ [c] /\ l = a ++ t.
Proof.
  intros E N. destruct (exists_last N) as (t & x & ->).
  rewrite app_assoc in E. apply app_inj_tail in E as [-> ->]. now exists t.
Qed.

Section FirstRun.
Variables p q : char -> bool.
Hypothesis unit_not_class : forall c, q c = true -> p c = false.
Hypothesis unit_not_space : forall c, q c = true -> is_space c = false.
Hypothesis space_not_class : forall c, is_space c = true -> p c = false.

(** White space and then a unit, where no unit follows. *)
Lemma spaces_unit_none {A : Type} (k : str -> option A) (rest : str) :
  (forall s, match s with u :: _ => q u = false | [] => True end -> k s = None) ->
  unit_follows q rest = false ->
  match_star is_space rest k = None.
Proof.
  intros Hk U. destruct (lstrip_spaces rest) as (ws & E & W). rewrite E.
  unfold unit_follows in U. pose proof (lstrip_head rest) as H.
  apply match_star_none; [exact H |].
  intros a b Eb. apply Hk. destruct b as [| w b]; cbn [app].
  - destruct (lstrip rest); [exact I | exact U].
  - assert (Sw : is_space w = true).
    { rewrite forallb_forall in W. apply W. rewrite Eb.
      apply in_or_app. right. now left. }
    destruct (q w) eqn:Q; [| reflexivity].
    apply unit_not_space in Q. congruence.
Qed.

(** The pattern at a run of the class that no unit follows. *)
Lemma run_before_unit_here_none (pos : nat) (t rest : str) :
  forallb p t = true ->
  match rest with c :: _ => p c = false | [] => True end ->
  unit_follows q rest = false ->
  match_here (run_before_unit p q) pos (t ++ rest) = None.
Proof.
  intros Ht Hr U. unfold match_here, run_before_unit. cbn [rmatch].
  destruct t as [| d t]; cbn [app].
  - destruct rest as [| c rest]; [reflexivity | now rewrite Hr].
  - cbn [forallb] in Ht. apply andb_true_iff in Ht as [Hd Ht]. rewrite Hd.
    apply match_star_none; [exact Hr |].
    intros a b E. destruct b as [| x b]; cbn [app].
    + apply spaces_unit_none; [| exact U].
      intros s Hs. destruct s as [| u s]; [reflexivity | now rewrite Hs].
    + assert (Px : p x = true).
      { rewrite forallb_forall in Ht. apply Ht. rewrite E.
        apply in_or_app. right. now left. }
      cbn [match_star].
      destruct (is_space x) eqn:Sx; [apply space_not_class in Sx; congruence |].
      destruct (q x) eqn:Qx; [apply unit_not_class in Qx; congruence | reflexivity].
Qed.

(** The group that the pattern [([class]+)\s*[units]] finds is the first
    run of the class that a unit follows. *)
Lemma run_before_unit_group (s : str) :
  forall cur pos, forallb p cur = true ->
  option_map (fun m => group_text m 1)
    (search_from (run_before_unit p q) pos (rev cur ++ s))
  = first_run_before_unit_aux p q cur s.
Proof.
  induction s as [| c s IH]; intros cur pos Hcur.
  - cbn [first_run_before_unit_aux]. rewrite app_nil_r.
    replace (rev cur) with (rev cur ++ []) by apply app_nil_r.
    rewrite search_skip_prefix.
    + cbn [search_from]. unfold match_here, run_before_unit. reflexivity.
    + intros pos' a b E N. apply run_before_unit_here_none; [| exact I | reflexivity].
      rewrite forallb_forall in *. intros x Ix. apply Hcur, in_rev. rewrite E.
      apply in_or_app. now right.
  - cbn [first_run_before_unit_aux]. destruct (p c) eqn:Pc.
    + rewrite <- (IH (c :: cur) pos) by (cbn [forallb]; now rewrite Pc, Hcur).
      cbn [rev]. now rewrite <- app_assoc.
    + destruct cur as [| x cur0].
      * cbn [rev app search_from]. unfold match_here at 1, run_before_unit at 1.
        cbn [rmatch]. rewrite Pc. apply (IH [] (S pos) eq_refl).
      * set (cur := x :: cur0) in *.
        assert (Hrev : forallb p (rev cur) = true).
        { rewrite forallb_forall in *. intros y Iy. now apply Hcur, in_rev. }
        destruct (unit_follows q (c :: s)) eqn:U.
        -- destruct (rev cur) as [| r0 run] eqn:R.
           { apply (f_equal (@length _)) in R. rewrite length_rev in R. discriminate. }
           cbn [forallb] in Hrev. apply andb_true_iff in Hrev as [H0 Hrun].
           destruct (lstrip_spaces (c :: s)) as (ws & E & W).
           unfold unit_follows in U.
           destruct (lstrip (c :: s)) as [| u post]; [discriminate |].
           destruct (run_before_unit_here p q unit_not_class unit_not_space
                       space_not_class pos r0 run ws u post H0 Hrun W U)
             as (m & Hm & G).
           rewrite E. cbn [app search_from]. rewrite Hm. cbn [option_map].
           now rewrite G.
        -- replace (rev cur ++ c :: s) with ((rev cur ++ [c]) ++ s)
             by (now rewrite <- app_assoc).
           rewrite search_skip_prefix; [apply (IH [] _ eq_refl) |].
           intros pos' a b E N.
           destruct (suffix_snoc _ _ _ _ E N) as (t & -> & Et).
           rewrite <- app_assoc. cbn [app].
           apply run_before_unit_here_none; [| exact Pc | exact U].
           rewrite forallb_forall in *. intros y Iy. apply Hrev. rewrite Et.
           apply in_or_app. now right.
Qed.
(** What the first run before a unit is: a non-empty run of the class,
    then white space, then a unit. *)
Lemma first_run_before_unit_shape (s : str) (run : str) :
  forall cur, forallb p cur = true ->
  first_run_before_unit_aux p q cur s = Some run ->
  exists pre ws u post,
    rev cur ++ s = pre ++ run ++ ws ++ u :: post /\
    run <> [] /\ forallb p run = true /\ forallb is_space ws = true /\ q u = true.
Proof.
  induction s as [| c s IH]; intros cur Hcur; cbn [first_run_before_unit_aux];
    [discriminate |].
  destruct (p c) eqn:Pc.
  - intros H. destruct (IH (c :: cur) ltac:(cbn [forallb]; now rewrite Pc, Hcur) H)
      as (pre & ws & u & post & E & R).
    exists pre, ws, u, post. split; [| exact R].
    rewrite <- E. cbn [rev]. now rewrite <- app_assoc.
  - destruct cur as [| x cur0].
    + intros H. destruct (IH [] eq_refl H) as (pre & ws & u & post & E & R).
      exists (c :: pre), ws, u, post. split; [| exact R].
      cbn [rev app] in *. now rewrite E.
    + set (cur := x :: cur0) in *. destruct (unit_follows q (c :: s)) eqn:U.
      * intros H. injection H as <-.
        destruct (lstrip_spaces (c :: s)) as (ws & E & W).
        unfold unit_follows in U.
        destruct (lstrip (c :: s)) as [| u post]; [discriminate |].
        exists [], ws, u, post. cbn [app]. rewrite <- E.
        split; [reflexivity |]. split.
        { intros N. unfold cur in N. cbn [rev] in N.
          apply app_eq_nil in N as [_ N]. discriminate N. }
        split; [| auto].
        rewrite forallb_forall in *. intros y Iy. now apply Hcur, in_rev.
      * intros H. destruct (IH [] eq_refl H) as (pre & ws & u & post & E & R).
        exists (rev cur ++ c :: pre), ws, u, post. split; [| exact R].
        cbn [rev app] in E. rewrite E, <- app_assoc. reflexivity.
Qed.
End FirstRun.

(** The group of the Chinese-amount pattern is the first numeral run
    before a unit. *)
Lemma chinese_amount_group (text : str) :
  option_map (fun m => group_text m 1) (re_search NLPParser.RE_CHINESE_AMOUNT text)
  = first_numeral_run_before_unit text.
Proof.
  unfold re_search, first_numeral_run_before_unit.
  apply (run_before_unit_group
           (in_class NLPParser.CHINESE_DIGITS) (in_class NLPParser.CURRENCY))
    with (cur := []); [| | | reflexivity].
  - intros c H. apply currency_not_space, H.
  - intros c H. apply currency_not_space, H.
  - intros c H. destruct (in_class NLPParser.CHINESE_DIGITS c) eqn:E; [| reflexivity].
    apply numeral_not_space in E. congruence.
Qed.

(** The first numeral run before a unit is a part of the text: a
    non-empty run of numeral characters, then white space, then a unit. *)
Lemma first_numeral_run_shape (text run : str) :
  first_numeral_run_before_unit text = Some run ->
  exists pre ws u post,
    text = pre ++ run ++ ws ++ u :: post /\
    run <> [] /\ forallb (in_class NLPParser.CHINESE_DIGITS) run = true /\
    forallb is_space ws = true /\ in_class NLPParser.CURRENCY u = true.
Proof.
  intros H. exact (first_run_before_unit_shape _ _ text run [] eq_refl H).
Qed.

(** A run before a unit after a text without numeral characters, as in
    "買3個蘋果五百元整", is the first such run. *)
Lemma first_numeral_run_after_plain_text (pre run ws : str) (u : char) (post : str) :
  forallb (fun c => negb (in_class NLPParser.CHINESE_DIGITS c)) pre = true ->
  run <> [] ->
  forallb (in_class NLPParser.CHINESE_DIGITS) run = true ->
  forallb is_space ws = true ->
  in_class NLPParser.CURRENCY u = true ->
  first_numeral_run_before_unit (pre ++ run ++ ws ++ u :: post) = Some run.
Proof.
  intros Hpre Hne Hrun Hws Hu. rewrite <- chinese_amount_group.
  destruct (chinese_amount_search pre run ws u post Hpre Hne Hrun Hws Hu) as (m & Hm & G).
  rewrite Hm. cbn [option_map]. now rewrite G.
Qed.

(** C5, as the code has it: when none of the four digit patterns of step
    (a) matches (digits before a currency unit or before the end of the
    text, digits after "$", digits after "NT" or "NT$" in either case) and
    the text holds a run of Chinese numeral characters that is followed,
    after optional white space, by a currency unit, the amount is the
    numeral converter's value of the first such run, provided the
    converter returns a value (it raises [OverflowError] beyond the range
    of floats) and the value is not zero; the digit runs and the other
    numeral characters elsewhere in the text are not used. *)
Theorem C5_chinese_amount_before_bare_digits (text run : str) (v : float) :
  NLPParser.first_pattern_amount NLPParser.AMOUNT_PATTERNS text = None ->
  first_numeral_run_before_unit text = Some run ->
  NLPParser._chinese_to_number run = Ok v ->
  ~ (v == 0)%Q ->
  NLPParser._extract_amount text = Ok (Some v).
Proof.
  intros Ha Hrun Hv Hnz. rewrite <- chinese_amount_group in Hrun.
  unfold NLPParser._extract_amount. rewrite Ha.
  unfold NLPParser._extract_chinese_amount.
  destruct (re_search NLPParser.RE_CHINESE_AMOUNT text) as [m |]; [| discriminate].
  cbn [option_map] in Hrun. injection Hrun as G. cbv zeta.
  rewrite G, Hv. cbn [bind NLPParser.truthy]. unfold float_truthy.
  destruct (Qeq_bool v 0) eqn:Z; [| reflexivity].
  apply Qeq_bool_iff in Z. contradiction.
Qed.

(** "一杯咖啡五十元": 50, the run 五十 and not the 一 before it;
    "一共買3個蘋果五百元整": 500, not the 3. *)
Lemma C5_chinese_amount_witness :
  NLPParser._extract_amount (utf8 "一杯咖啡五十元") = Ok (Some 50%Q) /\
  NLPParser._extract_amount (utf8 "一共買3個蘋果五百元整") = Ok (Some 500%Q).
Proof.
  assert (A1 : NLPParser.first_pattern_amount NLPParser.AMOUNT_PATTERNS
                 (utf8 "一杯咖啡五十元") = None) by (vm_compute; reflexivity).
  assert (R1 : first_numeral_run_before_unit (utf8 "一杯咖啡五十元") = Some (utf8 "五十"))
    by (vm_compute; reflexivity).
  assert (V1 : NLPParser._chinese_to_number (utf8 "五十") = Ok 50%Q)
    by (vm_compute; reflexivity).
  assert (A2 : NLPParser.first_pattern_amount NLPParser.AMOUNT_PATTERNS
                 (utf8 "一共買3個蘋果五百元整") = None) by (vm_compute; reflexivity).
  assert (R2 : first_numeral_run_before_unit (utf8 "一共買3個蘋果五百元整")
               = Some (utf8 "五百")) by (vm_compute; reflexivity).
  assert (V2 : NLPParser._chinese_to_number (utf8 "五百") = Ok 500%Q)
    by (vm_compute; reflexivity).
  assert (N1 : ~ (50 == 0)%Q) by discriminate.
  assert (N2 : ~ (500 == 0)%Q) by discriminate.
  split.
  - exact (C5_chinese_amount_before_bare_digits (utf8 "一杯咖啡五十元") (utf8 "五十")
             50%Q A1 R1 V1 N1).
  - exact (C5_chinese_amount_before_bare_digits (utf8 "一共買3個蘋果五百元整")
             (utf8 "五百") 500%Q A2 R2 V2 N2).
Defined.

(** C5, as the specification has it, fails: in "五百元買了3" no digit run
    stands before a currency unit or after "$" or "NT$", and the numeral
    run 五百 stands before 元, yet the amount is the 3 at the end of the
    text (the fourth pattern of step (a)), not 500.  Likewise "NT 50 五百元"
    gives the 50 after "NT" without "$", "零元買3個" gives 3 because the
    value of 零 is zero, "一百元兩百元" gives the value of the first of its
    two runs, and a run of 103 times 千 before 元 gives no amount but an
    [OverflowError]. *)
Lemma C5_bare_digits_at_end_win :
  (re_search NLPParser.RE_AMOUNT_UNIT (utf8 "五百元買了3") = None /\
   re_search NLPParser.RE_AMOUNT_DOLLAR (utf8 "五百元買了3") = None /\
   re_search NLPParser.RE_AMOUNT_NT (utf8 "五百元買了3") = None /\
   first_numeral_run_before_unit (utf8 "五百元買了3") = Some (utf8 "五百") /\
   NLPParser._chinese_to_number (utf8 "五百") = Ok 500%Q /\
   NLPParser._extract_amount (utf8 "五百元買了3") = Ok (Some 3%Q) /\
   NLPParser._extract_amount (utf8 "五百元買了3") <> Ok (Some 500%Q)) /\
  (first_numeral_run_before_unit (utf8 "NT 50 五百元") = Some (utf8 "五百") /\
   NLPParser._extract_amount (utf8 "NT 50 五百元") = Ok (Some 50%Q)) /\
  (first_numeral_run_before_unit (utf8 "零元買3個") = Some (utf8 "零") /\
   NLPParser._chinese_to_number (utf8 "零") = Ok 0%Q /\
   NLPParser._extract_amount (utf8 "零元買3個") = Ok (Some 3%Q)) /\
  (NLPParser._chinese_to_number (utf8 "兩百") = Ok 200%Q /\
   NLPParser._extract_amount (utf8 "一百元兩百元") = Ok (Some 100%Q)) /\
  (first_numeral_run_before_unit (repeat 21315 103 ++ utf8 "元")
   = Some (repeat 21315 103) /\
   NLPParser._extract_amount (repeat 21315 103 ++ utf8 "元") = Raise OverflowError).
Proof.
  repeat split; try (vm_compute; reflexivity).
  vm_compute. discriminate.
Qed.

(* ================================================================== *)
(** ** Two days ago, written 兩 *)

(** C8 fails on the code for N = 2 written 兩 (or 两), the usual numeral
    before a measure word: the table [CHINESE_NUMS] of the resolver maps
    both characters to 2, and [_parse_chinese_number] reads them as 2, but
    the character class of the "N天前" pattern leaves them out.  So
    "兩天前" matches no rule and names no date, on any day, where C8
    promises the day two days before today. *)
Theorem C8_liang_days_ago_is_no_date :
  dict_get DateParser.CHINESE_NUMS (utf8 "兩") = Some 2 /\
  dict_get DateParser.CHINESE_NUMS (utf8 "两") = Some 2 /\
  DateParser._parse_chinese_number (utf8 "兩") = 2 /\
  DateParser._parse_chinese_number (utf8 "两") = 2 /\
  in_class DateParser.NUMERAL_CLASS 20841 = false /\
  in_class DateParser.NUMERAL_CLASS 20004 = false /\
  re_search DateParser.RE_DAYS_AGO (utf8 "兩天前") = None /\
  (forall today, DateParser.parse today (utf8 "兩天前") = Ok None) /\
  (forall today, DateParser.parse today (utf8 "两天前") = Ok None) /\
  DateParser.parse (mkdate 2024 1 2) (utf8 "兩天前") <> Ok (Some (mkdate 2023 12 31)) /\
  DateParser.parse (mkdate 2024 1 2) (utf8 "二天前") = Ok (Some (mkdate 2023 12 31)).
Proof.
  assert (R1 : no_date_rule (utf8 "兩天前") = true) by (vm_compute; reflexivity).
  assert (R2 : no_date_rule (utf8 "两天前") = true) by (vm_compute; reflexivity).
  do 7 (split; [vm_compute; reflexivity |]).
  split; [intros today; exact (parse_no_rule today _ R1) |].
  split; [intros today; exact (parse_no_rule today _ R2) |].
  split; [rewrite (parse_no_rule _ _ R1); discriminate | vm_compute; reflexivity].
Qed.
